(** * todo.py: the task store, its record reconstruction and its date check

    A shallow embedding of [src/todo.py] (classes [Task] and [TodoDB], and
    the command line built on them).

    - Python values that reach the store from a JSON file are the type
      [pyval]; a Python [str] is a Rocq [string] whose characters are the
      code points below 256, and JSON numbers with a fraction or an exponent
      are not represented.
    - An exception is a class and a message; a call returns [Ret] or
      [Raise], and the store's methods thread the object, the disk, the
      standard error stream and the clock through a state monad in which a
      raised exception keeps the state reached so far, as Python does.
    - The text layer of the [json] module is not modelled: a file holds a
      Python value, or text that [json.load] rejects, or it is a directory,
      which is also the one way a write can fail here.
    - The command line takes as inputs what [argparse] made of the
      arguments (that it stopped the program, or the arguments parsed) and
      what the quote service replied; standard output is the list of the
      lines printed, and the exit status is a number.
    - A write fails on a directory and on the empty path. It can fail for
      other reasons that the disk here does not hold (a directory that is
      missing, a permission); where a statement says when a write
      succeeds, it is about a disk on which it can be done. *)

From Stdlib Require Import ZArith Lia List String Ascii Bool DecimalString.
From stdpp Require Import base list gmap strings.

Local Open Scope string_scope.
Local Open Scope list_scope.
Local Open Scope Z_scope.

(** ** The Python fragment the program runs on *)

Module Py.

Inductive exc_class : Type :=
| ValueError
| JSONDecodeError
| LookupError
| KeyError
| TypeError
| AttributeError
| OSError.

(** [issubclass c base] for the classes above; every class is an
    [Exception], so [except Exception] is the handler that takes them all.
    [IOError] is Python 3's alias of [OSError]. *)
Definition issubclass (c base : exc_class) : bool :=
  match c, base with
  | ValueError, ValueError | JSONDecodeError, JSONDecodeError
  | JSONDecodeError, ValueError
  | LookupError, LookupError | KeyError, KeyError | KeyError, LookupError
  | TypeError, TypeError | AttributeError, AttributeError
  | OSError, OSError => true
  | _, _ => false
  end.

Definition IOError : exc_class := OSError.

Record exn : Type := Exc { exc_cls : exc_class; exc_msg : string }.

Inductive res (A : Type) : Type :=
| Ret (a : A)
| Raise (e : exn).
Arguments Ret {A} a.
Arguments Raise {A} e.

Definition res_bind {A B} (r : res A) (k : A -> res B) : res B :=
  match r with
  | Ret a => k a
  | Raise e => Raise e
  end.

#[warnings="-register-all"]
Inductive pyval : Type :=
| PNone
| PBool (b : bool)
| PInt (z : Z)
| PStr (s : string)
| PList (l : list pyval)
| PDict (d : list (string * pyval)).

Definition type_name (v : pyval) : string :=
  match v with
  | PNone => "NoneType"
  | PBool _ => "bool"
  | PInt _ => "int"
  | PStr _ => "str"
  | PList _ => "list"
  | PDict _ => "dict"
  end.

(** *** Characters and strings *)

Definition ord (c : ascii) : Z := Z.of_N (N_of_ascii c).
Definition chr (z : Z) : ascii := ascii_of_N (Z.to_N z).

Definition is_digit (c : ascii) : bool := (48 <=? ord c) && (ord c <=? 57).
Definition digit_value (c : ascii) : Z := ord c - 48.

(** [str.isspace] on one character, for the code points below 256. *)
Definition is_space (c : ascii) : bool :=
  let n := ord c in
  ((9 <=? n) && (n <=? 13)) || ((28 <=? n) && (n <=? 32))
  || (n =? 133) || (n =? 160).

(** [str.lower]: A-Z and the upper-case letters of Latin-1 (all of
    0xC0-0xDE but the multiplication sign) move up by 32. *)
Definition lower_char (c : ascii) : ascii :=
  let n := ord c in
  if ((65 <=? n) && (n <=? 90))
     || ((192 <=? n) && (n <=? 222) && negb (n =? 215))
  then chr (n + 32) else c.

Fixpoint lower (s : string) : string :=
  match s with
  | EmptyString => EmptyString
  | String c s' => String (lower_char c) (lower s')
  end.

Fixpoint startswith (p s : string) : bool :=
  match p, s with
  | EmptyString, _ => true
  | String _ _, EmptyString => false
  | String a p', String b s' => if Ascii.eqb a b then startswith p' s' else false
  end.

(** [q in s] *)
Fixpoint contains (q s : string) : bool :=
  startswith q s ||
  match s with
  | EmptyString => false
  | String _ s' => contains q s'
  end.

Definition squote : ascii := "039"%char.
Definition dquote : ascii := "034"%char.
Definition backslash : ascii := "092"%char.

Fixpoint has_char (c : ascii) (s : string) : bool :=
  match s with
  | EmptyString => false
  | String a s' => Ascii.eqb a c || has_char c s'
  end.

Definition hex_digit (n : Z) : ascii :=
  if n <? 10 then chr (48 + n) else chr (87 + n).

Definition hex_escape (c : ascii) : string :=
  String backslash
    (String "x" (String (hex_digit (ord c / 16)) (String (hex_digit (ord c mod 16)) ""))).

Definition is_printable (c : ascii) : bool :=
  let n := ord c in
  ((32 <=? n) && (n <? 127)) || ((161 <=? n) && negb (n =? 173)).

Definition repr_char (quote c : ascii) : string :=
  let n := ord c in
  if Ascii.eqb c quote || Ascii.eqb c backslash then String backslash (String c "")
  else if n =? 9 then String backslash "t"
  else if n =? 10 then String backslash "n"
  else if n =? 13 then String backslash "r"
  else if is_printable c then String c ""
  else hex_escape c.

Fixpoint repr_chars (quote : ascii) (s : string) : string :=
  match s with
  | EmptyString => EmptyString
  | String c s' => repr_char quote c +:+ repr_chars quote s'
  end.

(** [repr] of a [str]: single quotes, unless the text has a single quote
    and no double quote. *)
Definition repr_str (s : string) : string :=
  let quote := if has_char squote s && negb (has_char dquote s) then dquote else squote in
  String quote (repr_chars quote s +:+ String quote "").

Definition repr_int (z : Z) : string := NilZero.string_of_int (Z.to_int z).

Fixpoint join (sep : string) (l : list string) : string :=
  match l with
  | [] => ""
  | [x] => x
  | x :: l' => x +:+ sep +:+ join sep l'
  end.

Fixpoint repr (v : pyval) : string :=
  match v with
  | PNone => "None"
  | PBool true => "True"
  | PBool false => "False"
  | PInt z => repr_int z
  | PStr s => repr_str s
  | PList l => "[" +:+ join ", " (List.map repr l) +:+ "]"
  | PDict d =>
      "{" +:+ join ", " (List.map (fun kv => repr_str (fst kv) +:+ ": " +:+ repr (snd kv)) d) +:+ "}"
  end.

(** [str(v)] *)
Definition str (v : pyval) : string :=
  match v with
  | PStr s => s
  | _ => repr v
  end.

(** [bool(v)] *)
Definition truthy (v : pyval) : bool :=
  match v with
  | PNone => false
  | PBool b => b
  | PInt z => negb (z =? 0)
  | PStr s => negb (String.eqb s "")
  | PList l => match l with [] => false | _ => true end
  | PDict d => match d with [] => false | _ => true end
  end.

Fixpoint chars (s : string) : list pyval :=
  match s with
  | EmptyString => []
  | String c s' => PStr (String c "") :: chars s'
  end.

(** [list(v)]: a copy of a list, the characters of a string, the keys of a
    dictionary; nothing else here is iterable. *)
Definition list_of (v : pyval) : res (list pyval) :=
  match v with
  | PList l => Ret l
  | PStr s => Ret (chars s)
  | PDict d => Ret (List.map (fun kv => PStr (fst kv)) d)
  | _ => Raise (Exc TypeError (String squote (type_name v) +:+ "' object is not iterable"))
  end.

(** *** [int] *)

Fixpoint lstrip (s : string) : string :=
  match s with
  | String c s' => if is_space c then lstrip s' else s
  | EmptyString => EmptyString
  end.

Fixpoint rstrip (s : string) : string :=
  match s with
  | EmptyString => EmptyString
  | String c s' =>
      match rstrip s' with
      | EmptyString => if is_space c then EmptyString else String c EmptyString
      | r => String c r
      end
  end.

Definition strip (s : string) : string := rstrip (lstrip s).

(** The blanks [int] skips around a number: those of [str.isspace] but the
    four separators 0x1C-0x1F, which [int] refuses. *)
Definition is_int_space (c : ascii) : bool :=
  let n := ord c in
  ((9 <=? n) && (n <=? 13)) || (n =? 32) || (n =? 133) || (n =? 160).

Fixpoint int_lstrip (s : string) : string :=
  match s with
  | String c s' => if is_int_space c then int_lstrip s' else s
  | EmptyString => EmptyString
  end.

Fixpoint int_rstrip (s : string) : string :=
  match s with
  | EmptyString => EmptyString
  | String c s' =>
      match int_rstrip s' with
      | EmptyString => if is_int_space c then EmptyString else String c EmptyString
      | r => String c r
      end
  end.

Definition int_strip (s : string) : string := int_rstrip (int_lstrip s).

(** Decimal digits with single underscores between them; [after_digit]
    says whether the previous character was a digit (an underscore may
    follow only a digit and must be followed by one). *)
Fixpoint digits_value (after_digit : bool) (acc : Z) (s : string) : option Z :=
  match s with
  | EmptyString => if after_digit then Some acc else None
  | String c s' =>
      if is_digit c then digits_value true (10 * acc + digit_value c) s'
      else if Ascii.eqb c "_" && after_digit then
        match s' with
        | String c' _ => if is_digit c' then digits_value false acc s' else None
        | EmptyString => None
        end
      else None
  end.

(** The text of an integer: blanks around it, a sign, then the digits.
    (The interpreter's limit on the number of digits is left out.) *)
Definition int_literal (s : string) : option Z :=
  match int_strip s with
  | String c s' =>
      if Ascii.eqb c "+" then digits_value false 0 s'
      else if Ascii.eqb c "-" then option_map Z.opp (digits_value false 0 s')
      else digits_value false 0 (String c s')
  | EmptyString => None
  end.

Definition int_of_str (s : string) : res Z :=
  match int_literal s with
  | Some z => Ret z
  | None => Raise (Exc ValueError ("invalid literal for int() with base 10: " +:+ repr_str s))
  end.

(** [int(v)] *)
Definition int (v : pyval) : res Z :=
  match v with
  | PInt z => Ret z
  | PBool b => Ret (if b then 1 else 0)
  | PStr s => int_of_str s
  | _ => Raise (Exc TypeError
           ("int() argument must be a string, a bytes-like object or a real number, not '"
              +:+ type_name v +:+ "'"))
  end.

(** *** Dictionaries and [str.join] *)

Fixpoint assoc (k : string) (d : list (string * pyval)) : option pyval :=
  match d with
  | [] => None
  | (k', v) :: d' => if String.eqb k k' then Some v else assoc k d'
  end.

(** [d[k]] for a string key [k] *)
Definition getitem (d : pyval) (k : string) : res pyval :=
  match d with
  | PDict items =>
      match assoc k items with
      | Some v => Ret v
      | None => Raise (Exc KeyError (repr_str k))
      end
  | PList _ => Raise (Exc TypeError "list indices must be integers or slices, not str")
  | PStr _ => Raise (Exc TypeError "string indices must be integers, not 'str'")
  | _ => Raise (Exc TypeError (String squote (type_name d) +:+ "' object is not subscriptable"))
  end.

(** [d.get(k, default)] *)
Definition get (d : pyval) (k : string) (default : pyval) : res pyval :=
  match d with
  | PDict items =>
      match assoc k items with
      | Some v => Ret v
      | None => Ret default
      end
  | _ => Raise (Exc AttributeError (String squote (type_name d) +:+ "' object has no attribute 'get'"))
  end.

(** [sep.join(l)]: every item must be a [str]. *)
Fixpoint str_items (i : nat) (l : list pyval) : res (list string) :=
  match l with
  | [] => Ret []
  | PStr s :: l' => res_bind (str_items (S i) l') (fun r => Ret (s :: r))
  | v :: _ =>
      Raise (Exc TypeError
        ("sequence item " +:+ repr_int (Z.of_nat i) +:+ ": expected str instance, "
           +:+ type_name v +:+ " found"))
  end.

Definition str_join (sep : string) (l : list pyval) : res string :=
  res_bind (str_items 0 l) (fun r => Ret (join sep r)).

End Py.

(** ** [datetime.strptime(d, "%Y-%m-%d")]

    The standard library turns the format into a regular expression,
    matches it at the start of the text with a backtracking matcher,
    refuses text left over after the match, converts the three groups with
    [int] and builds a date, which checks the ranges. *)

Module Strptime.
Import Py.

Inductive re : Type :=
| Chr (p : ascii -> bool)
| Seq (r1 r2 : re)
| Alt (r1 r2 : re)
| Group (name : string) (r : re).

Fixpoint take_chars (n : nat) (s : string) : string :=
  match n, s with
  | S n', String c s' => String c (take_chars n' s')
  | _, _ => EmptyString
  end.

Definition consumed (s rest : string) : string :=
  take_chars (String.length s - String.length rest)%nat s.

(** All the ways [r] matches a prefix of [s], in the order a backtracking
    matcher tries them: the groups captured and the text left. *)
Fixpoint matches (r : re) (s : string) : list (list (string * string) * string) :=
  match r with
  | Chr p =>
      match s with
      | String c s' => if p c then [([], s')] else []
      | EmptyString => []
      end
  | Seq r1 r2 =>
      List.flat_map
        (fun m1 => List.map (fun m2 => (fst m1 ++ fst m2, snd m2)) (matches r2 (snd m1)))
        (matches r1 s)
  | Alt r1 r2 => matches r1 s ++ matches r2 s
  | Group name r1 =>
      List.map (fun m => ((name, consumed s (snd m)) :: fst m, snd m)) (matches r1 s)
  end.

Definition lit (c : ascii) : re := Chr (Ascii.eqb c).
Definition range (lo hi : ascii) : re := Chr (fun c => (ord lo <=? ord c) && (ord c <=? ord hi)).
Definition digit : re := Chr is_digit.

(** [(?P<Y>\d\d\d\d)] *)
Definition re_Y : re := Group "Y" (Seq digit (Seq digit (Seq digit digit))).

(** [(?P<m>1[0-2]|0[1-9]|[1-9])] *)
Definition re_m : re :=
  Group "m" (Alt (Seq (lit "1") (range "0" "2"))
            (Alt (Seq (lit "0") (range "1" "9"))
                 (range "1" "9"))).

(** [(?P<d>3[0-1]|[1-2]\d|0[1-9]|[1-9]| [1-9])] *)
Definition re_d : re :=
  Group "d" (Alt (Seq (lit "3") (range "0" "1"))
            (Alt (Seq (range "1" "2") digit)
            (Alt (Seq (lit "0") (range "1" "9"))
            (Alt (range "1" "9")
                 (Seq (lit " ") (range "1" "9")))))).

(** The expression of the format [DATE_FMT = "%Y-%m-%d"]: the year, then
    what follows it. *)
Definition re_tail : re := Seq (lit "-") (Seq re_m (Seq (lit "-") re_d)).

Definition format_regex : re := Seq re_Y re_tail.

Fixpoint group (name : string) (caps : list (string * string)) : string :=
  match caps with
  | [] => ""
  | (n, v) :: caps' => if String.eqb n name then v else group name caps'
  end.

Definition is_leap (year : Z) : bool :=
  (year mod 4 =? 0) && (negb (year mod 100 =? 0) || (year mod 400 =? 0)).

Definition days_in_month (year month : Z) : Z :=
  if month =? 2 then (if is_leap year then 29 else 28)
  else if (month =? 4) || (month =? 6) || (month =? 9) || (month =? 11) then 30
  else 31.

(** [datetime.date(year, month, day)] *)
Definition date (year month day : Z) : res (Z * Z * Z) :=
  if negb ((1 <=? year) && (year <=? 9999)) then
    Raise (Exc ValueError ("year " +:+ repr_int year +:+ " is out of range"))
  else if negb ((1 <=? month) && (month <=? 12)) then
    Raise (Exc ValueError "month must be in 1..12")
  else if negb ((1 <=? day) && (day <=? days_in_month year month)) then
    Raise (Exc ValueError "day is out of range for month")
  else Ret (year, month, day).

Definition strptime (data_string : string) : res (Z * Z * Z) :=
  match matches format_regex data_string with
  | [] =>
      Raise (Exc ValueError ("time data " +:+ repr_str data_string
                               +:+ " does not match format '%Y-%m-%d'"))
  | (found, rest) :: _ =>
      if negb (String.eqb rest "") then
        Raise (Exc ValueError ("unconverted data remains: " +:+ rest))
      else
        res_bind (int (PStr (group "Y" found))) (fun year =>
        res_bind (int (PStr (group "m" found))) (fun month =>
        res_bind (int (PStr (group "d" found))) (fun day =>
        date year month day)))
  end.

End Strptime.

(** ** The task store *)

Module Todo.
Import Py.

(** [class Task]; [due] and the items of [tags] hold whatever value the
    caller or the file gave, as the dataclass does not check its field
    types. *)
Record Task : Type := mkTask {
  id : Z;
  title : string;
  description : string;
  created_at : string;
  due : pyval;
  tags : list pyval;
  done : bool
}.

(** [Task.to_serializable], that is [dataclasses.asdict]. *)
Definition to_serializable (t : Task) : pyval :=
  PDict [("id", PInt (id t)); ("title", PStr (title t));
         ("description", PStr (description t)); ("created_at", PStr (created_at t));
         ("due", due t); ("tags", PList (tags t)); ("done", PBool (done t))].

(** *** The state the methods run in *)

Inductive file : Type :=
| Dir
| Garbage
| Json (v : pyval).

Record TodoDB : Type := mkDB { path : string; tasks : list Task }.

Record World : Type := mkWorld {
  disk : gmap string file;
  stderr : list string;
  clock : nat -> string;
  ticks : nat
}.

Record State : Type := mkState { self : TodoDB; world : World }.

Definition M (A : Type) : Type := State -> res A * State.

Definition ret {A} (a : A) : M A := fun s => (Ret a, s).

Definition bind {A B} (m : M A) (k : A -> M B) : M B :=
  fun s => match m s with
           | (Ret a, s') => k a s'
           | (Raise e, s') => (Raise e, s')
           end.

Definition raise {A} (c : exc_class) (msg : string) : M A :=
  fun s => (Raise (Exc c msg), s).

Definition lift {A} (r : res A) : M A := fun s => (r, s).

(** [try: m  except Exception as e: h e]; the handler starts from the
    state the body had reached. *)
Definition try_except {A} (m : M A) (h : exn -> M A) : M A :=
  fun s => match m s with
           | (Ret a, s') => (Ret a, s')
           | (Raise e, s') => h e s'
           end.

Declare Scope py_scope.
Delimit Scope py_scope with py.
Notation "x <- c1 ;; c2" := (bind c1 (fun x => c2))
  (at level 100, c1 at next level, right associativity) : py_scope.
Notation "c1 ;; c2" := (bind c1 (fun _ => c2))
  (at level 100, right associativity) : py_scope.
Local Open Scope py_scope.

Definition get_tasks : M (list Task) := fun s => (Ret (tasks (self s)), s).
Definition get_path : M string := fun s => (Ret (path (self s)), s).

Definition set_tasks (l : list Task) : M unit :=
  fun s => (Ret tt, mkState (mkDB (path (self s)) l) (world s)).

Definition set_world (f : World -> World) : M unit :=
  fun s => (Ret tt, mkState (self s) (f (world s))).

(** [datetime.now(timezone.utc).isoformat()] *)
Definition now : M string :=
  fun s =>
    let w := world s in
    (Ret (clock w (ticks w)),
     mkState (self s) (mkWorld (disk w) (stderr w) (clock w) (S (ticks w)))).

(** [print(line, file=sys.stderr)] *)
Definition print_stderr (line : string) : M unit :=
  set_world (fun w => mkWorld (disk w) (stderr w ++ [line]) (clock w) (ticks w)).

Definition set_disk (d : gmap string file) : M unit :=
  set_world (fun w => mkWorld d (stderr w) (clock w) (ticks w)).

Definition get_disk : M (gmap string file) := fun s => (Ret (disk (world s)), s).

(** [os.path.exists(p)] *)
Definition exists_ (p : string) : M bool :=
  d <- get_disk ;; ret (match d !! p with Some _ => true | None => false end).

(** [with open(p, "r", encoding="utf-8") as f: data = json.load(f)] *)
Definition read_json (p : string) : M pyval :=
  d <- get_disk ;;
  match d !! p with
  | None => raise OSError ("[Errno 2] No such file or directory: " +:+ repr_str p)
  | Some Dir => raise OSError ("[Errno 21] Is a directory: " +:+ repr_str p)
  | Some Garbage => raise JSONDecodeError "Expecting value: line 1 column 1 (char 0)"
  | Some (Json v) => ret v
  end.

(** [with open(p, "w", encoding="utf-8") as f: json.dump(v, f, ...)].
    Opening fails on the empty path and on a directory; that it also
    fails under a directory that does not exist, or without the right to
    write, is not in the disk. *)
Definition write_json (p : string) (v : pyval) : M unit :=
  d <- get_disk ;;
  if String.eqb p "" then
    raise OSError ("[Errno 2] No such file or directory: " +:+ repr_str p)
  else
    match d !! p with
    | Some Dir => raise OSError ("[Errno 21] Is a directory: " +:+ repr_str p)
    | _ => set_disk (<[p := Json v]> d)
    end.

(** [os.replace(src, dst)]; the message names both paths. *)
Definition os_replace (src dst : string) : M unit :=
  d <- get_disk ;;
  let names := repr_str src +:+ " -> " +:+ repr_str dst in
  match d !! src with
  | None => raise OSError ("[Errno 2] No such file or directory: " +:+ names)
  | Some f =>
      if String.eqb dst "" then
        raise OSError ("[Errno 2] No such file or directory: " +:+ names)
      else
        match d !! dst with
        | Some Dir => raise OSError ("[Errno 21] Is a directory: " +:+ names)
        | _ => set_disk (<[dst := f]> (delete src d))
        end
  end.

Fixpoint mapM {A B} (f : A -> M B) (l : list A) : M (list B) :=
  match l with
  | [] => ret []
  | x :: l' => y <- f x ;; ys <- mapM f l' ;; ret (y :: ys)
  end.

(** *** [Task.from_dict] *)

Definition from_dict (d : pyval) : M Task :=
  try_except
    (v_id <- lift (getitem d "id") ;;
     id_ <- lift (int v_id) ;;
     v_title <- lift (getitem d "title") ;;
     v_description <- lift (get d "description" (PStr "")) ;;
     default_created <- now ;;
     v_created <- lift (get d "created_at" (PStr default_created)) ;;
     v_due <- lift (get d "due" PNone) ;;
     v_tags <- lift (get d "tags" (PList [])) ;;
     tags_ <- lift (list_of v_tags) ;;
     v_done <- lift (get d "done" (PBool false)) ;;
     ret (mkTask id_ (str v_title) (str v_description) (str v_created)
            v_due tags_ (truthy v_done)))
    (fun e => raise ValueError ("Invalid task data: " +:+ exc_msg e)).

(** *** [TodoDB] *)

Definition _validate_date (d : string) : res unit :=
  match Strptime.strptime d with
  | Ret _ => Ret tt
  | Raise e =>
      if issubclass (exc_cls e) ValueError then
        Raise (Exc ValueError ("Date must be in YYYY-MM-DD format, got '" +:+ d +:+ "'"))
      else Raise e
  end.

Definition _load : M unit :=
  p <- get_path ;;
  there <- exists_ p ;;
  if negb there then set_tasks []
  else
    try_except
      (data <- read_json p ;;
       match data with
       | PList items => l <- mapM from_dict items ;; set_tasks l
       | _ => raise ValueError "DB file root must be a list"
       end)
      (fun e =>
         if issubclass (exc_cls e) JSONDecodeError || issubclass (exc_cls e) ValueError then
           print_stderr ("Warning: failed to load DB (" +:+ exc_msg e
                           +:+ "). Starting with empty DB.") ;;
           set_tasks []
         else
           print_stderr ("Error reading DB file: " +:+ exc_msg e) ;;
           set_tasks []).

(** [TodoDB(path)] *)
Definition __init__ (p : string) (w : World) : res unit * State :=
  _load (mkState (mkDB p []) w).

Definition dump (l : list Task) : pyval := PList (List.map to_serializable l).

Definition _save : M unit :=
  try_except
    (p <- get_path ;;
     let tmp := p +:+ ".tmp" in
     l <- get_tasks ;;
     write_json tmp (dump l) ;;
     os_replace tmp p)
    (fun e => raise IOError ("Failed to save DB: " +:+ exc_msg e)).

Definition _next_id (l : list Task) : Z :=
  match l with
  | [] => 1
  | t :: l' => List.fold_left Z.max (List.map id l') (id t) + 1
  end.

Definition add (title_ description_ : string) (due_ : option string)
    (tags_ : option (list string)) : M Task :=
  match due_ with
  | Some d => if negb (String.eqb d "") then lift (_validate_date d) else ret tt
  | None => ret tt
  end ;;
  let tags_ := match tags_ with Some (x :: l) => x :: l | _ => [] end in
  l <- get_tasks ;;
  stamp <- now ;;
  let task := mkTask (_next_id l) title_ description_ stamp
                (match due_ with Some d => PStr d | None => PNone end)
                (List.map PStr tags_) false in
  l <- get_tasks ;;
  set_tasks (l ++ [task]) ;;
  _save ;;
  ret task.

(** The position in [self.tasks] of the first task with the given id. *)
Fixpoint index_of (i : Z) (l : list Task) : option nat :=
  match l with
  | [] => None
  | t :: l' => if id t =? i then Some 0%nat else option_map S (index_of i l')
  end.

(** [find_by_id] returns the task object itself; here, its position in
    [self.tasks], which the callers below do not reorder before they
    return, together with the task found there. *)
Definition find_by_id (i : Z) : M (nat * Task) :=
  l <- get_tasks ;;
  match index_of i l with
  | Some k =>
      match l !! k with
      | Some t => ret (k, t)
      | None => raise LookupError ("Task with id " +:+ repr_int i +:+ " not found")
      end
  | None => raise LookupError ("Task with id " +:+ repr_int i +:+ " not found")
  end.

(** An attribute assignment on the task object at position [k]. *)
Definition assign (k : nat) (f : Task -> Task) : M unit :=
  l <- get_tasks ;;
  set_tasks (alter f k l).

(** The task object at position [k] as it is now. *)
Definition deref (k : nat) (t : Task) : M Task :=
  l <- get_tasks ;;
  ret (default t (l !! k)).

Definition set_title (v : string) (t : Task) : Task :=
  mkTask (id t) v (description t) (created_at t) (due t) (tags t) (done t).
Definition set_description (v : string) (t : Task) : Task :=
  mkTask (id t) (title t) v (created_at t) (due t) (tags t) (done t).
Definition set_due (v : pyval) (t : Task) : Task :=
  mkTask (id t) (title t) (description t) (created_at t) v (tags t) (done t).
Definition set_tags (v : list pyval) (t : Task) : Task :=
  mkTask (id t) (title t) (description t) (created_at t) (due t) v (done t).
Definition set_id (v : Z) (t : Task) : Task :=
  mkTask v (title t) (description t) (created_at t) (due t) (tags t) (done t).

Definition when {A} (o : option A) (f : A -> M unit) : M unit :=
  match o with
  | Some a => f a
  | None => ret tt
  end.

Definition edit (i : Z) (title_ description_ due_ : option string)
    (tags_ : option (list string)) : M Task :=
  found <- find_by_id i ;;
  let k := fst found in
  when title_ (fun v => assign k (set_title v)) ;;
  when description_ (fun v => assign k (set_description v)) ;;
  when due_ (fun v =>
    if negb (String.eqb v "") then
      lift (_validate_date v) ;;
      assign k (set_due (PStr v))
    else assign k (set_due PNone)) ;;
  when tags_ (fun v => assign k (set_tags (List.map PStr v))) ;;
  _save ;;
  deref k (snd found).

(** The condition of the comprehension in [search]; [or] evaluates its
    right operand only when the left one is false. *)
Definition hit (q : string) (t : Task) : res bool :=
  if contains q (lower (title t)) then Ret true
  else if contains q (lower (description t)) then Ret true
  else res_bind (str_join " " (tags t)) (fun joined => Ret (contains q (lower joined))).

Fixpoint select (q : string) (l : list Task) : res (list Task) :=
  match l with
  | [] => Ret []
  | t :: l' =>
      res_bind (hit q t) (fun b =>
      res_bind (select q l') (fun r => Ret (if b then t :: r else r)))
  end.

Definition search (query : string) (l : list Task) : res (list Task) :=
  let q := lower query in select q l.

Definition export (export_path : string) : M unit :=
  try_except
    (l <- get_tasks ;; write_json export_path (dump l))
    (fun e => raise IOError ("Failed to export DB: " +:+ exc_msg e)).

(** [for i, t in enumerate(new_tasks): t.id = base_id + i; self.tasks.append(t)] *)
Fixpoint renumber (base_id : Z) (i : Z) (new_tasks : list Task) : M unit :=
  match new_tasks with
  | [] => ret tt
  | t :: rest =>
      l <- get_tasks ;;
      set_tasks (l ++ [set_id (base_id + i) t]) ;;
      renumber base_id (i + 1) rest
  end.

Definition import_file (import_path : string) (merge : bool) : M unit :=
  try_except
    (data <- read_json import_path ;;
     match data with
     | PList items =>
         new_tasks <- mapM from_dict items ;;
         (if merge then
            l <- get_tasks ;;
            renumber (_next_id l) 0 new_tasks
          else set_tasks new_tasks) ;;
         _save
     | _ => raise ValueError "Import file must be a JSON list of tasks"
     end)
    (fun e => raise IOError ("Failed to import DB: " +:+ exc_msg e)).

(** [TodoDB.list]: a copy of the collection. *)
Definition list_ (show_all : bool) : M (list Task) := get_tasks.

Definition set_done (v : bool) (t : Task) : Task :=
  mkTask (id t) (title t) (description t) (created_at t) (due t) (tags t) v.

Definition toggle_done (i : Z) : M Task :=
  found <- find_by_id i ;;
  let k := fst found in
  assign k (fun t => set_done (negb (done t)) t) ;;
  _save ;;
  deref k (snd found).

(** *** [delete]

    [self.tasks.remove(task)] takes out the first item that is the object
    [task] or compares equal to it. Equality of tasks is the [__eq__] the
    dataclass generates, which compares the fields in order, as tuples; it
    rests on Python's [==] between the values of [due] and of [tags], which
    is the parameter [val_eq] here. *)

Section Remove.
Variable val_eq : pyval -> pyval -> bool.

Fixpoint list_eq (a b : list pyval) : bool :=
  match a, b with
  | [], [] => true
  | x :: a', y :: b' => val_eq x y && list_eq a' b'
  | _, _ => false
  end.

Definition task_eq (a b : Task) : bool :=
  (id a =? id b) && String.eqb (title a) (title b)
  && String.eqb (description a) (description b)
  && String.eqb (created_at a) (created_at b)
  && val_eq (due a) (due b) && list_eq (tags a) (tags b)
  && Bool.eqb (done a) (done b).

(** [l.remove(x)], [x] being the object at position [k] of [l]. *)
Fixpoint remove (k : nat) (x : Task) (l : list Task) : res (list Task) :=
  match l with
  | [] => Raise (Exc ValueError "list.remove(x): x not in list")
  | e :: l' =>
      match k with
      | O => Ret l'
      | S k' =>
          if task_eq e x then Ret l'
          else res_bind (remove k' x l') (fun r => Ret (e :: r))
      end
  end.

Definition delete (i : Z) : M unit :=
  found <- find_by_id i ;;
  l <- get_tasks ;;
  l' <- lift (remove (fst found) (snd found) l) ;;
  set_tasks l' ;;
  _save.

End Remove.

End Todo.

(** ** The command line *)

Module Cli.
Import Py Todo.
Local Open Scope py_scope.

(** [s.split(sep)] for a separator of one character. *)
Fixpoint split (sep : ascii) (s : string) : list string :=
  match s with
  | EmptyString => [EmptyString]
  | String c s' =>
      if Ascii.eqb c sep then EmptyString :: split sep s'
      else match split sep s' with
           | x :: r => String c x :: r
           | [] => [String c EmptyString]
           end
  end.

Fixpoint spaces (n : nat) : string :=
  match n with
  | O => EmptyString
  | S n' => String " " (spaces n')
  end.

(** [f"{z:3d}"]: the decimal text, blanks before it up to three characters. *)
Definition format_3d (z : Z) : string :=
  let text := repr_int z in
  spaces (3 - String.length text) +:+ text.

(** *** The process: the store, and what went to standard output *)

Record Proc : Type := mkProc { st : State; stdout : list string }.

Definition P (A : Type) : Type := Proc -> res A * Proc.

Definition pret {A} (a : A) : P A := fun pr => (Ret a, pr).

Definition pbind {A B} (m : P A) (k : A -> P B) : P B :=
  fun pr => match m pr with
            | (Ret a, pr') => k a pr'
            | (Raise e, pr') => (Raise e, pr')
            end.

(** A method of the store, or a pure call, run by the process. *)
Definition call {A} (m : M A) : P A :=
  fun pr => let (r, s') := m (st pr) in (r, mkProc s' (stdout pr)).

(** [print(line)] *)
Definition print (line : string) : P unit :=
  fun pr => (Ret tt, mkProc (st pr) (stdout pr ++ [line])).

Fixpoint for_each {A} (f : A -> P unit) (l : list A) : P unit :=
  match l with
  | [] => pret tt
  | x :: l' => pbind (f x) (fun _ => for_each f l')
  end.

Definition print_task (t : Task) : P unit :=
  let status := if done t then "[x]" else "[ ]" in
  let due_ := if truthy (due t) then " due:" +:+ str (due t) else "" in
  pbind (match tags t with
         | [] => pret ""
         | _ => pbind (call (lift (str_join "," (tags t))))
                  (fun joined => pret (" tags:" +:+ joined))
         end) (fun tags_ =>
  pbind (print (format_3d (id t) +:+ ". " +:+ status +:+ " " +:+ title t
                  +:+ due_ +:+ tags_)) (fun _ =>
  if negb (String.eqb (description t) "")
  then print ("     " +:+ description t)
  else pret tt)).

(** *** [fetch_quote_of_the_day]

    What the request brings back is an input here: the address cannot be
    reached, or a reply comes with a status and a body that is not UTF-8
    text, or not JSON (each with what the decoder says about it), or a
    JSON value. *)

Inductive body : Type :=
| NotUtf8 (why : string)
| NotJson (why : string)
| JsonText (data : pyval).

Inductive response : Type :=
| Unreachable (reason : string)
| Reply (status : option Z) (b : body).

Definition is_str (v : pyval) : bool :=
  match v with
  | PStr _ => true
  | _ => false
  end.

Definition fetch_quote_of_the_day (r : response) : res (string * string) :=
  match r with
  | Unreachable reason =>
      Raise (Exc IOError ("Network error while calling quote API: " +:+ reason))
  | Reply status b =>
      if match status with Some code => negb (code =? 200) | None => false end
      then Raise (Exc IOError
                    ("Quote API returned status "
                       +:+ repr_int (match status with Some code => code | None => 0 end)))
      else
        match b with
        | NotUtf8 why => Raise (Exc ValueError ("Failed to parse quote JSON: " +:+ why))
        | NotJson why => Raise (Exc ValueError ("Failed to parse quote JSON: " +:+ why))
        | JsonText data =>
            res_bind (get data "content" PNone) (fun content =>
            res_bind (get data "author" (PStr "Unknown")) (fun author =>
            if negb (truthy content) || negb (is_str content)
            then Raise (Exc ValueError "Quote JSON missing valid 'content' field")
            else
              let author := if is_str author then author else PStr "Unknown" in
              Ret (strip (str content), strip (str author))))
        end
  end.

(** *** [main]

    What [parse_args_safe] makes of the command line is an input:
    [argparse] either stops the program itself (with status 2 and a
    message for a subcommand or an id it refuses, with status 0 after the
    help it prints for [-h]), or hands over the arguments: the path of the
    store, the subcommand with its own arguments, if any, and the
    arguments it did not know. The text of the help, the dash between a
    quote and its author (a character beyond the code points modelled) and
    the reply of the quote service are inputs too. *)

Inductive command : Type :=
| CAdd (title_ description_ : string) (due_ tags_ : option string)
| CList (all : bool)
| CEdit (id_ : Z) (title_ description_ due_ tags_ : option string)
| CDone (id_ : Z)
| CDelete (id_ : Z)
| CSearch (query : string)
| CExport (path_ : string)
| CImport (path_ : string) (replace : bool)
| CQuote.

Record args : Type := mkArgs { arg_db : string; arg_cmd : option command }.

Inductive parsed : Type :=
| Exits (status : Z) (out err : list string)
| Parsed (a : args) (unknown : list string).

Section Main.
Variable val_eq : pyval -> pyval -> bool.
Variable help : list string.
Variable dash : string.
Variable quote_reply : response.

(** [args.tags.split(",") if args.tags else []] *)
Definition tags_of (arg : string) : list string :=
  if String.eqb arg "" then [] else split "," arg.

Definition run_command (c : command) : P unit :=
  match c with
  | CAdd title_ description_ due_ tags_ =>
      let tags := match tags_ with Some a => tags_of a | None => [] end in
      pbind (call (add title_ description_ due_ (Some tags))) (fun task =>
      pbind (print "Added:") (fun _ => print_task task))
  | CList _ =>
      pbind (call (list_ true)) (fun l =>
      match l with
      | [] => print "No tasks."
      | _ => for_each print_task l
      end)
  | CEdit id_ title_ description_ due_ tags_ =>
      let tags := match tags_ with Some a => Some (tags_of a) | None => None end in
      pbind (call (edit id_ title_ description_ due_ tags)) (fun task =>
      pbind (print "Updated:") (fun _ => print_task task))
  | CDone id_ =>
      pbind (call (toggle_done id_)) (fun task =>
      pbind (print "Toggled:") (fun _ => print_task task))
  | CDelete id_ =>
      pbind (call (delete val_eq id_)) (fun _ =>
      print ("Deleted task " +:+ repr_int id_))
  | CSearch query =>
      pbind (call (fun s => (search query (tasks (self s)), s))) (fun results =>
      match results with
      | [] => print "No matches."
      | _ => for_each print_task results
      end)
  | CExport path_ =>
      pbind (call (export path_)) (fun _ => print ("Exported to " +:+ path_))
  | CImport path_ replace =>
      pbind (call (import_file path_ (negb replace))) (fun _ =>
      print ("Imported from " +:+ path_))
  | CQuote =>
      pbind (call (lift (fetch_quote_of_the_day quote_reply))) (fun q =>
      let title_ := String dquote (fst q) +:+ String dquote " " +:+ dash +:+ " " +:+ snd q in
      let description_ := "Quote of the day from quotable.io" in
      pbind (call (add title_ description_ None (Some ["quote"; "motivation"]))) (fun task =>
      pbind (print "Added quote as task:") (fun _ => print_task task)))
  end.

Definition to_stderr (line : string) (w : World) : World :=
  mkWorld (disk w) (stderr w ++ [line]) (clock w) (ticks w).

(** The exit status of the process, what it wrote to standard output, and
    the world it leaves. *)
Definition main (p : parsed) (w : World) : Z * list string * World :=
  match p with
  | Exits status out err =>
      (status, out, List.fold_left (fun w line => to_stderr line w) err w)
  | Parsed a unknown =>
      let w :=
        match unknown with
        | [] => w
        | _ => to_stderr ("[info] Ignored unknown args: "
                            +:+ repr (PList (List.map PStr unknown))) w
        end in
      match arg_cmd a with
      | None => (0, help, w)
      | Some c =>
          match __init__ (arg_db a) w with
          | (Raise e, s) =>
              (2, [], to_stderr ("Failed to initialize DB: " +:+ exc_msg e) (world s))
          | (Ret _, s) =>
              match run_command c (mkProc s []) with
              | (Ret _, pr) => (0, stdout pr, world (st pr))
              | (Raise e, pr) =>
                  let report (prefix : string) (code : Z) :=
                    (code, stdout pr,
                     to_stderr (prefix +:+ exc_msg e) (world (st pr))) in
                  if issubclass (exc_cls e) LookupError then report "Not found: " 3
                  else if issubclass (exc_cls e) ValueError then report "Invalid input: " 4
                  else if issubclass (exc_cls e) IOError then report "I/O error: " 5
                  else report "Unexpected error: " 99
              end
          end
      end
  end.

End Main.

End Cli.

(** ** Notions the statements below are written with *)

Module Spec.
Import Py Todo.

Definition ids (l : list Task) : list Z := List.map id l.

Definition is_dir (o : option file) : bool :=
  match o with
  | Some Dir => true
  | _ => false
  end.


(** The path of the store is not the empty one, and neither the temporary
    file nor the target of [_save] is a directory. *)
Definition can_save (s : State) : bool :=
  let d := disk (world s) in
  let p := path (self s) in
  negb (String.eqb p "")
  && negb (is_dir (d !! (p +:+ ".tmp"))) && negb (is_dir (d !! p)).

Definition is_text (v : pyval) : bool :=
  match v with
  | PStr _ => true
  | _ => false
  end.

(** The outcome of a method that ends in [_save]: the value, or the
    [IOError] of a save that could not be done. *)
Definition saved {A} (s : State) (r : res A) (a : A) : Prop :=
  match r with
  | Ret a' => a' = a /\ can_save s = true
  | Raise e => exc_cls e = IOError /\ can_save s = false
  end.

Definition due_value (due_ : option string) : pyval :=
  match due_ with
  | Some d => PStr d
  | None => PNone
  end.

(** [m] is the greatest element of [l]. *)
Definition is_max (m : Z) (l : list Z) : Prop :=
  m ∈ l /\ Forall (fun x => x <= m) l.

Definition next_id_spec (l : list Task) : Prop :=
  match l with
  | [] => _next_id l = 1
  | _ => is_max (_next_id l - 1) (ids l)
  end.

(** What [edit] is to make of a task: a field for which no value is given
    keeps its value; the empty string as the date stands for no date; the
    tags given replace the old ones. *)
Definition edited (title_ description_ due_ : option string)
    (tags_ : option (list string)) (t : Task) : Task :=
  mkTask (id t)
    (match title_ with Some v => v | None => title t end)
    (match description_ with Some v => v | None => description t end)
    (created_at t)
    (match due_ with
     | None => due t
     | Some d => if String.eqb d "" then PNone else PStr d
     end)
    (match tags_ with Some l => List.map PStr l | None => tags t end)
    (done t).

(** The date given to [edit] is one that [_validate_date] refuses. *)
Definition bad_date (due_ : option string) : bool :=
  match due_ with
  | Some d =>
      negb (String.eqb d "")
      && match _validate_date d with Ret _ => false | Raise _ => true end
  | None => false
  end.

(** A sequence of [add] calls, each with the state it started from and
    what it returned. *)
Record add_call : Type := mkCall {
  call_title : string;
  call_description : string;
  call_due : option string;
  call_tags : option (list string)
}.

Definition do_add (c : add_call) : M Task :=
  add (call_title c) (call_description c) (call_due c) (call_tags c).

Fixpoint add_trace (calls : list add_call) (s : State) : list (State * res Task) * State :=
  match calls with
  | [] => ([], s)
  | c :: rest =>
      let (r, s1) := do_add c s in
      let (tr, s2) := add_trace rest s1 in
      ((s, r) :: tr, s2)
  end.

(** The id a successful call returned is above every id the store held
    when the call was made, and the task is the one appended. *)
Definition fresh_step (step : State * res Task) : Prop :=
  match snd step with
  | Ret t => Forall (fun u => id u < id t) (tasks (self (fst step)))
  | Raise _ => True
  end.

(** *** Dates *)

(** The format the messages of the program name: four digits, a hyphen,
    two digits, a hyphen, two digits. *)
Definition iso_format (s : string) : bool :=
  match s with
  | String y1 (String y2 (String y3 (String y4 (String "-"
      (String m1 (String m2 (String "-" (String d1 (String d2 EmptyString))))))))) =>
      forallb is_digit [y1; y2; y3; y4; m1; m2; d1; d2]
  | _ => false
  end.

(** What an expression stands for: the texts it matches as a whole, with
    the groups it captures in them. *)
Inductive derives : Strptime.re -> string -> list (string * string) -> Prop :=
| derives_chr p c :
    p c = true -> derives (Strptime.Chr p) (String c "") []
| derives_seq r1 r2 a b c1 c2 :
    derives r1 a c1 -> derives r2 b c2 ->
    derives (Strptime.Seq r1 r2) (a +:+ b) (c1 ++ c2)
| derives_alt_l r1 r2 a c :
    derives r1 a c -> derives (Strptime.Alt r1 r2) a c
| derives_alt_r r1 r2 a c :
    derives r2 a c -> derives (Strptime.Alt r1 r2) a c
| derives_group name r a c :
    derives r a c -> derives (Strptime.Group name r) a ((name, a) :: c).

Definition mem (t : string) (l : list string) : bool := existsb (String.eqb t) l.

Definition year_text (t : string) : bool :=
  match t with
  | String a (String b (String c (String d EmptyString))) =>
      forallb is_digit [a; b; c; d]
  | _ => false
  end.

(** A month is written with one digit or with two. *)
Definition month_texts : list string :=
  ["1"; "2"; "3"; "4"; "5"; "6"; "7"; "8"; "9";
   "01"; "02"; "03"; "04"; "05"; "06"; "07"; "08"; "09"; "10"; "11"; "12"].

(** A day is written with one digit, with two, or with a blank and one. *)
Definition day_texts : list string :=
  ["1"; "2"; "3"; "4"; "5"; "6"; "7"; "8"; "9";
   "01"; "02"; "03"; "04"; "05"; "06"; "07"; "08"; "09";
   "10"; "11"; "12"; "13"; "14"; "15"; "16"; "17"; "18"; "19";
   "20"; "21"; "22"; "23"; "24"; "25"; "26"; "27"; "28"; "29"; "30"; "31";
   " 1"; " 2"; " 3"; " 4"; " 5"; " 6"; " 7"; " 8"; " 9"].

(** The ten digits, in their order. *)
Definition digit_chars : list ascii :=
  ["0"; "1"; "2"; "3"; "4"; "5"; "6"; "7"; "8"; "9"]%char.

(** The place of a character in a list, counted from [k]. *)
Fixpoint place (c : ascii) (l : list ascii) (k : Z) : option Z :=
  match l with
  | [] => None
  | x :: l' => if Ascii.eqb c x then Some k else place c l' (k + 1)
  end.

(** The digit a character is: its place among the ten. *)
Definition digit_of (c : ascii) : option Z := place c digit_chars 0.

(** The number the digits of a text make, read from the left; what is not
    a digit, a blank for one, counts for nothing. *)
Fixpoint decimal (so_far : Z) (t : string) : Z :=
  match t with
  | EmptyString => so_far
  | String c t' =>
      match digit_of c with
      | Some v => decimal (10 * so_far + v) t'
      | None => decimal so_far t'
      end
  end.

Definition number (t : string) : Z := decimal 0 t.

(** The years with a 29th of February: those divisible by 400, and of the
    others those divisible by 4 but not by 100. *)
Definition leap_year (y : Z) : bool :=
  if y mod 400 =? 0 then true
  else if y mod 100 =? 0 then false
  else y mod 4 =? 0.

(** The days a month has; none, for a number that is no month. *)
Definition month_length (y m : Z) : Z :=
  if existsb (Z.eqb m) [1; 3; 5; 7; 8; 10; 12] then 31
  else if existsb (Z.eqb m) [4; 6; 9; 11] then 30
  else if m =? 2 then (if leap_year y then 29 else 28)
  else 0.

(** A date of the calendar, from year 1 on. *)
Definition real_date (y m d : Z) : bool :=
  (1 <=? y) && (1 <=? d) && (d <=? month_length y m).

(** The texts [_validate_date] lets through: a year of four digits, a
    month and a day in one of the ways above, hyphens between them, naming
    a date of the calendar. *)
Definition lenient_date (s : string) : Prop :=
  exists yt mt dt,
    year_text yt = true /\ mem mt month_texts = true /\ mem dt day_texts = true
    /\ s = yt +:+ "-" +:+ mt +:+ "-" +:+ dt
    /\ real_date (number yt) (number mt) (number dt) = true.

(** The first match of the text after the year takes all of it and captures
    the month [mt] and the day [dt]. *)
Definition head_is (mt dt : string)
    (ms : list (list (string * string) * string)) : bool :=
  match ms with
  | (caps, rest) :: _ =>
      String.eqb rest "" && String.eqb (Strptime.group "m" caps) mt
      && String.eqb (Strptime.group "d" caps) dt
  | [] => false
  end.

(** The texts of two digits, "00" to "99". *)
Definition two_digit_texts : list string :=
  List.flat_map (fun a => List.map (fun b => String a (String b "")) digit_chars)
    digit_chars.

(** The first match of the text after the year fails, or leaves text over. *)
Definition head_fails (ms : list (list (string * string) * string)) : bool :=
  match ms with
  | (_, rest) :: _ => negb (String.eqb rest "")
  | [] => true
  end.

Definition accepts (d : string) : bool :=
  match _validate_date d with
  | Ret _ => true
  | Raise _ => false
  end.

(** *** Searching *)

(** [u] is the capital of [l]: a letter from A to Z, or a capital of
    Latin-1 (the code points 192 to 222 but the multiplication sign, 215),
    whose small letter comes 32 code points after it. *)
Definition capital_of (u l : ascii) : bool :=
  let n := nat_of_ascii u in
  ((Nat.leb 65 n && Nat.leb n 90)
   || (Nat.leb 192 n && Nat.leb n 222 && negb (Nat.eqb n 215)))
  && Nat.eqb (nat_of_ascii l) (n + 32)%nat.

(** The two characters are the same but for their case. *)
Definition same_letter (a b : ascii) : bool :=
  Ascii.eqb a b || capital_of a b || capital_of b a.

(** The two texts are the same, letter by letter, but for case. *)
Fixpoint same_text (s t : string) : bool :=
  match s, t with
  | EmptyString, EmptyString => true
  | String a s', String b t' => same_letter a b && same_text s' t'
  | _, _ => false
  end.

(** [text] has a piece that is [q] up to the case of its letters. *)
Definition ci_contains (q text : string) : Prop :=
  exists pre mid post, text = pre +:+ mid +:+ post /\ same_text mid q = true.

Definition tag_text (v : pyval) : string :=
  match v with
  | PStr s => s
  | _ => ""
  end.

(** The texts of [l] in a row, [sep] between each two of them. *)
Definition separated (sep : string) (l : list string) : string :=
  match l with
  | [] => ""
  | x :: r => List.fold_left (fun done_ y => done_ +:+ sep +:+ y) r x
  end.

(** The tags of a task, single spaces between them. *)
Definition joined_tags (t : Task) : string :=
  separated " " (List.map tag_text (tags t)).

(** The tags of the task are text, as the dataclass declares them. *)
Definition text_tags (t : Task) : Prop := forallb is_text (tags t) = true.

(** The query is in the title, in the description, or in the tags, which
    are texts, put in a row. *)
Definition found_in (q : string) (t : Task) : Prop :=
  ci_contains q (title t) \/ ci_contains q (description t)
  \/ (text_tags t /\ ci_contains q (joined_tags t)).

(** [r] is made of exactly the items of [l] that satisfy [P], in the order
    they have in [l]. *)
Inductive filtered {A : Type} (P : A -> Prop) : list A -> list A -> Prop :=
| filtered_nil : filtered P [] []
| filtered_keep x l r : P x -> filtered P l r -> filtered P (x :: l) (x :: r)
| filtered_skip x l r : ~ P x -> filtered P l r -> filtered P (x :: l) r.

(** *** Records in a file *)

Definition iterable (v : pyval) : bool :=
  match v with
  | PList _ | PStr _ | PDict _ => true
  | _ => false
  end.

(** A record that can be rebuilt: a dictionary with an ["id"] that [int]
    accepts and a ["title"], whose ["tags"], if any, can be iterated. *)
Definition well_formed (d : pyval) : bool :=
  match d with
  | PDict items =>
      match assoc "id" items with
      | Some v => match int v with Ret _ => true | Raise _ => false end
      | None => false
      end
      && match assoc "title" items with Some _ => true | None => false end
      && match assoc "tags" items with Some v => iterable v | None => true end
  | _ => false
  end.

Definition field (d : pyval) (k : string) (default_ : pyval) : pyval :=
  match d with
  | PDict items => match assoc k items with Some v => v | None => default_ end
  | _ => default_
  end.

(** [t] is what the record [d] describes, [stamp] being the time of the
    reconstruction: the id converted to an integer, the title, the
    description and the creation time as text, the date as it is, the tags
    as a sequence, the done flag as a truth value, and the default of each
    optional field that is absent. *)
Definition rebuilt (stamp : string) (d : pyval) (t : Task) : Prop :=
  int (field d "id" PNone) = Ret (id t)
  /\ title t = str (field d "title" PNone)
  /\ description t = str (field d "description" (PStr ""))
  /\ created_at t = str (field d "created_at" (PStr stamp))
  /\ due t = field d "due" PNone
  /\ list_of (field d "tags" (PList [])) = Ret (tags t)
  /\ done t = truthy (field d "done" (PBool false)).

(** [t] is the record [t0] under another id. *)
Definition same_but_id (t0 t : Task) : Prop := t = set_id (id t) t0.

(** The state after [n] readings of the clock. *)
Definition tick_n (n : nat) (s : State) : State :=
  let w := world s in
  mkState (self s) (mkWorld (disk w) (stderr w) (clock w) (n + ticks w)).

(** The text of the warning of [_load]. *)
Definition warned (before : list string) (after : list string) : Prop :=
  exists msg,
    after = before ++ ["Warning: failed to load DB (" +:+ msg
                         +:+ "). Starting with empty DB."].

(** [search] cannot decide on the task: neither its title nor its
    description has the query, and its tags are not all text. *)
Definition undecided (query : string) (t : Task) : bool :=
  negb (contains (lower query) (lower (title t)))
  && negb (contains (lower query) (lower (description t)))
  && negb (forallb is_text (tags t)).

(** The keys [from_dict] reads. *)
Definition known_keys : list string :=
  ["id"; "title"; "description"; "created_at"; "due"; "tags"; "done"].

(** *** Sequences of operations *)

(** The methods that change the collection. *)
Inductive op : Type :=
| OpAdd (title_ description_ : string) (due_ : option string)
    (tags_ : option (list string))
| OpEdit (i : Z) (title_ description_ due_ : option string)
    (tags_ : option (list string))
| OpToggle (i : Z)
| OpDelete (i : Z)
| OpImport (import_path : string) (merge : bool).

Definition run_op (val_eq : pyval -> pyval -> bool) (o : op) : M unit :=
  match o with
  | OpAdd ti de du tg => bind (add ti de du tg) (fun _ => ret tt)
  | OpEdit i ti de du tg => bind (edit i ti de du tg) (fun _ => ret tt)
  | OpToggle i => bind (toggle_done i) (fun _ => ret tt)
  | OpDelete i => delete val_eq i
  | OpImport p merge => import_file p merge
  end.

(** The state after the operations of [l], each run whether or not the one
    before it raised. *)
Fixpoint run_ops (val_eq : pyval -> pyval -> bool) (l : list op) (s : State) : State :=
  match l with
  | [] => s
  | o :: l' => run_ops val_eq l' (snd (run_op val_eq o s))
  end.

(** Every operation but the import that replaces the collection. *)
Definition keeps_ids (o : op) : bool :=
  match o with
  | OpImport _ false => false
  | _ => true
  end.

(** The ids are pairwise distinct and positive. *)
Definition distinct_positive (l : list Task) : Prop :=
  NoDup (ids l) /\ Forall (fun i => 0 < i) (ids l).

(** The file at [p] holds a list of records that can all be rebuilt. *)
Definition importable (p : string) (s : State) : bool :=
  match disk (world s) !! p with
  | Some (Json (PList items)) => forallb well_formed items
  | _ => false
  end.

(** The file of the store holds the collection that is in memory, and no
    temporary file is left. *)
Definition in_sync (s : State) : Prop :=
  disk (world s) !! path (self s) = Some (Json (dump (tasks (self s))))
  /\ disk (world s) !! (path (self s) +:+ ".tmp") = None.

(** A computation after whose normal return the file of the store holds
    the collection in memory. *)
Definition syncs {A} (m : M A) : Prop :=
  forall s a s', m s = (Ret a, s') -> in_sync s'.

(** A computation that leaves the state alone when it returns. *)
Definition reads {A} (m : M A) : Prop :=
  forall s a s', m s = (Ret a, s') -> s' = s.

(** A computation that never touches the disk nor the path of the store. *)
Definition quiet {A} (m : M A) : Prop :=
  forall s r s', m s = (r, s') ->
    disk (world s') = disk (world s) /\ path (self s') = path (self s).

(** A computation that, when it raises, leaves the file of the store as it
    was. *)
Definition fail_safe {A} (m : M A) : Prop :=
  forall s e s', m s = (Raise e, s') ->
    disk (world s') !! path (self s') = disk (world s) !! path (self s)
    /\ path (self s') = path (self s).

(** A computation that returns without changing the state. *)
Definition returns {A} (m : M A) : Prop :=
  forall s, exists a, m s = (Ret a, s).

(** A store with one task, bound to a file that does not exist yet. *)
Definition sample_task : Task :=
  mkTask 1 "Buy milk" "" "2025-12-01T09:00:00+00:00" (PStr "2025-12-05")
    [PStr "shopping"] false.

Definition sample_world : World :=
  mkWorld ∅ [] (fun _ => "2025-12-02T09:00:00+00:00") 0.

Definition sample_state : State :=
  mkState (mkDB "todo_db.json" [sample_task]) sample_world.

(** The same store next to a file to import, whose two records use the id
    that the store has already given out. *)
Definition sample_backup : pyval :=
  PList [PDict [("id", PInt 1); ("title", PStr "Pay rent")];
         PDict [("id", PInt 1); ("title", PStr "Call home"); ("done", PBool true)]].

Definition sample_import_state : State :=
  mkState (mkDB "todo_db.json" [sample_task])
    (mkWorld {[ "backup.json" := Json sample_backup ]} []
       (fun _ => "2025-12-02T09:00:00+00:00") 0).

(** A store that is new, bound to another file and holding other tasks,
    on the disk the sample store leaves after an export to "backup.json". *)
Definition sample_fresh_state : State :=
  mkState (mkDB "restored.json" [mkTask 9 "Old" "" "" PNone [] true])
    (world (snd (export "backup.json" sample_state))).

Definition sample_calls : list add_call :=
  [mkCall "Pay rent" "" None None;
   mkCall "Call home" "" (Some "2025-13-40") None;
   mkCall "Water plants" "" (Some "2025-12-24") (Some ["home"])].

(** The sample store once saved. *)
Definition sample_saved_state : State := snd (_save sample_state).

(** A comparison of values to run the samples with: the same shape and the
    same contents. *)
Fixpoint sample_eq (a b : pyval) : bool :=
  match a, b with
  | PNone, PNone => true
  | PBool x, PBool y => Bool.eqb x y
  | PInt x, PInt y => x =? y
  | PStr x, PStr y => String.eqb x y
  | PList x, PList y =>
      (fix all2 (x y : list pyval) : bool :=
         match x, y with
         | [], [] => true
         | u :: x', v :: y' => sample_eq u v && all2 x' y'
         | _, _ => false
         end) x y
  | PDict x, PDict y =>
      (fix all2 (x y : list (string * pyval)) : bool :=
         match x, y with
         | [], [] => true
         | (j, u) :: x', (k, v) :: y' => String.eqb j k && sample_eq u v && all2 x' y'
         | _, _ => false
         end) x y
  | _, _ => false
  end.

(** Operations on the sample store: an import that merges, a deletion, two
    additions, an edit, a toggle, and two calls on ids that are not there. *)
Definition sample_ops : list op :=
  [OpImport "backup.json" true;
   OpDelete 2;
   OpAdd "Water plants" "" (Some "2025-12-24") (Some ["home"]);
   OpAdd "Call home" "" (Some "2025-13-40") None;
   OpEdit 1 (Some "Buy bread") None (Some "") None;
   OpToggle 3;
   OpDelete 7;
   OpToggle 9].

(** A record with a key that [from_dict] does not read. *)
Definition sample_record_head : list (string * pyval) := [("id", PStr " 7 ")].

Definition sample_record_tail : list (string * pyval) :=
  [("title", PStr "Pay rent"); ("tags", PStr "ab")].

End Spec.

(** ** Notions for the command line *)

Module CliSpec.
Import Py Todo Cli Spec.

(** The tags of the task are all text, so [print_task] can join them. *)
Definition printable (t : Task) : bool := forallb is_text (tags t).

(** The lines of a task on the screen: the id on three columns, the mark,
    the title, the date if there is one, the tags if there are any, and
    the description on a line of its own if it is not empty. *)
Definition task_line (t : Task) : string :=
  format_3d (id t) +:+ ". " +:+ (if done t then "[x]" else "[ ]") +:+ " " +:+ title t
    +:+ (if truthy (due t) then " due:" +:+ str (due t) else "")
    +:+ (match tags t with
         | [] => ""
         | _ => " tags:" +:+ join "," (List.map tag_text (tags t))
         end).

Definition task_lines (t : Task) : list string :=
  task_line t
    :: (if String.eqb (description t) "" then [] else ["     " +:+ description t]).

(** [field] shows [text] flush right on [width] columns at least: blanks
    come before the text, as many as fill the columns and no more. *)
Definition right_aligned (width : nat) (text field : string) : Prop :=
  exists pad,
    field = pad +:+ text
    /\ Forall (fun c => c = " "%char) (list_ascii_of_string pad)
    /\ String.length field = Nat.max width (String.length text).

(** What follows the id on the line of a task: the mark of what is done,
    the title, the date if there is one to show, and the tags, if there
    are any, with commas between them. *)
Definition shown (t : Task) : string :=
  (if done t then ". [x] " else ". [ ] ") +:+ title t
    +:+ (if truthy (due t) then " due:" +:+ str (due t) else "")
    +:+ (match tags t with
         | [] => ""
         | _ => " tags:" +:+ separated "," (List.map tag_text (tags t))
         end).




(** The store that [main] opens. *)
Definition opened (db : string) (w : World) : State := snd (__init__ db w).






(** The two states differ at most in what standard error holds. *)
Definition same_but_stderr (s1 s2 : State) : Prop :=
  self s1 = self s2 /\ disk (world s1) = disk (world s2)
  /\ clock (world s1) = clock (world s2) /\ ticks (world s1) = ticks (world s2).

(** A computation that does not look at standard error. *)
Definition blind {A} (m : M A) : Prop :=
  forall s1 s2, same_but_stderr s1 s2 ->
    fst (m s1) = fst (m s2) /\ same_but_stderr (snd (m s1)) (snd (m s2)).

(** The exit status that the handlers of [main] give to an outcome. *)
Definition code_of {A} (r : res A) : Z :=
  match r with
  | Ret _ => 0
  | Raise e =>
      if issubclass (exc_cls e) LookupError then 3
      else if issubclass (exc_cls e) ValueError then 4
      else if issubclass (exc_cls e) IOError then 5
      else 99
  end.

(** A continuation that only shows things: it leaves the store alone, and
    fails with [TypeError] if it fails. *)
Definition shows {A} (k : A -> P unit) : Prop :=
  forall a pr,
    st (snd (k a pr)) = st pr
    /\ match fst (k a pr) with
       | Ret _ => True
       | Raise e => exc_cls e = TypeError
       end.

(** What [add] is given by the command line, and what it prints. *)
Definition typed_tags (tags_ : option string) : string :=
  match tags_ with
  | Some a => if String.eqb a "" then "" else " tags:" +:+ a
  | None => ""
  end.

Definition typed_due (due_ : option string) : string :=
  match due_ with
  | Some d => if String.eqb d "" then "" else " due:" +:+ d
  | None => ""
  end.

End CliSpec.

(** ** Properties *)

(** *** Strings *)

Module StringFacts.
Import Py.

Lemma length_append (a b : string) :
  String.length (a +:+ b) = (String.length a + String.length b)%nat.
Proof. induction a as [|c a IH]; simpl; [reflexivity | now rewrite IH]. Qed.

Lemma app_cons (x : ascii) (a b : string) : String x a +:+ b = String x (a +:+ b).
Proof. reflexivity. Qed.

Lemma append_assoc (a b c : string) : (a +:+ b) +:+ c = a +:+ b +:+ c.
Proof.
  induction a as [|x a IH]; [reflexivity|]. rewrite !app_cons. f_equal. exact IH.
Qed.

Lemma startswith_iff (q s : string) :
  startswith q s = true <-> exists post, s = q +:+ post.
Proof.
  revert s. induction q as [|a q IH]; intros s; cbn [startswith].
  - split; [intros _; now exists s | reflexivity].
  - destruct s as [|b s].
    { split; [discriminate | intros [post H]; rewrite app_cons in H; discriminate]. }
    destruct (Ascii.eqb_spec a b) as [->|Hne].
    + rewrite IH. split; intros [post H]; exists post; rewrite app_cons in *; congruence.
    + split; [discriminate | intros [post H]; rewrite app_cons in H; congruence].
Qed.

Lemma contains_iff (q s : string) :
  contains q s = true <-> exists pre post, s = pre +:+ q +:+ post.
Proof.
  induction s as [|b s IH]; cbn [contains]; rewrite orb_true_iff, startswith_iff.
  - split.
    + intros [[post H]|H]; [now exists "", post | discriminate].
    + intros (pre & post & H). left.
      destruct pre; [now exists post | rewrite app_cons in H; discriminate].
  - rewrite IH. split.
    + intros [[post H]|(pre & post & H)]; [now exists "", post|].
      exists (String b pre), post. rewrite app_cons. now rewrite H.
    + intros (pre & post & H). destruct pre as [|c pre]; [left; now exists post|].
      right. exists pre, post. rewrite app_cons in H. congruence.
Qed.

Lemma lower_app (a b : string) : lower (a +:+ b) = lower a +:+ lower b.
Proof.
  induction a as [|x a IH]; [reflexivity|].
  rewrite app_cons. cbn [lower]. rewrite app_cons. f_equal. exact IH.
Qed.

Lemma lower_split (s a b : string) :
  lower s = a +:+ b -> exists s1 s2, s = s1 +:+ s2 /\ lower s1 = a /\ lower s2 = b.
Proof.
  revert s. induction a as [|x a IH]; intros s H.
  - now exists "", s.
  - destruct s as [|c s]; [rewrite app_cons in H; discriminate|].
    rewrite app_cons in H. cbn [lower] in H. injection H as Hc Hs.
    destruct (IH s Hs) as (s1 & s2 & -> & H1 & H2).
    exists (String c s1), s2. rewrite app_cons. cbn [lower]. now rewrite Hc, H1.
Qed.

Lemma append_nil_r (a : string) : a +:+ "" = a.
Proof. induction a as [|x a IH]; [reflexivity|]. rewrite app_cons. f_equal. exact IH. Qed.

End StringFacts.

(** *** The date check *)

Module DateFacts.
Import Py Strptime Todo Spec StringFacts.

(** [int] takes the blanks around a number, the no-break space among
    them, but not the separators 0x1C to 0x1F, which [str.strip] takes
    off. *)
Lemma int_blanks :
  int_literal (String "009" (String "160" "7 ")) = Some 7
  /\ int_literal (String "031" "7") = None
  /\ int_literal (String "7" (String "028" "")) = None
  /\ strip (String "031" "7") = "7".
Proof. vm_compute. repeat split. Qed.

Lemma int_of_str_raises (v : string) (e : exn) :
  int (PStr v) = Raise e -> exc_cls e = ValueError.
Proof.
  simpl. unfold int_of_str. destruct (int_literal v); [discriminate|].
  now intros [= <-].
Qed.

Lemma date_raises (y m d : Z) (e : exn) :
  Strptime.date y m d = Raise e -> exc_cls e = ValueError.
Proof.
  unfold Strptime.date.
  repeat match goal with |- context [if ?b then _ else _] => destruct b end;
    try discriminate; now intros [= <-].
Qed.

Lemma strptime_raises (d : string) (e : exn) :
  Strptime.strptime d = Raise e -> exc_cls e = ValueError.
Proof.
  unfold Strptime.strptime.
  destruct (Strptime.matches Strptime.format_regex d) as [|[found rest] ms].
  { now intros [= <-]. }
  destruct (negb (String.eqb rest "")). { now intros [= <-]. }
  destruct (int (PStr (Strptime.group "Y" found))) as [y|e1] eqn:Ey; cbn [res_bind];
    [|intros [= ->]; exact (int_of_str_raises _ _ Ey)].
  destruct (int (PStr (Strptime.group "m" found))) as [m|e1] eqn:Em; cbn [res_bind];
    [|intros [= ->]; exact (int_of_str_raises _ _ Em)].
  destruct (int (PStr (Strptime.group "d" found))) as [dy|e1] eqn:Ed; cbn [res_bind];
    [|intros [= ->]; exact (int_of_str_raises _ _ Ed)].
  apply date_raises.
Qed.

(** The only exception of [_validate_date] is its own [ValueError]. *)
Lemma _validate_date_raises (d : string) (e : exn) :
  _validate_date d = Raise e ->
  e = Exc ValueError ("Date must be in YYYY-MM-DD format, got '" +:+ d +:+ "'").
Proof.
  unfold _validate_date. destruct (Strptime.strptime d) as [v|e1] eqn:E; [discriminate|].
  rewrite (strptime_raises d e1 E). simpl. now intros [= <-].
Qed.

(** What the matcher of [strptime] finds *)

Lemma take_chars_app (pre rest : string) :
  take_chars (String.length pre) (pre +:+ rest) = pre.
Proof.
  induction pre as [|x pre IH]; [now destruct rest|].
  rewrite app_cons. cbn [String.length take_chars]. f_equal. exact IH.
Qed.

Lemma consumed_app (pre rest : string) : consumed (pre +:+ rest) rest = pre.
Proof.
  unfold consumed. rewrite length_append.
  replace (String.length pre + String.length rest - String.length rest)%nat
    with (String.length pre) by lia.
  apply take_chars_app.
Qed.

(** Every match of the matcher takes a prefix that the expression stands
    for. *)
Lemma matches_derives (r : re) (s : string) (caps : list (string * string))
    (rest : string) :
  In (caps, rest) (matches r s) ->
  exists pre, s = pre +:+ rest /\ derives r pre caps.
Proof.
  revert s caps rest. induction r as [p|r1 IH1 r2 IH2|r1 IH1 r2 IH2|name r IH];
    intros s caps rest H; cbn [matches] in H.
  - destruct s as [|c s]; [contradiction|].
    destruct (p c) eqn:Hp; [|contradiction].
    destruct H as [[= <- <-]|[]]. exists (String c ""). split; [reflexivity|].
    now constructor.
  - apply in_flat_map in H as ([c1 mid] & H1 & H2).
    apply in_map_iff in H2 as ([c2 rest'] & [= <- <-] & H2).
    destruct (IH1 _ _ _ H1) as (pre1 & -> & D1).
    destruct (IH2 _ _ _ H2) as (pre2 & E2 & D2). cbn [snd] in E2. rewrite E2.
    exists (pre1 +:+ pre2). split; [now rewrite append_assoc|].
    now constructor.
  - apply in_app_iff in H as [H|H].
    + destruct (IH1 _ _ _ H) as (pre & -> & D). exists pre. split; [reflexivity|].
      now apply derives_alt_l.
    + destruct (IH2 _ _ _ H) as (pre & -> & D). exists pre. split; [reflexivity|].
      now apply derives_alt_r.
  - apply in_map_iff in H as ([c rest'] & [= <- <-] & H).
    destruct (IH _ _ _ H) as (pre & -> & D). cbn [snd fst].
    exists pre. split; [reflexivity|]. rewrite consumed_app. now constructor.
Qed.

Lemma chr_ord (c : ascii) : chr (ord c) = c.
Proof. unfold chr, ord. rewrite N2Z.id. apply ascii_N_embedding. Qed.

Lemma range_enum (lo hi : Z) (c : ascii) :
  (lo <=? ord c) && (ord c <=? hi) = true ->
  In c (List.map chr (seqZ lo (hi - lo + 1))).
Proof.
  intros H. apply andb_true_iff in H as [H1 H2].
  apply Z.leb_le in H1, H2. apply in_map_iff. exists (ord c).
  split; [apply chr_ord|]. apply list_elem_of_In, elem_of_seqZ. lia.
Qed.

Ltac enum H :=
  apply range_enum in H; vm_compute in H;
  repeat (destruct H as [H|H]; [try (symmetry in H); subst|]); [..|contradiction].

Lemma digit_facts (c : ascii) :
  is_digit c = true ->
  is_int_space c = false /\ Ascii.eqb c "+" = false /\ Ascii.eqb c "-" = false
  /\ 0 <= digit_value c <= 9.
Proof.
  intros H. unfold is_digit in H. enum H; vm_compute; repeat split; congruence.
Qed.

Ltac invert H := inversion H; subst; clear H.

Lemma mem_In (t : string) (l : list string) : mem t l = true <-> In t l.
Proof.
  unfold mem. rewrite existsb_exists. split.
  - intros (x & Hx & E). apply String.eqb_eq in E. now subst.
  - intros H. exists t. split; [exact H | apply String.eqb_refl].
Qed.

Lemma derives_digit (t : string) (c : list (string * string)) :
  derives digit t c -> exists ch, t = String ch "" /\ is_digit ch = true /\ c = [].
Proof. intros H. invert H. now eexists. Qed.

Lemma derives_lit (x : ascii) (t : string) (c : list (string * string)) :
  derives (lit x) t c -> t = String x "" /\ c = [].
Proof.
  intros H. invert H.
  match goal with H : Ascii.eqb _ _ = true |- _ => apply Ascii.eqb_eq in H; subst end.
  now split.
Qed.

Lemma derives_range (lo hi : ascii) (t : string) (c : list (string * string)) :
  derives (range lo hi) t c ->
  exists ch, t = String ch "" /\ (ord lo <=? ord ch) && (ord ch <=? ord hi) = true /\ c = [].
Proof. intros H. invert H. now eexists. Qed.

Ltac invert_regex :=
  repeat match goal with
         | H : derives (Seq _ _) _ _ |- _ => invert H
         | H : derives (Alt _ _) _ _ |- _ => invert H
         | H : derives (Group _ _) _ _ |- _ => invert H
         | H : derives digit _ _ |- _ =>
             apply derives_digit in H as (? & -> & H & ->)
         | H : derives (lit _) _ _ |- _ => apply derives_lit in H as [-> ->]
         | H : derives (range _ _) _ _ |- _ =>
             apply derives_range in H as (? & -> & H & ->)
         end.

Lemma derives_Y (t : string) (c : list (string * string)) :
  derives re_Y t c -> year_text t = true /\ c = [("Y", t)].
Proof.
  intros H. unfold re_Y in H. invert_regex.
  split; [|reflexivity]. cbv beta iota delta [String.append year_text forallb].
  repeat match goal with H : is_digit _ = true |- _ => rewrite H; clear H end.
  reflexivity.
Qed.

Lemma derives_m (t : string) (c : list (string * string)) :
  derives re_m t c -> mem t month_texts = true /\ c = [("m", t)].
Proof.
  intros H. unfold re_m in H. invert_regex;
    repeat match goal with
           | H : (_ <=? ord _) && _ = true |- _ => enum H
           end; split; reflexivity.
Qed.

Lemma derives_d (t : string) (c : list (string * string)) :
  derives re_d t c -> mem t day_texts = true /\ c = [("d", t)].
Proof.
  intros H. unfold re_d in H. invert_regex;
    repeat match goal with
           | H : is_digit _ = true |- _ => unfold is_digit in H
           | H : (_ <=? ord _) && _ = true |- _ => enum H
           end; split; reflexivity.
Qed.

(** A text that the whole expression stands for is a year, a month and a
    day in their texts, with hyphens between. *)
Lemma derives_format (s : string) (c : list (string * string)) :
  derives format_regex s c ->
  exists yt mt dt,
    year_text yt = true /\ mem mt month_texts = true /\ mem dt day_texts = true
    /\ s = yt +:+ "-" +:+ mt +:+ "-" +:+ dt.
Proof.
  intros H. unfold format_regex, re_tail in H.
  repeat match goal with
         | H : derives (Seq _ _) _ _ |- _ => invert H
         | H : derives re_Y _ _ |- _ => apply derives_Y in H as [? _]
         | H : derives re_m _ _ |- _ => apply derives_m in H as [? _]
         | H : derives re_d _ _ |- _ => apply derives_d in H as [? _]
         | H : derives (lit _) _ _ |- _ => apply derives_lit in H as [-> _]
         end.
  eexists _, _, _. repeat split; eassumption.
Qed.

Lemma matches_Y (yt rest : string) :
  year_text yt = true -> matches re_Y (yt +:+ rest) = [([("Y", yt)], rest)].
Proof.
  destruct yt as [|a [|b [|c [|d [|e yt]]]]]; try discriminate.
  cbn [year_text forallb]. rewrite !andb_true_iff. intros (Ha & Hb & Hc & Hd & _).
  unfold re_Y, digit. cbn [matches].
  set (text := String a (String b (String c (String d "")))).
  change (text +:+ rest) with (String a (String b (String c (String d rest)))).
  cbn [matches flat_map List.map app fst snd]. rewrite Ha.
  cbn [matches flat_map List.map app fst snd]. rewrite Hb.
  cbn [matches flat_map List.map app fst snd]. rewrite Hc.
  cbn [matches flat_map List.map app fst snd]. rewrite Hd.
  cbn [matches flat_map List.map app fst snd].
  change (String a (String b (String c (String d rest)))) with (text +:+ rest).
  now rewrite consumed_app.
Qed.

(** The value [int] gives a digit is the digit it is. *)
Lemma digit_of_value (c : ascii) :
  is_digit c = true -> digit_of c = Some (digit_value c).
Proof. intros H. unfold is_digit in H. enum H; reflexivity. Qed.

Lemma int_literal_year (yt : string) :
  year_text yt = true -> int_literal yt = Some (number yt) /\ 0 <= number yt <= 9999.
Proof.
  destruct yt as [|a [|b [|c [|d [|e yt]]]]]; try discriminate.
  cbn [year_text forallb]. rewrite !andb_true_iff. intros (Ha & Hb & Hc & Hd & _).
  destruct (digit_facts a Ha) as (Sa & Pa & Ma & Va).
  destruct (digit_facts b Hb) as (_ & _ & _ & Vb).
  destruct (digit_facts c Hc) as (_ & _ & _ & Vc).
  destruct (digit_facts d Hd) as (Sd & _ & _ & Vd).
  unfold int_literal, int_strip. cbn [int_lstrip]. rewrite Sa. cbn [int_rstrip]. rewrite Sd.
  rewrite Pa, Ma. cbn [digits_value]. rewrite Ha, Hb, Hc, Hd.
  unfold number. cbn [decimal].
  rewrite (digit_of_value a Ha), (digit_of_value b Hb), (digit_of_value c Hc),
    (digit_of_value d Hd).
  split; [reflexivity|]. lia.
Qed.

(** The leap years of [datetime] are those of the calendar. *)
Lemma is_leap_leap_year (y : Z) : is_leap y = leap_year y.
Proof.
  unfold is_leap, leap_year.
  pose proof (Z.div_mod y 400 ltac:(lia)). pose proof (Z.mod_pos_bound y 400 ltac:(lia)).
  pose proof (Z.div_mod y 100 ltac:(lia)). pose proof (Z.mod_pos_bound y 100 ltac:(lia)).
  pose proof (Z.div_mod y 4 ltac:(lia)). pose proof (Z.mod_pos_bound y 4 ltac:(lia)).
  destruct (Z.eqb_spec (y mod 400) 0), (Z.eqb_spec (y mod 100) 0),
    (Z.eqb_spec (y mod 4) 0); cbn [negb andb orb]; try reflexivity; exfalso; lia.
Qed.

(** A month of [datetime] has the days the calendar gives it, and [date]
    checks the month and the day against them. *)
Lemma real_date_model (y m d : Z) :
  real_date y m d
  = (1 <=? y) && (1 <=? m) && (m <=? 12) && (1 <=? d) && (d <=? days_in_month y m).
Proof.
  unfold real_date, month_length, days_in_month. rewrite is_leap_leap_year.
  cbn [existsb].
  repeat match goal with
    | |- context [Z.eqb m ?k] => destruct (Z.eqb_spec m k); [subst m|]
    end; cbn [orb andb]; try (now rewrite ?andb_true_r);
    try (destruct (1 <=? y), (1 <=? d); reflexivity).
  destruct (Z.leb_spec 1 m), (Z.leb_spec m 12); try lia;
    cbn [andb]; rewrite ?andb_false_r; cbn [andb];
    destruct (Z.leb_spec 1 d), (Z.leb_spec d 0); try lia;
    rewrite ?andb_false_r; reflexivity.
Qed.

(** The first match of what follows the year, for each way of writing the
    month and the day. *)
Lemma tail_table :
  forallb (fun mt =>
    forallb (fun dt => head_is mt dt (matches re_tail ("-" +:+ mt +:+ "-" +:+ dt)))
      day_texts) month_texts = true.
Proof. vm_compute. reflexivity. Qed.

Lemma texts_table :
  forallb (fun mt => match int_literal mt with
                     | Some m => (m =? number mt) && (1 <=? m) && (m <=? 12)
                     | None => false
                     end)
    month_texts
  && forallb (fun dt => match int_literal dt with
                        | Some d => (d =? number dt) && (1 <=? d) && (d <=? 31)
                        | None => false
                        end)
       day_texts = true.
Proof. vm_compute. reflexivity. Qed.

Lemma forallb_mem (f : string -> bool) (l : list string) (t : string) :
  forallb f l = true -> mem t l = true -> f t = true.
Proof.
  intros Hall Hin. apply mem_In in Hin. rewrite forallb_forall in Hall. now apply Hall.
Qed.

(** On a text of that shape, the check says whether the date is one of the
    calendar. *)
Lemma accepts_shape (yt mt dt : string) :
  year_text yt = true -> mem mt month_texts = true -> mem dt day_texts = true ->
  accepts (yt +:+ "-" +:+ mt +:+ "-" +:+ dt)
  = real_date (number yt) (number mt) (number dt).
Proof.
  intros Hy Hm Hd.
  pose proof (forallb_mem _ _ dt (forallb_mem _ _ mt tail_table Hm) Hd) as Htail.
  pose proof texts_table as Htexts. apply andb_true_iff in Htexts as [Hms Hds].
  pose proof (forallb_mem _ _ mt Hms Hm) as Hmn.
  pose proof (forallb_mem _ _ dt Hds Hd) as Hdn. cbv beta in Htail, Hmn, Hdn.
  destruct (int_literal_year yt Hy) as (Ey & Hyr).
  unfold accepts, _validate_date, strptime, format_regex. cbn [matches].
  rewrite (matches_Y yt _ Hy). cbn [flat_map fst snd]. rewrite app_nil_r.
  destruct (matches re_tail ("-" +:+ mt +:+ "-" +:+ dt)) as [|[caps rest] ms];
    [discriminate|].
  cbn [head_is] in Htail. rewrite !andb_true_iff in Htail.
  destruct Htail as [[Hr Hgm] Hgd].
  apply String.eqb_eq in Hr, Hgm, Hgd. subst rest.
  cbn [List.map fst snd app group]. 
  change (String.eqb "Y" "Y") with true. change (String.eqb "Y" "m") with false.
  change (String.eqb "Y" "d") with false. cbv iota. rewrite Hgm, Hgd.
  change (negb (String.eqb "" "")) with false. cbv iota.
  rewrite real_date_model. cbn [int int_of_str]. unfold int_of_str. rewrite Ey.
  destruct (int_literal mt) as [m|]; [|discriminate].
  destruct (int_literal dt) as [d|]; [|discriminate].
  rewrite !andb_true_iff in Hmn, Hdn.
  destruct Hmn as [[Hm0 Hm1] Hm2]. destruct Hdn as [[Hd0 Hd1] Hd2].
  apply Z.eqb_eq in Hm0, Hd0. subst m d. set (y := number yt) in *.
  cbn [res_bind]. unfold date.
  rewrite Hm1, Hm2, Hd1. cbn [andb negb].
  destruct (Z.leb_spec 1 y), (Z.leb_spec y 9999); try lia; cbn [andb negb];
    [|reflexivity].
  destruct (number dt <=? days_in_month y (number mt)); reflexivity.
Qed.

Lemma head_In {A} (x : A) (l l' : list A) : l = x :: l' -> In x l.
Proof. intros ->. now left. Qed.

(** The texts that [_validate_date] accepts. *)
Lemma validate_date_accepts_iff (s : string) :
  accepts s = true <-> lenient_date s.
Proof.
  split.
  - intros H.
    assert (exists yt mt dt,
               year_text yt = true /\ mem mt month_texts = true
               /\ mem dt day_texts = true /\ s = yt +:+ "-" +:+ mt +:+ "-" +:+ dt)
      as (yt & mt & dt & Hy & Hm & Hd & E).
    { unfold accepts, _validate_date, strptime in H.
      destruct (matches format_regex s) as [|[found rest] ms] eqn:Em; [discriminate|].
      destruct (String.eqb_spec rest "") as [->|Hne]; [|discriminate].
      apply head_In in Em. apply matches_derives in Em as (pre & E & D).
      rewrite append_nil_r in E. subst pre.
      exact (derives_format s found D). }
    exists yt, mt, dt. repeat split; try assumption.
    subst s. now rewrite <- accepts_shape.
  - intros (yt & mt & dt & Hy & Hm & Hd & -> & Hr).
    now rewrite accepts_shape.
Qed.

(** C2 (the code departs from it): the check accepts "2025-1-5" and
    "2025-01- 5", which are not in the format of four, two and two digits;
    it does refuse "2025-02-30" and "2025-13-40", and it accepts
    "2025-12-05". *)
Theorem validate_date_accepts_short_fields :
  _validate_date "2025-1-5" = Ret tt /\ iso_format "2025-1-5" = false
  /\ _validate_date "2025-01- 5" = Ret tt /\ iso_format "2025-01- 5" = false
  /\ accepts "2025-02-30" = false /\ accepts "2025-13-40" = false
  /\ _validate_date "2025-12-05" = Ret tt /\ iso_format "2025-12-05" = true.
Proof. vm_compute. repeat split. Qed.

End DateFacts.

(** *** The store *)

Module TodoFacts.
Import Py Todo Spec StringFacts DateFacts.
Local Open Scope py_scope.

(** Runs the monadic plumbing of a method applied to a state. *)
Ltac run :=
  cbv beta iota zeta delta
    [bind ret raise lift try_except when get_tasks get_path set_tasks set_world
     get_disk set_disk exists_ read_json write_json os_replace print_stderr
     assign deref now];
  cbn [self world path tasks disk stderr clock ticks fst snd].

Lemma tmp_fresh (p : string) : p +:+ ".tmp" <> p.
Proof.
  intros H. apply (f_equal String.length) in H.
  rewrite length_append in H. simpl in H. lia.
Qed.

(** [_save] leaves the object alone, and succeeds exactly when neither of
    the two paths it writes is a directory. *)
Lemma tmp_nonempty (p : string) : String.eqb (p +:+ ".tmp") "" = false.
Proof.
  destruct (String.eqb_spec (p +:+ ".tmp") "") as [H|]; [|reflexivity].
  apply (f_equal String.length) in H. rewrite length_append in H. simpl in H. lia.
Qed.

Lemma _save_run (s : State) :
  exists r w,
    _save s = (r, mkState (self s) w) /\ saved s r tt
    /\ stderr w = stderr (world s) /\ ticks w = ticks (world s)
    /\ clock w = clock (world s).
Proof.
  destruct s as [[p l] [d err ck tk]].
  unfold _save, saved, can_save. run. rewrite (tmp_nonempty p). run.
  destruct (d !! (p +:+ ".tmp")) as [[| |v0]|] eqn:Etmp; run;
    cbn [is_dir negb andb]; rewrite ?andb_false_r;
    try (eexists _, _; repeat split; reflexivity);
    rewrite lookup_insert_eq; run;
    (destruct (String.eqb p "") eqn:Ep0; run; cbn [negb andb];
     [eexists _, _; repeat split; reflexivity|]);
    rewrite (lookup_insert_ne _ _ _ _ (tmp_fresh p));
    destruct (d !! p) as [[| |]|] eqn:Ep; run; cbn [is_dir negb andb];
    eexists _, _; repeat split; reflexivity.
Qed.

(** *** [add] *)

(** A call of [add] whose date check passes appends one task, numbered by
    [_next_id], and returns it unless the save fails. *)
Lemma add_run (title_ description_ : string) (due_ : option string)
    (tags_ : option (list string)) (s : State) :
  match due_ with
  | Some d => d = "" \/ _validate_date d = Ret tt
  | None => True
  end ->
  exists r w,
    let t := mkTask (_next_id (tasks (self s))) title_ description_
               (clock (world s) (ticks (world s))) (due_value due_)
               (List.map PStr (match tags_ with Some l => l | None => [] end)) false in
    add title_ description_ due_ tags_ s
      = (r, mkState (mkDB (path (self s)) (tasks (self s) ++ [t])) w)
    /\ saved s r t.
Proof.
  intros Hdue. destruct s as [[p l] [d err ck tk]].
  assert (Hpre : forall (k : unit -> M Task) s0,
             bind (match due_ with
                   | Some d => if negb (String.eqb d "") then lift (_validate_date d) else ret tt
                   | None => ret tt
                   end) k s0 = k tt s0).
  { intros k s0. destruct due_ as [d0|]; [|reflexivity].
    destruct (String.eqb_spec d0 "") as [->|Hne]; [reflexivity|].
    destruct Hdue as [->|Hv]; [congruence|]. simpl. unfold bind, lift. now rewrite Hv. }
  unfold add. rewrite Hpre. run.
  match goal with |- context [_save ?S] =>
    destruct (_save_run S) as (r & w & E & Hs & _); rewrite E end.
  cbn [self world path tasks] in *.
  assert (Htags : match tags_ with Some (x :: l0) => x :: l0 | _ => [] end
                  = match tags_ with Some l0 => l0 | None => [] end).
  { destruct tags_ as [[|]|]; reflexivity. }
  rewrite Htags. unfold saved, can_save, due_value in *. cbn in Hs |- *.
  destruct r as [[]|e]; eexists _, w; (split; [reflexivity|]); intuition.
Qed.

(** A date that the check refuses makes [add] raise before it touches
    anything: the object, the disk and the clock are as they were. *)
Lemma add_invalid_date (title_ description_ d : string)
    (tags_ : option (list string)) (e : exn) (s : State) :
  d <> "" -> _validate_date d = Raise e ->
  add title_ description_ (Some d) tags_ s = (Raise e, s).
Proof.
  intros Hne Hv. unfold add.
  destruct (String.eqb_spec d "") as [->|_]; [congruence|].
  simpl. unfold bind, lift. now rewrite Hv.
Qed.

(** C10: [add] called with the empty string as the date does no date
    check; it appends a task whose [due] field is that empty string (not
    [None]), and returns it, the only possible failure being the [IOError]
    of the save. *)
Theorem add_empty_due_kept (title_ description_ : string)
    (tags_ : option (list string)) (s : State) :
  exists r s' t,
    add title_ description_ (Some "") tags_ s = (r, s')
    /\ tasks (self s') = tasks (self s) ++ [t]
    /\ due t = PStr "" /\ id t = _next_id (tasks (self s))
    /\ title t = title_ /\ description t = description_
    /\ saved s r t.
Proof.
  destruct (add_run title_ description_ (Some "") tags_ s) as (r & w & E & Hs).
  { now left. }
  eexists r, _, _. split; [exact E|]. cbn. repeat split; try reflexivity. exact Hs.
Qed.

(** *** [_next_id] *)

Lemma fold_max_ge (xs : list Z) (a : Z) :
  a <= List.fold_left Z.max xs a /\ Forall (fun x => x <= List.fold_left Z.max xs a) xs.
Proof.
  revert a. induction xs as [|x xs IH]; intros a; simpl.
  - split; [lia | constructor].
  - destruct (IH (Z.max a x)) as [H1 H2]. split; [lia|].
    constructor; [lia | exact H2].
Qed.

Lemma fold_max_in (xs : list Z) (a : Z) :
  List.fold_left Z.max xs a ∈ a :: xs.
Proof.
  revert a. induction xs as [|x xs IH]; intros a; simpl.
  - apply elem_of_cons. now left.
  - generalize (IH (Z.max a x)).
    destruct (Z.max_spec a x) as [[_ E]|[_ E]]; rewrite E;
      rewrite !elem_of_cons; tauto.
Qed.

Lemma next_id_is_max (l : list Task) : next_id_spec l.
Proof.
  destruct l as [|t l]; [reflexivity|].
  unfold next_id_spec, is_max, _next_id, ids.
  replace (List.fold_left Z.max (List.map id l) (id t) + 1 - 1)
    with (List.fold_left Z.max (List.map id l) (id t)) by lia.
  split; [apply fold_max_in|].
  destruct (fold_max_ge (List.map id l) (id t)) as [H1 H2].
  simpl. constructor; assumption.
Qed.

Lemma next_id_above (l : list Task) : Forall (fun u => id u < _next_id l) l.
Proof.
  pose proof (next_id_is_max l) as H. destruct l as [|t l]; [constructor|].
  destruct H as [_ H]. unfold ids in H. rewrite Forall_forall in H.
  apply Forall_forall. intros u Hu. specialize (H (id u)).
  assert (id u ∈ List.map id (t :: l)) as Hin by (apply (list_elem_of_fmap_2 id); exact Hu).
  specialize (H Hin). lia.
Qed.

Lemma ids_snoc_NoDup (l : list Task) (t : Task) :
  Forall (fun u => id u < id t) l -> NoDup (ids l) -> NoDup (ids (l ++ [t])).
Proof.
  intros Hlt Hnd. unfold ids in *. change List.map with (@fmap list _) in *.
  rewrite fmap_app. apply NoDup_app. split; [exact Hnd|]. split.
  - intros x Hx Hx'. apply list_elem_of_fmap in Hx as (u & -> & Hu).
    rewrite Forall_forall in Hlt. specialize (Hlt u Hu).
    simpl in Hx'. apply list_elem_of_singleton in Hx'. lia.
  - simpl. apply NoDup_singleton.
Qed.

(** One call of [add]: nothing changes and it raises, or one task with the
    next id is appended and that task is what a successful call returns. *)
Lemma add_step (c : add_call) (s : State) :
  exists r s',
    do_add c s = (r, s')
    /\ ((tasks (self s') = tasks (self s) /\ exists e, r = Raise e)
        \/ exists t, tasks (self s') = tasks (self s) ++ [t]
                     /\ id t = _next_id (tasks (self s)) /\ saved s r t).
Proof.
  destruct c as [ti de du tg]. unfold do_add. cbn [call_title call_description call_due call_tags].
  assert (Hcase : match du with Some d => d = "" \/ _validate_date d = Ret tt | None => True end
                  \/ exists d e, du = Some d /\ d <> "" /\ _validate_date d = Raise e).
  { destruct du as [d|]; [|now left].
    destruct (String.eqb_spec d "") as [->|Hne]; [left; now left|].
    destruct (_validate_date d) as [[]|e] eqn:Ev; [left; now right|].
    right. now exists d, e. }
  destruct Hcase as [Hok|(d & e & -> & Hne & Hv)].
  - destruct (add_run ti de du tg s Hok) as (r & w & E & Hs). cbv zeta in E.
    eexists r, _. split; [exact E|]. right. eexists. cbn. repeat split. exact Hs.
  - rewrite (add_invalid_date ti de d tg e s Hne Hv).
    eexists _, _. split; [reflexivity|]. left. split; [reflexivity|]. now exists e.
Qed.

(** C6: [_next_id] is 1 on the empty collection and otherwise one more than
    the greatest id present; along every sequence of [add] calls, the id a
    call returns is strictly greater than every id the store held when that
    call was made, and ids that were pairwise distinct stay so. *)
Theorem next_id_fresh_and_unique (calls : list add_call) (s : State) :
  NoDup (ids (tasks (self s))) ->
  (forall l, next_id_spec l)
  /\ Forall fresh_step (fst (add_trace calls s))
  /\ NoDup (ids (tasks (self (snd (add_trace calls s))))).
Proof.
  intros Hnd. split; [exact next_id_is_max|].
  revert s Hnd. induction calls as [|c calls IH]; intros s Hnd.
  - split; [constructor | exact Hnd].
  - simpl. destruct (add_step c s) as (r & s1 & E & Hcase). rewrite E.
    destruct (add_trace calls s1) as [tr s2] eqn:Etr.
    assert (Hnd1 : NoDup (ids (tasks (self s1)))).
    { destruct Hcase as [[-> _]|(t & -> & Hid & _)]; [exact Hnd|].
      apply ids_snoc_NoDup; [|exact Hnd]. rewrite Hid. apply next_id_above. }
    specialize (IH s1 Hnd1). rewrite Etr in IH. destruct IH as [IH1 IH2].
    cbn [fst snd]. split; [|exact IH2]. constructor; [|exact IH1].
    unfold fresh_step. cbn [fst snd].
    destruct Hcase as [[_ (e & ->)]|(t & _ & Hid & Hs)]; [exact I|].
    destruct r as [t'|e]; [|exact I]. destruct Hs as [-> _].
    rewrite Hid. apply next_id_above.
Qed.

(** *** [edit] *)

Lemma index_of_lookup (i : Z) (l : list Task) (k : nat) :
  index_of i l = Some k -> exists t, l !! k = Some t /\ id t = i.
Proof.
  revert k. induction l as [|u l IH]; intros k; simpl; [discriminate|].
  destruct (Z.eqb_spec (id u) i) as [E|_].
  - intros [= <-]. now exists u.
  - destruct (index_of i l) as [k'|]; [|discriminate].
    intros [= <-]. exact (IH k' eq_refl).
Qed.

Lemma index_of_present (i : Z) (l : list Task) :
  i ∈ ids l -> exists k, index_of i l = Some k.
Proof.
  unfold ids. induction l as [|u l IH]; simpl.
  - intros H. apply elem_of_nil in H. contradiction.
  - intros H. destruct (Z.eqb_spec (id u) i) as [E|Hne]; [now exists 0%nat|].
    apply elem_of_cons in H as [H|H]; [congruence|].
    destruct (IH H) as [k ->]. now exists (S k).
Qed.

Lemma alter_as_insert {A} (f : A -> A) (l : list A) (k : nat) (x : A) :
  l !! k = Some x -> alter f k l = <[k := f x]> l.
Proof.
  intros H. rewrite list_insert_alter. apply list_alter_ext; [|reflexivity].
  intros y Hy. congruence.
Qed.

Lemma find_by_id_run (i : Z) (s : State) (k : nat) :
  index_of i (tasks (self s)) = Some k ->
  exists t, tasks (self s) !! k = Some t /\ id t = i
            /\ find_by_id i s = (Ret (k, t), s).
Proof.
  intros H. destruct (index_of_lookup _ _ _ H) as (t & Hk & Hid).
  exists t. repeat split; try assumption.
  unfold find_by_id. run. rewrite H, Hk. reflexivity.
Qed.

(** What [edit] does to a store that holds the id: a refused date stops it
    after the title and the description were assigned; otherwise the first
    task with the id becomes [edited], every other task is as before, and
    that task is returned unless the save fails. *)
Lemma edit_run (i : Z) (title_ description_ due_ : option string)
    (tags_ : option (list string)) (s : State) (k : nat) (t : Task) :
  index_of i (tasks (self s)) = Some k -> tasks (self s) !! k = Some t ->
  exists r w,
    edit i title_ description_ due_ tags_ s
      = (r, mkState (mkDB (path (self s))
                       (<[k := if bad_date due_
                               then edited title_ description_ None None t
                               else edited title_ description_ due_ tags_ t]>
                          (tasks (self s)))) w)
    /\ if bad_date due_ then exists e, r = Raise e /\ exc_cls e = ValueError
       else saved s r (edited title_ description_ due_ tags_ t).
Proof.
  intros Hk Ht. destruct (find_by_id_run i s k Hk) as (t' & Ht' & _ & Hf).
  assert (t' = t) by congruence. subst t'.
  destruct s as [[p l] [d err ck tk]]. cbn [self tasks path world] in *.
  unfold edit. unfold bind at 1. rewrite Hf. cbn [fst snd].
  assert (Hins : forall x : Task, <[k := x]> l !! k = Some x).
  { intros x. apply list_lookup_insert_eq. eapply lookup_lt_Some, Ht. }
  unfold bad_date.
  destruct due_ as [dd|]; [destruct (String.eqb_spec dd "") as [->|Hne]|];
    [ | destruct (_validate_date dd) as [[]|e] eqn:Ev;
        [|apply _validate_date_raises in Ev as Ee] | ];
    destruct title_ as [ti|], description_ as [de|], tags_ as [tg|];
    run; rewrite ?String.eqb_refl;
    try rewrite (proj2 (String.eqb_neq _ _) Hne);
    cbn [negb andb]; run; rewrite ?Ev; run;
    rewrite ?list_alter_alter_eq;
    try (match goal with |- context [_save ?S] =>
           destruct (_save_run S) as (r & w & E & Hs & _); rewrite E end);
    try (rewrite (alter_as_insert _ _ _ _ Ht));
    unfold saved, can_save, edited in *; cbn in *;
    rewrite ?(proj2 (String.eqb_neq _ _) Hne);
    first [ destruct r as [[]|e']; destruct t; cbn in *;
            rewrite ?Hins, ?Ht, ?(list_insert_id _ _ _ Ht); cbn;
            eexists _, w; (split; [reflexivity|]); intuition
          | subst e; destruct t; cbn in *; rewrite ?(list_insert_id _ _ _ Ht);
            eexists _, _; (split; [reflexivity|]); eexists; split; reflexivity ].
Qed.

(** C3: on a store that holds the id, [edit] changes the first task with
    that id and no other; a field for which nothing is given keeps its
    value; a date given as the empty string clears the date, any other date
    is checked and set, and a refused one raises [ValueError] with the
    fields that were not given still untouched; tags given, the empty list
    too, replace the old ones; and an [edit] with nothing given leaves the
    whole collection as it was. *)
Theorem edit_fields (i : Z) (title_ description_ due_ : option string)
    (tags_ : option (list string)) (s : State) :
  i ∈ ids (tasks (self s)) ->
  exists k t r s',
    index_of i (tasks (self s)) = Some k
    /\ tasks (self s) !! k = Some t /\ id t = i
    /\ edit i title_ description_ due_ tags_ s = (r, s')
    /\ (if bad_date due_
        then tasks (self s')
               = <[k := edited title_ description_ None None t]> (tasks (self s))
             /\ exists e, r = Raise e /\ exc_cls e = ValueError
        else tasks (self s')
               = <[k := edited title_ description_ due_ tags_ t]> (tasks (self s))
             /\ saved s r (edited title_ description_ due_ tags_ t))
    /\ tasks (self (snd (edit i None None None None s))) = tasks (self s).
Proof.
  intros Hin. destruct (index_of_present i _ Hin) as [k Hk].
  destruct (index_of_lookup i _ k Hk) as (t & Ht & Hid).
  destruct (edit_run i title_ description_ due_ tags_ s k t Hk Ht) as (r & w & E & Hr).
  destruct (edit_run i None None None None s k t Hk Ht) as (r0 & w0 & E0 & _).
  exists k, t, r. eexists. split; [exact Hk|]. split; [exact Ht|]. split; [exact Hid|].
  split; [exact E|]. split.
  - cbn [self tasks]. destruct (bad_date due_); split; try reflexivity; exact Hr.
  - rewrite E0. cbn. apply list_insert_id. rewrite Ht. now destruct t.
Qed.

(** C1 (the code departs from it): on the sample store, [edit] called with
    a new title and the date "2025-13-40" raises [ValueError], but the
    title of the task has already been replaced, so the collection is not
    what it was before the call. *)
Theorem edit_invalid_date_keeps_new_title :
  let call := edit 1 (Some "Buy bread") None (Some "2025-13-40") None sample_state in
  (exists msg, fst call = Raise (Exc ValueError msg))
  /\ tasks (self (snd call)) = [set_title "Buy bread" sample_task]
  /\ tasks (self (snd call)) <> tasks (self sample_state)
  /\ disk (world (snd call)) = disk (world sample_state).
Proof.
  cbv zeta. split; [eexists; vm_compute; reflexivity|].
  split; [vm_compute; reflexivity|]. split; [|reflexivity].
  vm_compute. discriminate.
Qed.

(** The part of C1 that the code keeps, for [edit]: when neither a title
    nor a description comes with the refused date, the collection is
    unchanged. *)
Lemma edit_invalid_date_alone (i : Z) (d : string) (tags_ : option (list string))
    (s : State) :
  i ∈ ids (tasks (self s)) -> bad_date (Some d) = true ->
  exists e s',
    edit i None None (Some d) tags_ s = (Raise e, s')
    /\ exc_cls e = ValueError /\ tasks (self s') = tasks (self s).
Proof.
  intros Hin Hbad. destruct (index_of_present i _ Hin) as [k Hk].
  destruct (index_of_lookup i _ k Hk) as (t & Ht & Hid).
  destruct (edit_run i None None (Some d) tags_ s k t Hk Ht) as (r & w & E & Hr).
  rewrite Hbad in E, Hr. destruct Hr as (e & -> & Hc).
  eexists e, _. split; [exact E|]. split; [exact Hc|].
  cbn. apply list_insert_id. rewrite Ht. now destruct t.
Qed.

(** *** [Task.from_dict] *)

Lemma tick_0 (s : State) : tick_n 0 s = s.
Proof. now destruct s as [? []]. Qed.

Lemma tick_tick (n m : nat) (s : State) : tick_n n (tick_n m s) = tick_n (n + m) s.
Proof. unfold tick_n. cbn. now rewrite Nat.add_assoc. Qed.

(** A well-formed record is rebuilt, at the cost of one reading of the
    clock. *)
Lemma from_dict_ok (d : pyval) (s : State) :
  well_formed d = true ->
  exists t,
    from_dict d s = (Ret t, tick_n 1 s)
    /\ rebuilt (clock (world s) (ticks (world s))) d t.
Proof.
  destruct d as [| | | |l|items]; try discriminate. unfold well_formed, rebuilt, field.
  destruct (assoc "id" items) as [vid|] eqn:Eid; [|discriminate].
  destruct (int vid) as [n|] eqn:En; [|discriminate].
  destruct (assoc "title" items) as [vt|] eqn:Et; [|discriminate].
  cbn [andb]. intros Htags.
  assert (Hl : exists l, list_of (match assoc "tags" items with
                                  | Some v => v | None => PList [] end) = Ret l).
  { destruct (assoc "tags" items) as [[]|]; try discriminate; eexists; reflexivity. }
  destruct Hl as [l Hl].
  unfold from_dict. run. cbn [getitem get]. rewrite Eid, En, Et.
  destruct (assoc "description" items), (assoc "created_at" items),
    (assoc "due" items), (assoc "tags" items), (assoc "done" items);
    cbn [fst snd self world disk stderr clock ticks] in *; rewrite Hl;
    eexists; (split; [reflexivity|]); cbn; repeat split; assumption.
Qed.

(** Any other value makes [from_dict] raise [ValueError]; the object, the
    disk and the error stream are as before. *)
Lemma from_dict_bad (d : pyval) (s : State) :
  well_formed d = false ->
  exists msg n,
    from_dict d s = (Raise (Exc ValueError ("Invalid task data: " +:+ msg)), tick_n n s).
Proof.
  intros Hwf. destruct s as [db [dk err ck tk]]. unfold from_dict.
  destruct d as [| | | |l|items];
    try (run; cbn [getitem]; eexists _, 0%nat; reflexivity).
  unfold well_formed in Hwf. run. cbn [getitem get].
  destruct (assoc "id" items) as [vid|] eqn:Eid;
    [|eexists _, 0%nat; reflexivity].
  destruct (int vid) as [n|] eqn:En; [|eexists _, 0%nat; reflexivity].
  destruct (assoc "title" items) as [vt|] eqn:Et;
    [|eexists _, 0%nat; reflexivity].
  cbn [andb] in Hwf.
  destruct (assoc "tags" items) as [v|]; [|discriminate].
  destruct (assoc "description" items), (assoc "created_at" items), (assoc "due" items);
    destruct v; try discriminate; cbn; eexists _, 1%nat; reflexivity.
Qed.

Lemma from_dict_to_serializable (t : Task) (s : State) :
  from_dict (to_serializable t) s = (Ret t, tick_n 1 s).
Proof. destruct t, s as [db [dk err ck tk]]. reflexivity. Qed.

Lemma mapM_from_dict_ok (items : list pyval) (s : State) :
  forallb well_formed items = true ->
  exists l,
    mapM from_dict items s = (Ret l, tick_n (length items) s)
    /\ Forall2 (fun d t => exists stamp, rebuilt stamp d t) items l.
Proof.
  revert s. induction items as [|d items IH]; intros s H.
  - exists []. rewrite tick_0. split; [reflexivity | constructor].
  - simpl in H. apply andb_true_iff in H as [Hd Hrest].
    destruct (from_dict_ok d s Hd) as (t & E & Ht).
    destruct (IH (tick_n 1 s) Hrest) as (l & El & Hl).
    exists (t :: l). split.
    + cbn [mapM]. unfold bind at 1. rewrite E. unfold bind at 1. rewrite El.
      unfold ret. rewrite tick_tick. do 2 f_equal. simpl. lia.
    + constructor; [eexists; exact Ht | exact Hl].
Qed.

Lemma mapM_from_dict_bad (items : list pyval) (s : State) :
  forallb well_formed items = false ->
  exists msg n,
    mapM from_dict items s
      = (Raise (Exc ValueError ("Invalid task data: " +:+ msg)), tick_n n s).
Proof.
  revert s. induction items as [|d items IH]; intros s H; [discriminate|].
  simpl in H. cbn [mapM]. unfold bind at 1.
  destruct (well_formed d) eqn:Hd.
  - destruct (from_dict_ok d s Hd) as (t & E & _). rewrite E.
    destruct (IH (tick_n 1 s) H) as (msg & n & E'). unfold bind at 1. rewrite E'.
    rewrite tick_tick. now exists msg, (n + 1)%nat.
  - destruct (from_dict_bad d s Hd) as (msg & n & E). rewrite E. now exists msg, n.
Qed.

Lemma mapM_from_dict_dump (l : list Task) (s : State) :
  mapM from_dict (List.map to_serializable l) s = (Ret l, tick_n (length l) s).
Proof.
  revert s. induction l as [|t l IH]; intros s.
  - now rewrite tick_0.
  - cbn [List.map mapM]. unfold bind at 1. rewrite from_dict_to_serializable.
    unfold bind at 1. rewrite IH. unfold ret. rewrite tick_tick.
    do 2 f_equal. simpl. lia.
Qed.

(** C9 (the code departs from it): [from_dict] copies the items of
    ["tags"] as they are, so a record whose tags are numbers is rebuilt
    with tags that are not text. *)
Theorem from_dict_keeps_tags_that_are_not_text :
  let d := PDict [("id", PInt 1); ("title", PStr "Buy milk");
                  ("tags", PList [PInt 1; PInt 2])] in
  exists t,
    fst (from_dict d sample_state) = Ret t
    /\ tags t = [PInt 1; PInt 2]
    /\ forallb is_text (tags t) = false.
Proof. eexists. vm_compute. repeat split. Qed.

(** *** [export] and [import_file] *)

Lemma export_run (p : string) (s : State) :
  export p s
  = if String.eqb p ""
    then (Raise (Exc IOError ("Failed to export DB: [Errno 2] No such file or directory: "
                                +:+ repr_str p)), s)
    else if is_dir (disk (world s) !! p)
    then (Raise (Exc IOError ("Failed to export DB: [Errno 21] Is a directory: "
                                +:+ repr_str p)), s)
    else (Ret tt,
          mkState (self s)
            (mkWorld (<[p := Json (dump (tasks (self s)))]> (disk (world s)))
               (stderr (world s)) (clock (world s)) (ticks (world s)))).
Proof.
  destruct s as [[q l] [d err ck tk]]. unfold export. run.
  destruct (String.eqb p ""); [reflexivity|].
  destruct (d !! p) as [[| |]|]; reflexivity.
Qed.

Lemma renumber_run (base_id i : Z) (new : list Task) (s : State) :
  exists new',
    renumber base_id i new s
      = (Ret tt, mkState (mkDB (path (self s)) (tasks (self s) ++ new')) (world s))
    /\ Forall2 same_but_id new new'
    /\ ids new' = seqZ (base_id + i) (Z.of_nat (length new)).
Proof.
  revert i s. induction new as [|t new IH]; intros i s.
  - exists []. destruct s as [[q l] w]. cbn. rewrite app_nil_r.
    repeat split. constructor.
  - cbn [renumber]. run.
    match goal with |- context [renumber _ _ _ ?S] =>
      destruct (IH (i + 1) S) as (new' & E & Hsame & Hids) end.
    exists (set_id (base_id + i) t :: new'). rewrite E. cbn [self tasks path world].
    rewrite <- app_assoc. split; [reflexivity|]. split.
    + constructor; [reflexivity | exact Hsame].
    + unfold ids in *. cbn [List.map length]. rewrite Hids.
      rewrite (seqZ_cons (base_id + i)) by lia. cbn [id set_id].
      do 2 f_equal; lia.
Qed.

(** What [import_file] does with a file that holds a list of well-formed
    records: it rebuilds them, replaces the collection or appends them
    under new ids, and saves. *)
Lemma import_run (p : string) (merge : bool) (items : list pyval) (s : State) :
  disk (world s) !! p = Some (Json (PList items)) ->
  forallb well_formed items = true ->
  exists r w l new,
    mapM from_dict items s = (Ret l, tick_n (length items) s)
    /\ Forall2 (fun d t => exists stamp, rebuilt stamp d t) items l
    /\ Forall2 same_but_id l new
    /\ ids new = seqZ (_next_id (tasks (self s))) (Z.of_nat (length l))
    /\ import_file p merge s
        = (r, mkState (mkDB (path (self s))
                         (if merge then tasks (self s) ++ new else l)) w)
    /\ saved s r tt.
Proof.
  intros Hp Hwf. destruct (mapM_from_dict_ok items s Hwf) as (l & El & Hl).
  destruct (renumber_run (_next_id (tasks (self s))) 0 l (tick_n (length items) s))
    as (new & En & Hsame & Hids).
  rewrite Z.add_0_r in Hids.
  assert (exists r w,
    import_file p merge s
      = (r, mkState (mkDB (path (self s))
                       (if merge then tasks (self s) ++ new else l)) w)
    /\ saved s r tt) as (r & w & E & Hs).
  { unfold import_file. run. rewrite Hp.
    rewrite El. destruct s as [[q l0] [d err ck tk]].
    unfold tick_n in *. cbn [self world path tasks disk stderr clock ticks] in *.
    destruct merge; run.
    - rewrite En. cbn [self world path tasks].
      match goal with |- context [_save ?S] =>
        destruct (_save_run S) as (r & w & E & Hs & _); rewrite E end.
      unfold saved, can_save in *. cbn in Hs |- *.
      destruct r as [[]|e]; eexists _, w; (split; [reflexivity|]); intuition.
    - match goal with |- context [_save ?S] =>
        destruct (_save_run S) as (r & w & E & Hs & _); rewrite E end.
      unfold saved, can_save in *. cbn in Hs |- *.
      destruct r as [[]|e]; eexists _, w; (split; [reflexivity|]); intuition. }
  exists r, w, l, new. repeat split; assumption.
Qed.

Lemma dump_well_formed (l : list Task) :
  forallb well_formed (List.map to_serializable l) = true.
Proof.
  induction l as [|t l IH]; [reflexivity|]. cbn [List.map forallb].
  rewrite IH, andb_true_r. now destruct t.
Qed.

(** C5: when [export] to a path succeeds, [import_file] of that path with
    [merge=False], by the same store or by any other store that finds the
    exported file at that path, whatever it held before, gives that store
    the collection that was exported: the same tasks in the same order,
    each with the same id, title, description, creation time, date, tags
    and done flag. The import then returns normally unless its save
    fails. *)
Theorem export_import_roundtrip (p : string) (s s2 : State) :
  fst (export p s) = Ret tt ->
  disk (world s2) !! p = disk (world (snd (export p s))) !! p ->
  tasks (self (snd (import_file p false s2))) = tasks (self s)
  /\ saved s2 (fst (import_file p false s2)) tt.
Proof.
  rewrite export_run. destruct (String.eqb p ""); [discriminate|].
  destruct (is_dir (disk (world s) !! p)); [discriminate|].
  intros _. cbn [snd world disk]. rewrite lookup_insert_eq. intros Hp.
  destruct (import_run p false _ s2 Hp (dump_well_formed _))
    as (r & w & l & new & El & _ & _ & _ & E & Hs).
  rewrite mapM_from_dict_dump in El. injection El as <-.
  rewrite E. cbn. split; [reflexivity | exact Hs].
Qed.

(** C4: [import_file] with [merge=True] of a file that holds a list of
    well-formed records appends one task per record after the tasks
    already there; each is the record as rebuilt but for its id, and the
    ids are the consecutive integers from [_next_id] on, whatever ids the
    file has; so each is greater than every id that was there, and if the
    ids in the store were pairwise distinct, they still are. *)
Theorem import_merge_fresh_ids (p : string) (items : list pyval) (s : State) :
  disk (world s) !! p = Some (Json (PList items)) ->
  forallb well_formed items = true ->
  let s' := snd (import_file p true s) in
  exists l new,
    tasks (self s') = tasks (self s) ++ new
    /\ Forall2 (fun d t => exists stamp, rebuilt stamp d t) items l
    /\ Forall2 same_but_id l new
    /\ ids new = seqZ (_next_id (tasks (self s))) (Z.of_nat (length items))
    /\ Forall (fun u => Forall (fun t => id u < id t) new) (tasks (self s))
    /\ (NoDup (ids (tasks (self s))) -> NoDup (ids (tasks (self s')))).
Proof.
  intros Hp Hwf. cbv zeta.
  destruct (import_run p true items s Hp Hwf)
    as (r & w & l & new & El & Hl & Hsame & Hids & E & Hs).
  assert (Hlen : length l = length items).
  { symmetry. eapply Forall2_length, Hl. }
  rewrite Hlen in Hids.
  assert (Habove : Forall (fun u => Forall (fun t => id u < id t) new) (tasks (self s))).
  { pose proof (next_id_above (tasks (self s))) as Hnext.
    rewrite Forall_forall in Hnext |- *. intros u Hu. specialize (Hnext u Hu).
    apply Forall_forall. intros t Ht.
    assert (id t ∈ ids new) as Hin by (apply (list_elem_of_fmap_2 id); exact Ht).
    rewrite Hids in Hin. apply elem_of_seqZ in Hin. lia. }
  exists l, new. rewrite E. cbn [snd self tasks].
  repeat split; try assumption.
  intros Hnd. unfold ids in *. change List.map with (@fmap list _) in *.
  rewrite fmap_app. apply NoDup_app. split; [exact Hnd|]. split.
  - intros x Hx Hx'. apply list_elem_of_fmap in Hx as (u & -> & Hu).
    apply list_elem_of_fmap in Hx' as (t & Hxt & Ht).
    rewrite Forall_forall in Habove. specialize (Habove u Hu).
    rewrite Forall_forall in Habove. specialize (Habove t Ht). lia.
  - rewrite Hids. apply NoDup_seqZ.
Qed.

(** *** [_load] *)

(** C8: building a store never raises. When the file is missing the
    collection is empty and nothing is printed. When the file is not JSON,
    or its root is not a list, or one of its records is malformed, the
    collection is empty and one warning line is printed. (A path that
    cannot be read at all gives an empty collection and one error line, and
    a list of well-formed records gives one task per record.) *)
Theorem load_never_raises (p : string) (w : World) :
  exists s',
    __init__ p w = (Ret tt, s')
    /\ path (self s') = p /\ disk (world s') = disk w
    /\ match disk w !! p with
       | None => tasks (self s') = [] /\ stderr (world s') = stderr w
       | Some Dir =>
           tasks (self s') = []
           /\ exists msg, stderr (world s') = stderr w ++ ["Error reading DB file: " +:+ msg]
       | Some Garbage => tasks (self s') = [] /\ warned (stderr w) (stderr (world s'))
       | Some (Json (PList items)) =>
           if forallb well_formed items
           then length (tasks (self s')) = length items
                /\ stderr (world s') = stderr w
           else tasks (self s') = [] /\ warned (stderr w) (stderr (world s'))
       | Some (Json _) => tasks (self s') = [] /\ warned (stderr w) (stderr (world s'))
       end.
Proof.
  destruct w as [d err ck tk]. unfold __init__, _load, warned. run.
  destruct (d !! p) as [[| |v]|] eqn:Ep; cbn [negb]; run; rewrite ?Ep; run.
  - eexists. repeat split. eexists. reflexivity.
  - eexists. repeat split. eexists. reflexivity.
  - destruct v as [| | | |items|];
      try (run; eexists; repeat split; eexists; reflexivity).
    destruct (forallb well_formed items) eqn:Hwf.
    + match goal with |- context [mapM from_dict items ?S] =>
        destruct (mapM_from_dict_ok items S Hwf) as (l & El & Hl); rewrite El end.
      cbn. eexists. repeat split. symmetry. eapply Forall2_length, Hl.
    + match goal with |- context [mapM from_dict items ?S] =>
        destruct (mapM_from_dict_bad items S Hwf) as (msg & n & El); rewrite El end.
      cbn. eexists. repeat split. eexists. reflexivity.
  - eexists. repeat split.
Qed.

(** *** [search] *)

(** Every character is one of the 256. *)
Lemma all_ascii (c : ascii) : In c (List.map ascii_of_nat (List.seq 0 256)).
Proof.
  rewrite <- (ascii_nat_embedding c). apply in_map, in_seq.
  pose proof (nat_ascii_bounded c). lia.
Qed.

(** [str.lower] sends two characters to the same one just when they are
    the same letter but for case. *)
Lemma lower_char_same (a b : ascii) :
  Ascii.eqb (lower_char a) (lower_char b) = same_letter a b.
Proof.
  assert (T : forallb (fun a =>
                forallb (fun b =>
                  Bool.eqb (Ascii.eqb (lower_char a) (lower_char b)) (same_letter a b))
                  (List.map ascii_of_nat (List.seq 0 256)))
                (List.map ascii_of_nat (List.seq 0 256)) = true)
    by (vm_compute; reflexivity).
  rewrite forallb_forall in T. specialize (T a (all_ascii a)).
  rewrite forallb_forall in T. specialize (T b (all_ascii b)).
  now apply Bool.eqb_prop in T.
Qed.

Lemma lower_same (s t : string) : lower s = lower t <-> same_text s t = true.
Proof.
  revert t. induction s as [|a s IH]; intros [|b t]; cbn [lower same_text];
    try (split; [discriminate | discriminate]); [tauto|].
  rewrite andb_true_iff, <- IH, <- lower_char_same, Ascii.eqb_eq.
  split; [intros [= H1 H2]; now split | intros [-> ->]; reflexivity].
Qed.

(** The test [search] makes, [q.lower() in text.lower()], says that the
    text has a piece equal to the query up to case. *)
Lemma contains_lower_iff (q text : string) :
  contains (lower q) (lower text) = true <-> ci_contains q text.
Proof.
  rewrite contains_iff. unfold ci_contains. split.
  - intros (pre & post & H).
    apply lower_split in H as (s1 & s23 & -> & H1 & H23).
    apply lower_split in H23 as (s2 & s3 & -> & H2 & H3).
    exists s1, s2, s3. split; [reflexivity|]. now apply lower_same.
  - intros (pre & mid & post & -> & H). apply lower_same in H.
    exists (lower pre), (lower post). now rewrite !lower_app, H.
Qed.

Lemma str_items_text (i : nat) (l : list pyval) :
  forallb is_text l = true -> str_items i l = Ret (List.map tag_text l).
Proof.
  revert i. induction l as [|v l IH]; intros i H; [reflexivity|].
  simpl in H. destruct v; try discriminate. simpl in H |- *. now rewrite (IH _ H).
Qed.

(** [sep.join(l)] puts the texts in a row with [sep] between them. *)
Lemma join_separated (sep : string) (l : list string) : join sep l = separated sep l.
Proof.
  destruct l as [|x r]; [reflexivity|]. cbn [separated].
  revert x. induction r as [|y r IH]; intros x; [reflexivity|].
  cbn [fold_left]. rewrite <- IH.
  destruct r as [|z r]; cbn [join]; [reflexivity|]. now rewrite !append_assoc.
Qed.

Lemma hit_text (q : string) (t : Task) :
  text_tags t ->
  hit q t = Ret (contains q (lower (title t)) || contains q (lower (description t))
                 || contains q (lower (joined_tags t))).
Proof.
  intros H. unfold hit, str_join, joined_tags. rewrite (str_items_text _ _ H).
  rewrite <- join_separated.
  destruct (contains q (lower (title t))); [reflexivity|].
  destruct (contains q (lower (description t))); reflexivity.
Qed.

Lemma str_items_not_text (i : nat) (l : list pyval) :
  forallb is_text l = false -> exists msg, str_items i l = Raise (Exc TypeError msg).
Proof.
  revert i. induction l as [|v l IH]; intros i H; [discriminate|].
  cbn [forallb] in H. destruct v; cbn [is_text andb] in H;
    try (eexists; reflexivity).
  destruct (IH (S i) H) as [msg E]. exists msg. cbn [str_items]. now rewrite E.
Qed.

(** What the test of [search] makes of one task: it says whether the query
    is found in it, or it fails on tags that are not text. *)
Lemma hit_found (q : string) (t : Task) :
  match hit (lower q) t with
  | Ret b => b = true <-> found_in q t
  | Raise e => exc_cls e = TypeError /\ ~ text_tags t
  end.
Proof.
  unfold found_in.
  pose proof (contains_lower_iff q (title t)) as Ht.
  pose proof (contains_lower_iff q (description t)) as Hd.
  destruct (forallb is_text (tags t)) eqn:Htags.
  - rewrite (hit_text _ _ Htags).
    pose proof (contains_lower_iff q (joined_tags t)) as Hj.
    rewrite !orb_true_iff, Ht, Hd, Hj. unfold text_tags. tauto.
  - unfold hit.
    destruct (contains (lower q) (lower (title t))); [split; [tauto|intros _]; tauto|].
    destruct (contains (lower q) (lower (description t)));
      [split; [intros _; right; left; now apply Hd | reflexivity]|].
    unfold str_join. destruct (str_items_not_text 0 _ Htags) as [msg ->]. cbn.
    split; [reflexivity|]. unfold text_tags. congruence.
Qed.

Lemma search_empty (l : list Task) : search "" l = Ret l.
Proof.
  unfold search. simpl. induction l as [|t l IH]; [reflexivity|].
  cbn [select]. rewrite IH. unfold hit.
  now destruct (lower (title t)).
Qed.

(** C7: in every store and for every query, what [search] returns is
    exactly the tasks whose title, description or tags, put in a row with
    single spaces between them, have a piece equal to the query but for
    the case of its letters, in the order of the collection. It returns
    on every store whose tags are text, as the record declares them, and
    raises, a [TypeError], only on a store with a tag that is not text.
    The empty query returns the whole collection of any store. *)
Theorem search_filters_in_order (query : string) (l : list Task) :
  match search query l with
  | Ret r => filtered (found_in query) l r
  | Raise e => exc_cls e = TypeError /\ Exists (fun t => ~ text_tags t) l
  end
  /\ (Forall text_tags l -> exists r, search query l = Ret r)
  /\ search "" l = Ret l.
Proof.
  assert (H : match search query l with
              | Ret r => filtered (found_in query) l r
              | Raise e => exc_cls e = TypeError /\ Exists (fun t => ~ text_tags t) l
              end).
  { unfold search. cbv zeta. induction l as [|t l IH]; [constructor|].
    cbn [select]. pose proof (hit_found query t) as Ht.
    destruct (hit (lower query) t) as [b|e]; cbn [res_bind].
    - destruct (select (lower query) l) as [r|e]; cbn [res_bind].
      + destruct b.
        * constructor; [now apply Ht | exact IH].
        * apply filtered_skip; [|exact IH]. intros Hf. apply Ht in Hf. discriminate.
      + destruct IH as [Hc Hex]. split; [exact Hc | now apply Exists_cons_tl].
    - destruct Ht as [Hc Hn]. split; [exact Hc | now apply Exists_cons_hd]. }
  split; [exact H|]. split; [|apply search_empty].
  intros Htext. destruct (search query l) as [r|e]; [now exists r|].
  destruct H as [_ Hex]. apply Exists_exists in Hex as (t & Hin & Hn).
  rewrite Forall_forall in Htext. now specialize (Htext t Hin).
Qed.

(** *** The statements above at work on the sample store *)

Lemma edit_fields_witness :
  1 ∈ ids (tasks (self sample_state))
  /\ exists k t r s',
       index_of 1 (tasks (self sample_state)) = Some k
       /\ tasks (self sample_state) !! k = Some t /\ id t = 1
       /\ edit 1 None None (Some "") (Some []) sample_state = (r, s')
       /\ (if bad_date (Some "")
           then tasks (self s')
                  = <[k := edited None None None None t]> (tasks (self sample_state))
                /\ exists e, r = Raise e /\ exc_cls e = ValueError
           else tasks (self s')
                  = <[k := edited None None (Some "") (Some []) t]>
                      (tasks (self sample_state))
                /\ saved sample_state r (edited None None (Some "") (Some []) t))
       /\ tasks (self (snd (edit 1 None None None None sample_state)))
          = tasks (self sample_state).
Proof.
  assert (H : 1 ∈ ids (tasks (self sample_state))).
  { vm_compute. apply elem_of_cons. left. reflexivity. }
  split; [exact H|].
  exact (edit_fields 1 None None (Some "") (Some []) sample_state H).
Defined.

Lemma import_merge_fresh_ids_witness :
  NoDup (ids (tasks (self (snd (import_file "backup.json" true sample_import_state))))).
Proof.
  assert (Hp : disk (world sample_import_state) !! "backup.json"
               = Some (Json sample_backup)) by (vm_compute; reflexivity).
  assert (Hwf : forallb well_formed
                  [PDict [("id", PInt 1); ("title", PStr "Pay rent")];
                   PDict [("id", PInt 1); ("title", PStr "Call home");
                          ("done", PBool true)]] = true) by (vm_compute; reflexivity).
  assert (Hnd : NoDup (ids (tasks (self sample_import_state)))).
  { vm_compute. apply NoDup_singleton. }
  destruct (import_merge_fresh_ids "backup.json" _ sample_import_state Hp Hwf)
    as (l & new & _ & _ & _ & _ & _ & H).
  exact (H Hnd).
Defined.

Lemma export_import_roundtrip_witness :
  tasks (self (snd (import_file "backup.json" false sample_fresh_state))) = [sample_task]
  /\ fst (import_file "backup.json" false sample_fresh_state) = Ret tt
  /\ tasks (self (snd (import_file "backup.json" false
                         (snd (export "backup.json" sample_state)))))
     = [sample_task].
Proof.
  assert (H : fst (export "backup.json" sample_state) = Ret tt)
    by (vm_compute; reflexivity).
  assert (H2 : disk (world sample_fresh_state) !! "backup.json"
               = disk (world (snd (export "backup.json" sample_state))) !! "backup.json")
    by reflexivity.
  destruct (export_import_roundtrip "backup.json" sample_state sample_fresh_state H H2)
    as [E Hs].
  split; [exact E|]. split.
  - destruct (fst (import_file "backup.json" false sample_fresh_state)) as [[]|e];
      [reflexivity|]. destruct Hs as [_ Hs]. vm_compute in Hs. discriminate.
  - exact (proj1 (export_import_roundtrip "backup.json" sample_state
                    (snd (export "backup.json" sample_state)) H eq_refl)).
Defined.

Lemma next_id_fresh_and_unique_witness :
  NoDup (ids (tasks (self (snd (add_trace sample_calls sample_state)))))
  /\ Forall fresh_step (fst (add_trace sample_calls sample_state)).
Proof.
  assert (Hnd : NoDup (ids (tasks (self sample_state)))).
  { vm_compute. apply NoDup_singleton. }
  destruct (next_id_fresh_and_unique sample_calls sample_state Hnd) as (_ & H1 & H2).
  split; assumption.
Defined.

Lemma search_filters_in_order_witness :
  search "MILK" [sample_task] = Ret [sample_task]
  /\ filtered (found_in "MILK") [sample_task] [sample_task]
  /\ search "bread" [sample_task] = Ret []
  /\ filtered (found_in "bread") [sample_task] []
  /\ search "SHOP" [sample_task] = Ret [sample_task]
  /\ search "" [sample_task] = Ret [sample_task].
Proof.
  pose proof (search_filters_in_order "MILK" [sample_task]) as (H1 & _ & H3).
  pose proof (search_filters_in_order "bread" [sample_task]) as (H4 & _).
  pose proof (search_filters_in_order "SHOP" [sample_task]) as (H5 & _).
  assert (E1 : search "MILK" [sample_task] = Ret [sample_task]) by reflexivity.
  assert (E4 : search "bread" [sample_task] = Ret []) by reflexivity.
  assert (E5 : search "SHOP" [sample_task] = Ret [sample_task]) by reflexivity.
  rewrite E1 in H1. rewrite E4 in H4.
  repeat split; assumption.
Defined.

End TodoFacts.

(** *** The calendar behind [_validate_date] *)

Module CalendarFacts.
Import Py Strptime Todo Spec StringFacts DateFacts.
Local Open Scope string_scope.
Local Open Scope list_scope.
Local Open Scope Z_scope.

Lemma iso_format_inv (s : string) :
  iso_format s = true ->
  exists yt m1 m2 d1 d2,
    year_text yt = true /\ is_digit m1 = true /\ is_digit m2 = true
    /\ is_digit d1 = true /\ is_digit d2 = true
    /\ s = yt +:+ String "-" (String m1 (String m2 (String "-" (String d1 (String d2 ""))))).
Proof.
  destruct s as [|y1 [|y2 [|y3 [|y4 [|c5 s]]]]]; try discriminate.
  destruct c5 as [[] [] [] [] [] [] [] []]; try discriminate.
  destruct s as [|m1 [|m2 [|c8 s]]]; try discriminate.
  destruct c8 as [[] [] [] [] [] [] [] []]; try discriminate.
  destruct s as [|d1 [|d2 [|x s]]]; try discriminate.
  cbn [iso_format forallb]. rewrite !andb_true_iff.
  intros (H1 & H2 & H3 & H4 & H5 & H6 & H7 & H8 & _).
  exists (String y1 (String y2 (String y3 (String y4 "")))), m1, m2, d1, d2.
  cbn [year_text forallb]. rewrite H1, H2, H3, H4. repeat split; assumption.
Qed.

Lemma two_digits_In (a b : ascii) :
  is_digit a = true -> is_digit b = true ->
  In (String a (String b "")) two_digit_texts.
Proof.
  intros Ha Hb. unfold is_digit in Ha, Hb. enum Ha; enum Hb; apply mem_In; reflexivity.
Qed.

(** For each pair of two-digit texts: if both are texts of a month and of
    a day, nothing to say here; if not, the match of what follows the year
    fails, and one of the two numbers is out of range. *)
Lemma two_digit_table :
  forallb (fun mt =>
    forallb (fun dt =>
      (mem mt month_texts && mem dt day_texts)
      || (head_fails (matches re_tail ("-" +:+ mt +:+ "-" +:+ dt))
          && negb ((1 <=? number mt) && (number mt <=? 12)
                   && (1 <=? number dt) && (number dt <=? 31))))
      two_digit_texts) two_digit_texts = true.
Proof. vm_compute. reflexivity. Qed.

Lemma days_in_month_le (y m : Z) : days_in_month y m <= 31.
Proof.
  unfold days_in_month.
  repeat match goal with |- context [if ?b then _ else _] => destruct b end; lia.
Qed.

Lemma real_date_range (y m d : Z) :
  real_date y m d = true -> (1 <=? m) && (m <=? 12) && (1 <=? d) && (d <=? 31) = true.
Proof.
  rewrite real_date_model, !andb_true_iff, !Z.leb_le.
  pose proof (days_in_month_le y m). lia.
Qed.

(** X20: on a text of four digits, a hyphen, two digits, a hyphen and two
    digits, [_validate_date] accepts exactly the dates of the calendar
    from year 1 on: a day from 1 to the length of the month, which is 31,
    or 30 for April, June, September and November, or for February 29 in
    the years divisible by 4 but not by 100, or by 400, and 28 in the
    others. *)
Theorem iso_dates_by_calendar (s : string) :
  iso_format s = true ->
  accepts s
  = real_date (number (substring 0 4 s)) (number (substring 5 2 s))
      (number (substring 8 2 s)).
Proof.
  intros H. destruct (iso_format_inv s H)
    as (yt & m1 & m2 & d1 & d2 & Hy & Hm1 & Hm2 & Hd1 & Hd2 & ->).
  change (yt +:+ String "-" (String m1 (String m2 (String "-" (String d1 (String d2 ""))))))
    with (yt +:+ "-" +:+ String m1 (String m2 "") +:+ "-" +:+ String d1 (String d2 "")).
  set (mt := String m1 (String m2 "")). set (dt := String d1 (String d2 "")).
  assert (Esub : substring 0 4 (yt +:+ "-" +:+ mt +:+ "-" +:+ dt) = yt
                 /\ substring 5 2 (yt +:+ "-" +:+ mt +:+ "-" +:+ dt) = mt
                 /\ substring 8 2 (yt +:+ "-" +:+ mt +:+ "-" +:+ dt) = dt).
  { destruct yt as [|a [|b [|c [|d [|e yt]]]]]; try discriminate. repeat split. }
  destruct Esub as (-> & -> & ->).
  pose proof two_digit_table as T.
  pose proof (forallb_mem _ _ dt
                (forallb_mem _ _ mt T (proj2 (mem_In _ _) (two_digits_In m1 m2 Hm1 Hm2)))
                (proj2 (mem_In _ _) (two_digits_In d1 d2 Hd1 Hd2))) as Hcase.
  cbv beta in Hcase. apply orb_true_iff in Hcase as [Hboth|Hnot].
  - apply andb_true_iff in Hboth as [Hm Hd]. now apply accepts_shape.
  - apply andb_true_iff in Hnot as [Hfail Hrange].
    assert (Hreal : real_date (number yt) (number mt) (number dt) = false).
    { destruct (real_date (number yt) (number mt) (number dt)) eqn:Hr; [|reflexivity].
      apply real_date_range in Hr. rewrite Hr in Hrange. discriminate. }
    rewrite Hreal. unfold accepts, _validate_date, strptime, format_regex. cbn [matches].
    rewrite (matches_Y yt _ Hy). cbn [flat_map fst snd]. rewrite app_nil_r.
    destruct (matches re_tail ("-" +:+ mt +:+ "-" +:+ dt)) as [|[caps rest] ms];
      [reflexivity|].
    cbn [head_fails] in Hfail. cbn [List.map fst snd]. now rewrite Hfail.
Qed.

(** X21: of the texts modelled, those of code points below 256, the ones
    [_validate_date] accepts are exactly these: a year of four digits, a
    hyphen, a month written with one or two digits, a hyphen, a day
    written with one or two digits or with a blank and one digit, the
    three numbers naming a date of the calendar, as X20 has it. *)
Theorem accepted_dates (s : string) : accepts s = true <-> lenient_date s.
Proof. exact (validate_date_accepts_iff s). Qed.

Lemma iso_dates_by_calendar_witness :
  accepts "2024-02-29" = true /\ accepts "2023-02-29" = false
  /\ accepts "2000-02-29" = true /\ accepts "1900-02-29" = false
  /\ accepts "2025-04-31" = false /\ accepts "2025-12-31" = true
  /\ accepts "2025-00-10" = false /\ accepts "0000-01-01" = false.
Proof.
  rewrite (iso_dates_by_calendar "2024-02-29" eq_refl),
    (iso_dates_by_calendar "2023-02-29" eq_refl),
    (iso_dates_by_calendar "2000-02-29" eq_refl),
    (iso_dates_by_calendar "1900-02-29" eq_refl),
    (iso_dates_by_calendar "2025-04-31" eq_refl),
    (iso_dates_by_calendar "2025-12-31" eq_refl),
    (iso_dates_by_calendar "2025-00-10" eq_refl),
    (iso_dates_by_calendar "0000-01-01" eq_refl).
  repeat split.
Defined.

End CalendarFacts.

(** *** The store, method by method *)

Module StoreFacts.
Import Py Todo Spec StringFacts DateFacts TodoFacts.
Local Open Scope string_scope.
Local Open Scope list_scope.
Local Open Scope Z_scope.
Local Open Scope py_scope.

Ltac step :=
  cbv beta iota zeta delta
    [bind ret raise lift try_except when get_tasks get_path set_tasks set_world
     get_disk set_disk exists_ read_json write_json os_replace print_stderr
     assign deref now list_];
  cbn [self world path tasks disk stderr clock ticks fst snd].

(** *** [_save] *)

(** The two outcomes of [_save]: the file of the store now holds the
    collection and the temporary file is gone; or [IOError] is raised and
    the file of the store is as it was. *)
Lemma _save_cases (s : State) :
  let p := path (self s) in
  let d := disk (world s) in
  let w := world s in
  let v := Json (dump (tasks (self s))) in
  (can_save s = true
   /\ _save s = (Ret tt, mkState (self s)
                   (mkWorld (<[p := v]> (base.delete (p +:+ ".tmp") (<[p +:+ ".tmp" := v]> d)))
                      (stderr w) (clock w) (ticks w))))
  \/ (can_save s = false
      /\ exists msg d',
           _save s = (Raise (Exc IOError ("Failed to save DB: " +:+ msg)),
                      mkState (self s) (mkWorld d' (stderr w) (clock w) (ticks w)))
           /\ d' !! p = d !! p
           /\ (d' = d \/ d' = <[p +:+ ".tmp" := v]> d)).
Proof.
  destruct s as [[p l] [d err ck tk]]. cbv zeta.
  cbn [self world path tasks disk stderr clock ticks].
  unfold _save, can_save. step. rewrite (tmp_nonempty p). step.
  destruct (d !! (p +:+ ".tmp")) as [[| |v0]|] eqn:Etmp; cbn [is_dir negb andb]; step;
    rewrite ?andb_false_r;
    try (right; split; [reflexivity|]; eexists _, d; repeat split; now left);
    rewrite lookup_insert_eq; step;
    (destruct (String.eqb p "") eqn:Ep0; step; cbn [negb andb];
     [right; split; [reflexivity|]; eexists _, _; split; [reflexivity|];
      split; [now rewrite (lookup_insert_ne _ _ _ _ (tmp_fresh p)) | now right]|]);
    rewrite (lookup_insert_ne _ _ _ _ (tmp_fresh p));
    destruct (d !! p) as [[| |]|] eqn:Ep; step; cbn [is_dir negb andb];
    first [ left; split; reflexivity
          | right; split; [reflexivity|]; eexists _, _; split; [reflexivity|];
            split; [now rewrite (lookup_insert_ne _ _ _ _ (tmp_fresh p)) | now right] ].
Qed.

(** *** [find_by_id] *)

Lemma index_of_first (i : Z) (l : list Task) (k : nat) :
  index_of i l = Some k -> Forall (fun u => id u <> i) (take k l).
Proof.
  revert k. induction l as [|u l IH]; intros k; cbn [index_of]; [discriminate|].
  destruct (Z.eqb_spec (id u) i) as [E|Hne].
  - intros [= <-]. constructor.
  - destruct (index_of i l) as [k'|]; [|discriminate].
    intros [= <-]. cbn [take]. constructor; [exact Hne | now apply IH].
Qed.

Lemma index_of_absent (i : Z) (l : list Task) :
  index_of i l = None -> i ∉ ids l.
Proof.
  intros H Hin. destruct (index_of_present i l Hin) as [k Hk]. congruence.
Qed.

Lemma index_of_is_present (i : Z) (l : list Task) (k : nat) :
  index_of i l = Some k -> i ∈ ids l.
Proof.
  intros H. destruct (index_of_lookup i l k H) as (t & Ht & <-).
  apply (list_elem_of_fmap_2 id). eapply list_elem_of_lookup_2, Ht.
Qed.

(** X1: [find_by_id] changes nothing; what it returns is the first task
    of the collection with the id asked for, with its position; it raises
    [LookupError], with the id in the message, exactly when no task has
    that id. *)
Theorem find_by_id_first_match (i : Z) (s : State) :
  snd (find_by_id i s) = s
  /\ match fst (find_by_id i s) with
     | Ret (k, t) =>
         tasks (self s) !! k = Some t /\ id t = i
         /\ Forall (fun u => id u <> i) (take k (tasks (self s)))
     | Raise e =>
         e = Exc LookupError ("Task with id " +:+ repr_int i +:+ " not found")
         /\ i ∉ ids (tasks (self s))
     end.
Proof.
  unfold find_by_id. step.
  destruct (index_of i (tasks (self s))) as [k|] eqn:Hk.
  - destruct (index_of_lookup i _ k Hk) as (t & Ht & Hid). rewrite Ht. cbn.
    repeat split; try assumption. now apply index_of_first.
  - cbn. repeat split. now apply index_of_absent.
Qed.

Lemma find_by_id_reads (i : Z) (s : State) : snd (find_by_id i s) = s.
Proof.
  destruct (index_of i (tasks (self s))) as [k|] eqn:Hk.
  - destruct (find_by_id_run i s k Hk) as (t & _ & _ & ->). reflexivity.
  - unfold find_by_id. step. now rewrite Hk.
Qed.

Lemma find_by_id_absent (i : Z) (s : State) :
  index_of i (tasks (self s)) = None ->
  find_by_id i s
  = (Raise (Exc LookupError ("Task with id " +:+ repr_int i +:+ " not found")), s).
Proof. intros H. unfold find_by_id. step. now rewrite H. Qed.

(** *** [delete] *)

Section Delete.
Variable val_eq : pyval -> pyval -> bool.

Lemma remove_at (k : nat) (t : Task) (l : list Task) :
  l !! k = Some t -> Forall (fun u => id u <> id t) (take k l) ->
  remove val_eq k t l = Ret (take k l ++ drop (S k) l).
Proof.
  revert k. induction l as [|e l IH]; intros k Hk Hne; [discriminate|].
  destruct k as [|k]; [reflexivity|].
  cbn [take] in Hne. apply Forall_cons in Hne as [He Hne].
  cbn [remove]. unfold task_eq.
  destruct (Z.eqb_spec (id e) (id t)) as [E|_]; [contradiction|]. cbn [andb].
  rewrite (IH k Hk Hne). reflexivity.
Qed.

Lemma delete_run (i : Z) (s : State) (k : nat) :
  index_of i (tasks (self s)) = Some k ->
  exists r w,
    delete val_eq i s
    = (r, mkState (mkDB (path (self s))
                     (take k (tasks (self s)) ++ drop (S k) (tasks (self s)))) w)
    /\ saved s r tt.
Proof.
  intros Hk. destruct (find_by_id_run i s k Hk) as (t & Ht & Hid & Hf).
  pose proof (index_of_first i _ k Hk) as Hne. rewrite <- Hid in Hne.
  destruct s as [[p l] [d err ck tk]]. cbn [self tasks path world] in *.
  unfold delete. unfold bind at 1. rewrite Hf. step.
  rewrite (remove_at k t l Ht Hne). step.
  match goal with |- context [_save ?S] =>
    destruct (_save_run S) as (r & w & E & Hs & _); rewrite E end.
  exists r, w. split; [reflexivity|]. exact Hs.
Qed.

Lemma delete_absent (i : Z) (s : State) :
  index_of i (tasks (self s)) = None ->
  delete val_eq i s
  = (Raise (Exc LookupError ("Task with id " +:+ repr_int i +:+ " not found")), s).
Proof.
  intros H. unfold delete. unfold bind at 1. now rewrite (find_by_id_absent i s H).
Qed.

End Delete.

Section DeleteTheorems.
Variable val_eq : pyval -> pyval -> bool.

(** X2: [delete] on an id of the collection takes out the first task with
    that id and no other, keeps the order of the rest, and saves; on an id
    that is not there it raises [LookupError] and changes nothing. *)
Theorem delete_removes_first_match (i : Z) (s : State) :
  let l := tasks (self s) in
  let rs := delete val_eq i s in
  if decide (i ∈ ids l)
  then (exists k t,
         l !! k = Some t /\ id t = i /\ Forall (fun u => id u <> i) (take k l)
         /\ tasks (self (snd rs)) = take k l ++ drop (S k) l
         /\ path (self (snd rs)) = path (self s)
         /\ saved s (fst rs) tt)
  else rs = (Raise (Exc LookupError ("Task with id " +:+ repr_int i +:+ " not found")), s).
Proof.
  cbv zeta. destruct (decide (i ∈ ids (tasks (self s)))) as [Hin|Hout].
  - destruct (index_of_present i _ Hin) as [k Hk].
    destruct (index_of_lookup i _ k Hk) as (t & Ht & Hid).
    destruct (delete_run val_eq i s k Hk) as (r & w & E & Hs).
    exists k, t. rewrite E. cbn. repeat split; try assumption.
    now apply index_of_first.
  - apply delete_absent. destruct (index_of i (tasks (self s))) as [k|] eqn:Hk; [|reflexivity].
    exfalso. apply Hout. eapply index_of_is_present, Hk.
Qed.

Lemma ids_take_drop (l : list Task) (k : nat) :
  ids (take k l ++ drop (S k) l) = take k (ids l) ++ drop (S k) (ids l).
Proof.
  unfold ids. change List.map with (@fmap list _).
  now rewrite fmap_app, fmap_take, fmap_drop.
Qed.

(** X3: when the ids are pairwise distinct, a deleted id is gone: every
    other task is still in the collection, and looking the id up again
    raises [LookupError]. *)
Theorem delete_then_find_fails (i : Z) (s : State) :
  NoDup (ids (tasks (self s))) -> i ∈ ids (tasks (self s)) ->
  let s' := snd (delete val_eq i s) in
  (i ∉ ids (tasks (self s')))
  /\ Forall (fun u => id u = i \/ u ∈ tasks (self s')) (tasks (self s))
  /\ find_by_id i s'
     = (Raise (Exc LookupError ("Task with id " +:+ repr_int i +:+ " not found")), s').
Proof.
  intros Hnd Hin. cbv zeta.
  destruct (index_of_present i _ Hin) as [k Hk].
  destruct (index_of_lookup i _ k Hk) as (t & Ht & Hid).
  destruct (delete_run val_eq i s k Hk) as (r & w & E & Hs). rewrite E. cbn [snd].
  set (l := tasks (self s)) in *.
  assert (Hl : l = take k l ++ t :: drop (S k) l).
  { symmetry. now apply take_drop_middle. }
  assert (Hout : i ∉ ids (take k l ++ drop (S k) l)).
  { rewrite Hl in Hnd. unfold ids in Hnd |- *. change List.map with (@fmap list _) in *.
    rewrite fmap_app in Hnd |- *. rewrite fmap_cons in Hnd.
    apply NoDup_app in Hnd as (_ & Hdis & Hnd2). apply NoDup_cons in Hnd2 as [Hnot _].
    rewrite Hid in *. intros Hi. apply elem_of_app in Hi as [Hi|Hi].
    - apply (Hdis i Hi). apply elem_of_cons. now left.
    - contradiction. }
  split; [exact Hout|]. split.
  - apply Forall_forall. intros u Hu. rewrite Hl in Hu.
    apply elem_of_app in Hu as [Hu|Hu].
    + right. apply elem_of_app. now left.
    + apply elem_of_cons in Hu as [->|Hu]; [now left|]. right. apply elem_of_app. now right.
  - apply find_by_id_absent. cbn [self tasks].
    destruct (index_of i (take k l ++ drop (S k) l)) as [k'|] eqn:Hk'; [|reflexivity].
    exfalso. apply Hout. eapply index_of_is_present, Hk'.
Qed.

End DeleteTheorems.

(** *** [toggle_done] *)

Lemma index_of_ids (i : Z) (l l' : list Task) :
  ids l = ids l' -> index_of i l = index_of i l'.
Proof.
  revert l'. induction l as [|u l IH]; intros [|u' l']; try discriminate; [reflexivity|].
  cbn [ids List.map]. intros [= E1 E2]. cbn [index_of]. rewrite E1.
  now rewrite (IH l' E2).
Qed.

Lemma ids_insert (l : list Task) (k : nat) (t t' : Task) :
  l !! k = Some t -> id t' = id t -> ids (<[k := t']> l) = ids l.
Proof.
  intros Hk E. unfold ids. change List.map with (@fmap list _).
  rewrite list_fmap_insert, E. apply list_insert_id.
  now rewrite list_lookup_fmap, Hk.
Qed.

Lemma toggle_run (i : Z) (s : State) (k : nat) (t : Task) :
  index_of i (tasks (self s)) = Some k -> tasks (self s) !! k = Some t ->
  exists r w,
    toggle_done i s
    = (r, mkState (mkDB (path (self s))
                     (<[k := set_done (negb (done t)) t]> (tasks (self s)))) w)
    /\ saved s r (set_done (negb (done t)) t).
Proof.
  intros Hk Ht. destruct (find_by_id_run i s k Hk) as (t' & Ht' & _ & Hf).
  assert (t' = t) by congruence. subst t'.
  destruct s as [[p l] [d err ck tk]]. cbn [self tasks path world] in *.
  unfold toggle_done. unfold bind at 1. rewrite Hf. step.
  rewrite (alter_as_insert _ _ _ _ Ht).
  match goal with |- context [_save ?S] =>
    destruct (_save_run S) as (r & w & E & Hs & _); rewrite E end.
  cbn [self tasks]. rewrite list_lookup_insert_eq by (eapply lookup_lt_Some, Ht).
  unfold saved, can_save in *. cbn in Hs |- *.
  destruct r as [[]|e]; eexists _, w; (split; [reflexivity|]); intuition.
Qed.

Lemma toggle_absent (i : Z) (s : State) :
  index_of i (tasks (self s)) = None ->
  toggle_done i s
  = (Raise (Exc LookupError ("Task with id " +:+ repr_int i +:+ " not found")), s).
Proof.
  intros H. unfold toggle_done. unfold bind at 1. now rewrite (find_by_id_absent i s H).
Qed.

(** X4: [toggle_done] flips the done flag of the first task with the id,
    that is, of the task before which no task has the id, and of no other;
    calling it twice gives back the collection it started from; on an id
    that is not there it raises [LookupError] and changes nothing. *)
Theorem toggle_done_twice (i : Z) (s : State) :
  let s1 := snd (toggle_done i s) in
  let s2 := snd (toggle_done i s1) in
  tasks (self s2) = tasks (self s)
  /\ if decide (i ∈ ids (tasks (self s)))
     then (exists k t,
            tasks (self s) !! k = Some t /\ id t = i
            /\ Forall (fun u => id u <> i) (take k (tasks (self s)))
            /\ tasks (self s1) = <[k := set_done (negb (done t)) t]> (tasks (self s)))
     else toggle_done i s
          = (Raise (Exc LookupError ("Task with id " +:+ repr_int i +:+ " not found")), s).
Proof.
  cbv zeta. destruct (index_of i (tasks (self s))) as [k|] eqn:Hk.
  - destruct (index_of_lookup i _ k Hk) as (t & Ht & Hid).
    destruct (toggle_run i s k t Hk Ht) as (r & w & E & _). rewrite E. cbn [snd].
    set (l := tasks (self s)) in *. set (t1 := set_done (negb (done t)) t).
    assert (Ht1 : <[k := t1]> l !! k = Some t1).
    { apply list_lookup_insert_eq. eapply lookup_lt_Some, Ht. }
    assert (Hk1 : index_of i (<[k := t1]> l) = Some k).
    { rewrite <- Hk. apply index_of_ids. now apply (ids_insert l k t t1). }
    match goal with |- context [toggle_done i ?S] =>
      destruct (toggle_run i S k t1 Hk1 Ht1) as (r' & w' & E' & _); rewrite E' end.
    cbn [snd self tasks]. split.
    + rewrite list_insert_insert_eq. apply list_insert_id. rewrite Ht.
      destruct t as [? ? ? ? ? ? []]; reflexivity.
    + destruct (decide (i ∈ ids l)) as [_|Hout].
      * exists k, t. repeat split; try assumption. now apply index_of_first.
      * exfalso. apply Hout. eapply index_of_is_present, Hk.
  - rewrite !(toggle_absent i s Hk). cbn [snd]. rewrite (toggle_absent i s Hk).
    split; [reflexivity|].
    destruct (decide (i ∈ ids (tasks (self s)))) as [Hin|_]; [|reflexivity].
    destruct (index_of_present i _ Hin) as [k Hk']. congruence.
Qed.

(** *** [add] and then [find_by_id] *)

Lemma index_of_snoc_fresh (l : list Task) (t : Task) :
  Forall (fun u => id u < id t) l -> index_of (id t) (l ++ [t]) = Some (length l).
Proof.
  induction l as [|u l IH]; intros H; cbn [app index_of length].
  - now rewrite Z.eqb_refl.
  - apply Forall_cons in H as [Hu H].
    destruct (Z.eqb_spec (id u) (id t)) as [E|_]; [lia|]. now rewrite (IH H).
Qed.

(** X5: a task that [add] returned is found again under its id, at the
    end of the collection; when [add] raises, either the date was refused
    and nothing changed, or the save failed and the task is in memory all
    the same. *)
Theorem add_then_find (title_ description_ : string) (due_ : option string)
    (tags_ : option (list string)) (s : State) :
  let rs := add title_ description_ due_ tags_ s in
  match fst rs with
  | Ret t =>
      tasks (self (snd rs)) = tasks (self s) ++ [t]
      /\ find_by_id (id t) (snd rs) = (Ret (length (tasks (self s)), t), snd rs)
  | Raise e =>
      exc_cls e = ValueError /\ snd rs = s
      \/ exc_cls e = IOError /\ exists t, tasks (self (snd rs)) = tasks (self s) ++ [t]
  end.
Proof.
  cbv zeta.
  destruct (add_step (mkCall title_ description_ due_ tags_) s)
    as (r & s' & E & Hcase).
  unfold do_add in E. cbn [call_title call_description call_due call_tags] in E.
  rewrite E. cbn [fst snd].
  destruct Hcase as [[Htasks (e & ->)]|(t & Htasks & Hid & Hs)].
  - left.
    assert (Hbad : exists d e', due_ = Some d /\ d <> "" /\ _validate_date d = Raise e').
    { destruct due_ as [d|].
      - destruct (String.eqb_spec d "") as [->|Hne].
        + destruct (add_run title_ description_ (Some "") tags_ s) as (r & w & E' & _);
            [now left|]. cbv zeta in E'. rewrite E in E'. injection E' as _ E'.
          rewrite E' in Htasks. cbn in Htasks.
          apply (f_equal length) in Htasks. rewrite length_app in Htasks.
          cbn in Htasks. lia.
        + destruct (_validate_date d) as [[]|e'] eqn:Ev; [|now exists d, e'].
          destruct (add_run title_ description_ (Some d) tags_ s) as (r & w & E' & _);
            [now right|]. cbv zeta in E'. rewrite E in E'. injection E' as _ E'.
          rewrite E' in Htasks. cbn in Htasks.
          apply (f_equal length) in Htasks. rewrite length_app in Htasks.
          cbn in Htasks. lia.
      - destruct (add_run title_ description_ None tags_ s) as (r & w & E' & _);
          [exact I|]. cbv zeta in E'. rewrite E in E'. injection E' as _ E'.
        rewrite E' in Htasks. cbn in Htasks.
        apply (f_equal length) in Htasks. rewrite length_app in Htasks.
        cbn in Htasks. lia. }
    destruct Hbad as (d & e' & -> & Hne & Hv).
    rewrite (add_invalid_date _ _ d _ e' s Hne Hv) in E. injection E as <- <-.
    split; [|reflexivity]. now rewrite (_validate_date_raises d e' Hv).
  - destruct r as [t'|e]; destruct Hs as [Hr Hc].
    + subst t'. split; [exact Htasks|].
      pose proof (next_id_above (tasks (self s))) as Habove. rewrite <- Hid in Habove.
      pose proof (index_of_snoc_fresh _ t Habove) as Hidx. rewrite <- Htasks in Hidx.
      destruct (find_by_id_run (id t) s' _ Hidx) as (t' & Ht' & _ & Hf).
      rewrite Htasks in Ht'. rewrite lookup_app_r, Nat.sub_diag in Ht' by lia.
      injection Ht' as <-. exact Hf.
    + right. split; [exact Hr|]. now exists t.
Qed.

(** *** What is on disk after an operation *)

Lemma syncs_save : syncs _save.
Proof.
  intros s a s' E. destruct (_save_cases s) as [[_ E']|(_ & msg & d' & E' & _)];
    cbv zeta in E'; rewrite E' in E; [|discriminate].
  injection E as _ <-. unfold in_sync. cbn. split.
  - apply lookup_insert_eq.
  - rewrite (lookup_insert_ne _ _ _ _ (not_eq_sym (tmp_fresh _))).
    apply lookup_delete_eq.
Qed.

Lemma syncs_bind {A B} (m : M A) (k : A -> M B) :
  (forall a, syncs (k a)) -> syncs (bind m k).
Proof.
  intros Hk s b s' E. unfold bind in E.
  destruct (m s) as [[a|e] s1]; [|discriminate]. exact (Hk a s1 b s' E).
Qed.

Lemma syncs_then {A B} (m : M A) (k : A -> M B) :
  syncs m -> (forall a, reads (k a)) -> syncs (bind m k).
Proof.
  intros Hm Hk s b s' E. unfold bind in E.
  destruct (m s) as [[a|e] s1] eqn:Em; [|discriminate].
  rewrite (Hk a s1 b s' E). exact (Hm s a s1 Em).
Qed.

Lemma syncs_try {A} (m : M A) (c : exc_class) (f : exn -> string) :
  syncs m -> syncs (try_except m (fun e => raise c (f e))).
Proof.
  intros Hm s a s' E. unfold try_except in E.
  destruct (m s) as [[a'|e] s1] eqn:Em; [|discriminate].
  injection E as <- <-. exact (Hm s a' s1 Em).
Qed.

Lemma reads_ret {A} (a : A) : reads (ret a).
Proof. intros s a' s' [= _ <-]. reflexivity. Qed.

Lemma reads_deref (k : nat) (t : Task) : reads (deref k t).
Proof. intros s a' s' [= _ <-]. reflexivity. Qed.

Ltac syncs_steps :=
  repeat match goal with
    | |- syncs _save => apply syncs_save
    | |- syncs (bind _save _) =>
        apply syncs_then;
        [apply syncs_save | intros; first [apply reads_ret | apply reads_deref]]
    | |- syncs (bind _ _) => apply syncs_bind; intros
    end.

Lemma syncs_add ti de du tg : syncs (add ti de du tg).
Proof. unfold add. syncs_steps. Qed.

Lemma syncs_edit i ti de du tg : syncs (edit i ti de du tg).
Proof. unfold edit. syncs_steps. Qed.

Lemma syncs_toggle i : syncs (toggle_done i).
Proof. unfold toggle_done. syncs_steps. Qed.

Lemma syncs_delete val_eq i : syncs (delete val_eq i).
Proof. unfold delete. syncs_steps. Qed.

Lemma syncs_raise {A} (c : exc_class) (msg : string) : syncs (@raise A c msg).
Proof. intros s a s' E. discriminate. Qed.

Lemma syncs_import p merge : syncs (import_file p merge).
Proof.
  unfold import_file. apply syncs_try. apply syncs_bind. intros data.
  destruct data; try apply syncs_raise. syncs_steps.
Qed.

(** X6: whenever [add], [edit], [toggle_done], [delete] or [import_file]
    returns, the file of the store holds exactly the collection in memory
    and no temporary file is left. *)
Theorem mutation_persists (val_eq : pyval -> pyval -> bool) (o : op) (s : State) :
  match fst (run_op val_eq o s) with
  | Ret _ => in_sync (snd (run_op val_eq o s))
  | Raise _ => True
  end.
Proof.
  destruct (run_op val_eq o s) as [[[]|e] s'] eqn:E; cbn [fst snd]; [|exact I].
  revert E. destruct o; cbn [run_op]; intros E.
  - eapply (syncs_then _ _ (syncs_add _ _ _ _)), E. intros; apply reads_ret.
  - eapply (syncs_then _ _ (syncs_edit _ _ _ _ _)), E. intros; apply reads_ret.
  - eapply (syncs_then _ _ (syncs_toggle _)), E. intros; apply reads_ret.
  - eapply syncs_delete, E.
  - eapply syncs_import, E.
Qed.

(** *** What is on disk after a failure *)

Lemma quiet_bind {A B} (m : M A) (k : A -> M B) :
  quiet m -> (forall a, quiet (k a)) -> quiet (bind m k).
Proof.
  intros Hm Hk s r s' E. unfold bind in E.
  destruct (m s) as [[a|e] s1] eqn:Em.
  - destruct (Hm _ _ _ Em) as [H1 H2]. destruct (Hk a _ _ _ E) as [H3 H4].
    split; congruence.
  - injection E as <- <-. exact (Hm _ _ _ Em).
Qed.

Lemma quiet_fail_safe {A} (m : M A) : quiet m -> fail_safe m.
Proof. intros H s e s' E. destruct (H _ _ _ E) as [H1 H2]. now rewrite H1, H2. Qed.

Lemma fail_safe_bind {A B} (m : M A) (k : A -> M B) :
  quiet m -> (forall a, fail_safe (k a)) -> fail_safe (bind m k).
Proof.
  intros Hm Hk s e s' E. unfold bind in E.
  destruct (m s) as [[a|e1] s1] eqn:Em.
  - destruct (Hm _ _ _ Em) as [H1 H2]. destruct (Hk a _ _ _ E) as [H3 H4].
    rewrite H3, H4, H1, H2. split; [reflexivity | congruence].
  - injection E as <- <-. destruct (Hm _ _ _ Em) as [H1 H2]. now rewrite H1, H2.
Qed.

Lemma fail_safe_save : fail_safe _save.
Proof.
  intros s e s' E. destruct (_save_cases s) as [[_ E']|(_ & msg & d' & E' & Hd & _)];
    cbv zeta in E'; rewrite E' in E; [discriminate|].
  injection E as _ <-. cbn. split; [exact Hd | reflexivity].
Qed.

Lemma fail_safe_then {A B} (m : M A) (k : A -> M B) :
  fail_safe m -> (forall a, returns (k a)) -> fail_safe (bind m k).
Proof.
  intros Hm Hk s e s' E. unfold bind in E.
  destruct (m s) as [[a|e1] s1] eqn:Em.
  - destruct (Hk a s1) as [b Eb]. rewrite Eb in E. discriminate.
  - injection E as <- <-. exact (Hm _ _ _ Em).
Qed.

Lemma fail_safe_try {A} (m : M A) (c : exc_class) (f : exn -> string) :
  fail_safe m -> fail_safe (try_except m (fun e => raise c (f e))).
Proof.
  intros Hm s e s' E. unfold try_except in E.
  destruct (m s) as [[a|e1] s1] eqn:Em; [discriminate|].
  injection E as _ <-. exact (Hm _ _ _ Em).
Qed.

Lemma quiet_ret {A} (a : A) : quiet (ret a).
Proof. intros s r s' [= _ <-]. now split. Qed.

Lemma quiet_raise {A} c msg : quiet (@raise A c msg).
Proof. intros s r s' [= _ <-]. now split. Qed.

Lemma quiet_lift {A} (x : res A) : quiet (lift x).
Proof. intros s r s' [= _ <-]. now split. Qed.

Lemma quiet_get_tasks : quiet get_tasks.
Proof. intros s r s' [= _ <-]. now split. Qed.

Lemma quiet_set_tasks l : quiet (set_tasks l).
Proof. intros s r s' [= _ <-]. now split. Qed.

Lemma quiet_now : quiet now.
Proof. intros s r s' [= _ <-]. now split. Qed.

Lemma quiet_find i : quiet (find_by_id i).
Proof.
  intros s r s' E. pose proof (find_by_id_reads i s) as H.
  rewrite E in H. cbn in H. now subst.
Qed.

Lemma quiet_assign k f : quiet (assign k f).
Proof. intros s r s' [= _ <-]. now split. Qed.

Lemma quiet_when {A} (o : option A) (f : A -> M unit) :
  (forall a, quiet (f a)) -> quiet (when o f).
Proof. intros H. destruct o; [apply H | apply quiet_ret]. Qed.

Lemma quiet_read p : quiet (read_json p).
Proof.
  intros s r s' E. unfold read_json in E. revert E. step.
  destruct (disk (world s) !! p) as [[| |v]|]; intros [= _ <-]; now split.
Qed.

Lemma quiet_try {A} (m : M A) (h : exn -> M A) :
  quiet m -> (forall e, quiet (h e)) -> quiet (try_except m h).
Proof.
  intros Hm Hh s r s' E. unfold try_except in E.
  destruct (m s) as [[a|e] s1] eqn:Em.
  - injection E as <- <-. exact (Hm _ _ _ Em).
  - destruct (Hm _ _ _ Em) as [H1 H2]. destruct (Hh e _ _ _ E) as [H3 H4].
    split; congruence.
Qed.

Ltac quiet_steps :=
  repeat match goal with
    | |- quiet (ret _) => apply quiet_ret
    | |- quiet (raise _ _) => apply quiet_raise
    | |- quiet (lift _) => apply quiet_lift
    | |- quiet get_tasks => apply quiet_get_tasks
    | |- quiet (set_tasks _) => apply quiet_set_tasks
    | |- quiet now => apply quiet_now
    | |- quiet (find_by_id _) => apply quiet_find
    | |- quiet (assign _ _) => apply quiet_assign
    | |- quiet (read_json _) => apply quiet_read
    | |- quiet (when _ _) => apply quiet_when; intros
    | |- quiet (try_except _ _) => apply quiet_try; intros
    | |- quiet (bind _ _) => apply quiet_bind; intros
    | |- quiet (if ?b then _ else _) => destruct b
    | |- quiet (match ?x with _ => _ end) => destruct x
    end.

Lemma quiet_from_dict d : quiet (from_dict d).
Proof. unfold from_dict. quiet_steps. Qed.

Lemma quiet_mapM {A B} (f : A -> M B) (l : list A) :
  (forall a, quiet (f a)) -> quiet (mapM f l).
Proof. intros H. induction l as [|x l IH]; cbn [mapM]; quiet_steps; auto. Qed.

Lemma quiet_renumber b i new : quiet (renumber b i new).
Proof.
  revert i. induction new as [|t new IH]; intros i; cbn [renumber]; quiet_steps. apply IH.
Qed.

Lemma returns_ret {A} (a : A) : returns (ret a).
Proof. intros s. now exists a. Qed.

Lemma returns_deref k t : returns (deref k t).
Proof. intros s. eexists. reflexivity. Qed.

Ltac fail_safe_steps :=
  repeat match goal with
    | |- fail_safe _save => apply fail_safe_save
    | |- fail_safe (bind _save _) =>
        apply fail_safe_then;
        [apply fail_safe_save | intros; first [apply returns_ret | apply returns_deref]]
    | |- fail_safe (try_except _ _) => apply fail_safe_try
    | |- fail_safe (bind _ _) =>
        apply fail_safe_bind;
        [solve [quiet_steps; auto using quiet_from_dict, quiet_mapM, quiet_renumber]
        | intros]
    end.

Lemma fail_safe_add ti de du tg : fail_safe (add ti de du tg).
Proof. unfold add. fail_safe_steps. Qed.

Lemma fail_safe_edit i ti de du tg : fail_safe (edit i ti de du tg).
Proof. unfold edit. fail_safe_steps. Qed.

Lemma fail_safe_toggle i : fail_safe (toggle_done i).
Proof. unfold toggle_done. fail_safe_steps. Qed.

Lemma fail_safe_delete val_eq i : fail_safe (delete val_eq i).
Proof. unfold delete. fail_safe_steps. Qed.

Lemma fail_safe_import p merge : fail_safe (import_file p merge).
Proof.
  unfold import_file. apply fail_safe_try. apply fail_safe_bind; [apply quiet_read|].
  intros data. destruct data; try (apply quiet_fail_safe, quiet_raise).
  apply fail_safe_bind; [apply quiet_mapM, quiet_from_dict|]. intros new.
  apply fail_safe_bind; [|intros; apply fail_safe_save].
  destruct merge; quiet_steps. apply quiet_renumber.
Qed.

(** X7: whenever [add], [edit], [toggle_done], [delete] or [import_file]
    raises, the file of the store is as it was before the call. *)
Theorem failed_mutation_keeps_file (val_eq : pyval -> pyval -> bool) (o : op)
    (s : State) :
  match fst (run_op val_eq o s) with
  | Ret _ => True
  | Raise _ =>
      disk (world (snd (run_op val_eq o s))) !! path (self s)
      = disk (world s) !! path (self s)
  end.
Proof.
  destruct (run_op val_eq o s) as [[[]|e] s'] eqn:E; cbn [fst snd]; [exact I|].
  assert (H : fail_safe (run_op val_eq o)).
  { destruct o; cbn [run_op].
    - apply fail_safe_then; [apply fail_safe_add | intros; apply returns_ret].
    - apply fail_safe_then; [apply fail_safe_edit | intros; apply returns_ret].
    - apply fail_safe_then; [apply fail_safe_toggle | intros; apply returns_ret].
    - apply fail_safe_delete.
    - apply fail_safe_import. }
  destruct (H s e s' E) as [H1 H2]. rewrite H2 in H1. exact H1.
Qed.

(** *** Loading what was saved *)

(** X8: a store opened on a file that a save has written holds the
    collection that was saved, and opening it writes nothing: no warning,
    no change on disk. *)
Theorem load_after_save (s : State) :
  in_sync s ->
  exists w,
    __init__ (path (self s)) (world s) = (Ret tt, mkState (self s) w)
    /\ disk w = disk (world s) /\ stderr w = stderr (world s).
Proof.
  intros [Hp _]. destruct s as [[p l] [d err ck tk]].
  cbn [self world path tasks disk stderr] in *.
  unfold __init__, _load. step. rewrite Hp. cbn [negb]. step. rewrite Hp. step.
  unfold dump. rewrite mapM_from_dict_dump. cbn. eexists. repeat split.
Qed.

(** *** [import_file] on a file it cannot use *)

Lemma import_refused (p : string) (merge : bool) (s : State) :
  importable p s = false ->
  exists msg n,
    import_file p merge s
    = (Raise (Exc IOError ("Failed to import DB: " +:+ msg)), tick_n n s).
Proof.
  unfold importable, import_file. step.
  destruct (disk (world s) !! p) as [[| |v]|] eqn:Ep; step;
    try (intros _; eexists _, 0%nat; rewrite tick_0; reflexivity).
  destruct v as [| | | |items|]; step;
    try (intros _; eexists _, 0%nat; rewrite tick_0; reflexivity).
  intros Hwf.
  destruct (mapM_from_dict_bad items s Hwf) as (msg & n & E). rewrite E.
  now eexists _, n.
Qed.

(** X9: [import_file] on a file that is missing, is a directory, is not
    JSON, is not a list, or has a record that cannot be rebuilt raises
    [IOError] (also where the record is at fault), and neither the
    collection nor the disk changes, whether it merges or replaces. *)
Theorem import_failure_changes_nothing (p : string) (merge : bool) (s : State) :
  if importable p s then True
  else exists msg n,
         import_file p merge s
         = (Raise (Exc IOError ("Failed to import DB: " +:+ msg)), tick_n n s).
Proof.
  destruct (importable p s) eqn:H; [exact I|]. now apply import_refused.
Qed.

(** X10: [import_file] without merge replaces the collection by the tasks
    rebuilt from the records of the file, in their order and under the ids
    the file gives them, and saves. *)
Theorem import_replace_takes_file (p : string) (items : list pyval) (s : State) :
  disk (world s) !! p = Some (Json (PList items)) ->
  forallb well_formed items = true ->
  let rs := import_file p false s in
  Forall2 (fun d t => exists stamp, rebuilt stamp d t) items (tasks (self (snd rs)))
  /\ saved s (fst rs) tt.
Proof.
  intros Hp Hwf. cbv zeta.
  destruct (import_run p false items s Hp Hwf)
    as (r & w & l & new & _ & Hl & _ & _ & E & Hs).
  rewrite E. cbn. split; assumption.
Qed.

(** *** [export] *)


(** *** What [edit] and [toggle_done] never change *)

Lemma map_insert_same {B} (f : Task -> B) (l : list Task) (k : nat) (t t' : Task) :
  l !! k = Some t -> f t' = f t -> List.map f (<[k := t']> l) = List.map f l.
Proof.
  intros Hk E. change List.map with (@fmap list _).
  rewrite list_fmap_insert, E. apply list_insert_id.
  now rewrite list_lookup_fmap, Hk.
Qed.

Lemma edit_absent (i : Z) ti de du tg (s : State) :
  index_of i (tasks (self s)) = None ->
  edit i ti de du tg s
  = (Raise (Exc LookupError ("Task with id " +:+ repr_int i +:+ " not found")), s).
Proof.
  intros H. unfold edit. unfold bind at 1. now rewrite (find_by_id_absent i s H).
Qed.

(** X13: neither [edit] nor [toggle_done] ever changes an id or a
    creation time, or the number or order of the tasks; [edit] never
    changes a done flag, and [toggle_done] changes nothing but done
    flags. *)
Theorem edit_and_toggle_keep_identity (i : Z) (title_ description_ due_ : option string)
    (tags_ : option (list string)) (s : State) :
  let l := tasks (self s) in
  let l1 := tasks (self (snd (edit i title_ description_ due_ tags_ s))) in
  let l2 := tasks (self (snd (toggle_done i s))) in
  (List.map id l1 = List.map id l /\ List.map created_at l1 = List.map created_at l
   /\ List.map done l1 = List.map done l)
  /\ (List.map id l2 = List.map id l /\ List.map created_at l2 = List.map created_at l
      /\ List.map title l2 = List.map title l
      /\ List.map description l2 = List.map description l
      /\ List.map due l2 = List.map due l /\ List.map tags l2 = List.map tags l).
Proof.
  cbv zeta. destruct (index_of i (tasks (self s))) as [k|] eqn:Hk.
  - destruct (index_of_lookup i _ k Hk) as (t & Ht & _).
    destruct (edit_run i title_ description_ due_ tags_ s k t Hk Ht) as (r & w & E & _).
    destruct (toggle_run i s k t Hk Ht) as (r' & w' & E' & _).
    rewrite E, E'. cbn [snd self tasks].
    repeat split; apply (map_insert_same _ _ _ t); try assumption;
      destruct (bad_date due_); reflexivity.
  - rewrite (edit_absent i _ _ _ _ s Hk), (toggle_absent i s Hk). cbn.
    repeat split.
Qed.

(** *** Ids along any sequence of operations *)

Lemma edit_keeps_ids (i : Z) ti de du tg (s : State) :
  ids (tasks (self (snd (edit i ti de du tg s)))) = ids (tasks (self s)).
Proof.
  destruct (index_of i (tasks (self s))) as [k|] eqn:Hk.
  - destruct (index_of_lookup i _ k Hk) as (t & Ht & _).
    destruct (edit_run i ti de du tg s k t Hk Ht) as (r & w & E & _).
    rewrite E. cbn [snd self tasks]. apply (ids_insert _ _ t); [exact Ht|].
    destruct (bad_date du); reflexivity.
  - now rewrite (edit_absent i _ _ _ _ s Hk).
Qed.

Lemma toggle_keeps_ids (i : Z) (s : State) :
  ids (tasks (self (snd (toggle_done i s)))) = ids (tasks (self s)).
Proof.
  destruct (index_of i (tasks (self s))) as [k|] eqn:Hk.
  - destruct (index_of_lookup i _ k Hk) as (t & Ht & _).
    destruct (toggle_run i s k t Hk Ht) as (r & w & E & _).
    rewrite E. cbn [snd self tasks]. now apply (ids_insert _ _ t).
  - now rewrite (toggle_absent i s Hk).
Qed.

Lemma next_id_positive (l : list Task) :
  Forall (fun i => 0 < i) (ids l) -> 0 < _next_id l.
Proof.
  intros H. pose proof (next_id_is_max l) as Hm. destruct l as [|t l]; [cbn in *; lia|].
  destruct Hm as [Hin _]. rewrite Forall_forall in H. specialize (H _ Hin). lia.
Qed.

Lemma distinct_positive_sub (l : list Task) (k : nat) :
  distinct_positive l -> distinct_positive (take k l ++ drop (S k) l).
Proof.
  intros [Hnd Hpos]. unfold distinct_positive. rewrite ids_take_drop.
  rewrite <- delete_take_drop. split.
  - eapply sublist_NoDup; [exact Hnd | apply sublist_delete].
  - rewrite delete_take_drop. apply Forall_app.
    split; [now apply Forall_take | now apply Forall_drop].
Qed.

Lemma distinct_positive_app (l new : list Task) (n : nat) :
  distinct_positive l -> ids new = seqZ (_next_id l) (Z.of_nat n) ->
  distinct_positive (l ++ new).
Proof.
  intros [Hnd Hpos] Hids. pose proof (next_id_positive l Hpos) as Hnext.
  pose proof (next_id_above l) as Habove.
  unfold distinct_positive, ids in *. change List.map with (@fmap list _) in *.
  rewrite fmap_app, Hids. split.
  - apply NoDup_app. split; [exact Hnd|]. split; [|apply NoDup_seqZ].
    intros x Hx Hx'. apply list_elem_of_fmap in Hx as (u & -> & Hu).
    rewrite Forall_forall in Habove. specialize (Habove u Hu).
    apply elem_of_seqZ in Hx'. lia.
  - apply Forall_app. split; [exact Hpos|]. apply Forall_forall.
    intros x Hx. apply elem_of_seqZ in Hx. lia.
Qed.

Lemma run_op_keeps_ids (val_eq : pyval -> pyval -> bool) (o : op) (s : State) :
  keeps_ids o = true -> distinct_positive (tasks (self s)) ->
  distinct_positive (tasks (self (snd (run_op val_eq o s)))).
Proof.
  intros Hk Hinv. destruct o as [ti de du tg|i ti de du tg|i|i|p merge]; cbn [run_op].
  - destruct (add_step (mkCall ti de du tg) s) as (r & s' & E & Hcase).
    unfold do_add in E. cbn [call_title call_description call_due call_tags] in E.
    unfold bind, ret. rewrite E.
    assert (Hs' : distinct_positive (tasks (self s'))).
    { destruct Hcase as [[-> _]|(t & -> & Hid & _)]; [exact Hinv|].
      apply (distinct_positive_app _ _ 1 Hinv). cbn. now rewrite Hid. }
    now destruct r.
  - pose proof (edit_keeps_ids i ti de du tg s) as H. unfold bind, ret.
    destruct (edit i ti de du tg s) as [[t|e] s']; cbn [snd] in *;
      unfold distinct_positive; now rewrite H.
  - pose proof (toggle_keeps_ids i s) as H. unfold bind, ret.
    destruct (toggle_done i s) as [[t|e] s']; cbn [snd] in *;
      unfold distinct_positive; now rewrite H.
  - destruct (index_of i (tasks (self s))) as [k|] eqn:Hi.
    + destruct (delete_run val_eq i s k Hi) as (r & w & E & _). rewrite E. cbn.
      now apply distinct_positive_sub.
    + now rewrite (delete_absent val_eq i s Hi).
  - destruct merge; [|discriminate].
    destruct (importable p s) eqn:Himp;
      [|destruct (import_refused p true s Himp) as (msg & n & ->); exact Hinv].
    unfold importable in Himp.
    destruct (disk (world s) !! p) as [[| |[| | | |items|]]|] eqn:Ep;
      try discriminate.
    destruct (import_run p true items s Ep Himp)
      as (r & w & l & new & _ & _ & _ & Hids & E & _).
    rewrite E. cbn. eapply distinct_positive_app; eassumption.
Qed.

(** X14: ids that are pairwise distinct and positive stay so along every
    sequence of additions, edits, toggles, deletions and merging imports,
    whichever of them fail. *)
Theorem ids_stay_distinct_and_positive (val_eq : pyval -> pyval -> bool)
    (ops : list op) (s : State) :
  forallb keeps_ids ops = true ->
  distinct_positive (tasks (self s)) ->
  distinct_positive (tasks (self (run_ops val_eq ops s))).
Proof.
  revert s. induction ops as [|o ops IH]; intros s Hk Hinv; [exact Hinv|].
  cbn [forallb] in Hk. apply andb_true_iff in Hk as [Ho Hk].
  cbn [run_ops]. apply IH; [exact Hk|]. now apply run_op_keeps_ids.
Qed.

(** *** [search], whatever the tags *)

Lemma str_items_bad (i : nat) (l : list pyval) :
  forallb is_text l = false -> exists msg, str_items i l = Raise (Exc TypeError msg).
Proof.
  revert i. induction l as [|v l IH]; intros i H; [discriminate|].
  cbn [forallb] in H. destruct v; cbn [is_text andb] in H;
    try (eexists; reflexivity).
  destruct (IH (S i) H) as [msg E]. exists msg. cbn [str_items]. now rewrite E.
Qed.

Lemma hit_cases (query : string) (t : Task) :
  if undecided query t
  then exists msg, hit (lower query) t = Raise (Exc TypeError msg)
  else exists b, hit (lower query) t = Ret b.
Proof.
  unfold undecided, hit.
  destruct (contains (lower query) (lower (title t))); [now eexists|].
  destruct (contains (lower query) (lower (description t))); [now eexists|].
  cbn [negb andb]. destruct (forallb is_text (tags t)) eqn:Ht; cbn [negb].
  - unfold str_join. rewrite (str_items_text _ _ Ht). now eexists.
  - unfold str_join. destruct (str_items_bad 0 _ Ht) as [msg ->]. now exists msg.
Qed.

Lemma hit_kept (q : string) (l r : list Task) :
  select q l = Ret r -> Forall (fun t => hit q t = Ret true) r /\ r `sublist_of` l.
Proof.
  revert r. induction l as [|t l IH]; intros r; cbn [select].
  - intros [= <-]. split; constructor.
  - destruct (hit q t) as [b|e] eqn:Hh; [|discriminate]. cbn [res_bind].
    destruct (select q l) as [r'|e]; [|discriminate]. cbn [res_bind].
    intros [= <-]. destruct (IH r' eq_refl) as [H1 H2].
    destruct b; [split; [now constructor | now apply sublist_skip]|].
    split; [exact H1 | now apply sublist_cons].
Qed.

Lemma select_kept (q : string) (r : list Task) :
  Forall (fun t => hit q t = Ret true) r -> select q r = Ret r.
Proof.
  induction 1 as [|t r Ht _ IH]; [reflexivity|]. cbn [select]. now rewrite Ht, IH.
Qed.

(** X11: [search] returns a part of the collection, in its order, and
    searching the result again for the same query gives the same result;
    it raises, and then [TypeError], exactly when some task has neither
    the query in its title or description nor tags that are all text. *)
Theorem search_outcome (query : string) (l : list Task) :
  match search query l with
  | Ret r =>
      existsb (undecided query) l = false
      /\ r `sublist_of` l /\ search query r = Ret r
  | Raise e => exc_cls e = TypeError /\ existsb (undecided query) l = true
  end.
Proof.
  unfold search. cbv zeta.
  assert (H : match select (lower query) l with
              | Ret r => existsb (undecided query) l = false
              | Raise e => exc_cls e = TypeError /\ existsb (undecided query) l = true
              end).
  { induction l as [|t l IH]; [reflexivity|]. cbn [select existsb].
    pose proof (hit_cases query t) as Ht.
    destruct (undecided query t).
    - destruct Ht as [msg ->]. now split.
    - destruct Ht as [b ->]. cbn [res_bind orb].
      destruct (select (lower query) l); cbn [res_bind]; exact IH. }
  destruct (select (lower query) l) as [r|e] eqn:E; [|exact H].
  destruct (hit_kept _ _ _ E) as [H1 H2].
  repeat split; try assumption. now apply select_kept.
Qed.

(** *** [Task.from_dict], again *)

(** X15: [from_dict] either rebuilds the record, reading the clock once,
    or raises [ValueError] with a message that starts "Invalid task
    data: ", whatever went wrong; nothing else changes. *)
Theorem from_dict_outcome (d : pyval) (s : State) :
  if well_formed d
  then exists t,
         from_dict d s = (Ret t, tick_n 1 s)
         /\ rebuilt (clock (world s) (ticks (world s))) d t
  else exists msg n,
         from_dict d s
         = (Raise (Exc ValueError ("Invalid task data: " +:+ msg)), tick_n n s)
         /\ (n <= 1)%nat.
Proof.
  destruct (well_formed d) eqn:Hwf; [now apply from_dict_ok|].
  destruct s as [db [dk err ck tk]]. unfold from_dict.
  destruct d as [| | | |l|items];
    try (step; cbn [getitem]; eexists _, 0%nat; split; [reflexivity | lia]).
  unfold well_formed in Hwf. step. cbn [getitem get].
  destruct (assoc "id" items) as [vid|] eqn:Eid;
    [|eexists _, 0%nat; split; [reflexivity | lia]].
  destruct (int vid) as [n|] eqn:En; [|eexists _, 0%nat; split; [reflexivity | lia]].
  destruct (assoc "title" items) as [vt|] eqn:Et;
    [|eexists _, 0%nat; split; [reflexivity | lia]].
  cbn [andb] in Hwf.
  destruct (assoc "tags" items) as [v|]; [|discriminate].
  destruct (assoc "description" items), (assoc "created_at" items), (assoc "due" items);
    destruct v; try discriminate; cbn; eexists _, 1%nat; (split; [reflexivity | lia]).
Qed.

Lemma assoc_skip (k k' : string) (v : pyval) (pre post : list (string * pyval)) :
  k <> k' -> assoc k (pre ++ (k', v) :: post) = assoc k (pre ++ post).
Proof.
  intros Hne. induction pre as [|[k0 v0] pre IH]; cbn [app assoc].
  - destruct (String.eqb_spec k k'); [contradiction | reflexivity].
  - now rewrite IH.
Qed.

(** X16: a key of a record that is none of the seven [from_dict] reads
    makes no difference to what it does. *)
Theorem from_dict_ignores_unknown_keys (k : string) (v : pyval)
    (pre post : list (string * pyval)) (s : State) :
  mem k known_keys = false ->
  from_dict (PDict (pre ++ (k, v) :: post)) s = from_dict (PDict (pre ++ post)) s.
Proof.
  intros Hk.
  assert (Hskip : forall k0, mem k0 known_keys = true ->
                    assoc k0 (pre ++ (k, v) :: post) = assoc k0 (pre ++ post)).
  { intros k0 H0. apply assoc_skip. intros ->. congruence. }
  unfold from_dict, getitem, get.
  rewrite !Hskip by reflexivity. reflexivity.
Qed.

(** *** [add], in full *)

(** X17: [add] with a refused date raises [ValueError] with the date in
    the message and changes nothing; otherwise it appends one task with
    the next id, the title, description and date as given, the tags given
    or none, the time of the clock, not done, and saves, the task staying
    in memory when the save fails. *)
Theorem add_outcome (title_ description_ : string) (due_ : option string)
    (tags_ : option (list string)) (s : State) :
  let rs := add title_ description_ due_ tags_ s in
  let t := mkTask (_next_id (tasks (self s))) title_ description_
             (clock (world s) (ticks (world s))) (due_value due_)
             (List.map PStr (match tags_ with Some l => l | None => [] end)) false in
  if bad_date due_
  then snd rs = s
       /\ exists d, due_ = Some d
            /\ fst rs = Raise (Exc ValueError
                                 ("Date must be in YYYY-MM-DD format, got '" +:+ d +:+ "'"))
  else tasks (self (snd rs)) = tasks (self s) ++ [t]
       /\ path (self (snd rs)) = path (self s)
       /\ saved s (fst rs) t.
Proof.
  cbv zeta. unfold bad_date.
  assert (Hok : match due_ with
                | Some d => d = "" \/ _validate_date d = Ret tt
                | None => True
                end ->
                tasks (self (snd (add title_ description_ due_ tags_ s)))
                = tasks (self s)
                  ++ [mkTask (_next_id (tasks (self s))) title_ description_
                        (clock (world s) (ticks (world s))) (due_value due_)
                        (List.map PStr (match tags_ with Some l => l | None => [] end))
                        false]
                /\ path (self (snd (add title_ description_ due_ tags_ s))) = path (self s)
                /\ saved s (fst (add title_ description_ due_ tags_ s))
                     (mkTask (_next_id (tasks (self s))) title_ description_
                        (clock (world s) (ticks (world s))) (due_value due_)
                        (List.map PStr (match tags_ with Some l => l | None => [] end))
                        false)).
  { intros H. destruct (add_run title_ description_ due_ tags_ s H) as (r & w & E & Hs).
    cbv zeta in E. rewrite E. cbn [fst snd self tasks path]. repeat split. exact Hs. }
  destruct due_ as [d|]; [|now apply Hok].
  destruct (String.eqb_spec d "") as [->|Hne]; cbn [negb andb];
    [apply Hok; now left|].
  destruct (_validate_date d) as [[]|e] eqn:Ev; [apply Hok; now right|].
  rewrite (add_invalid_date _ _ d _ e s Hne Ev). cbn [fst snd].
  split; [reflexivity|]. exists d. split; [reflexivity|].
  now rewrite (_validate_date_raises d e Ev).
Qed.

(** *** [edit], twice *)

Lemma edited_twice ti de du tg (t : Task) :
  edited ti de du tg (edited ti de du tg t) = edited ti de du tg t.
Proof. destruct ti, de, du, tg; reflexivity. Qed.

(** X18: [edit] called again with the same arguments changes nothing
    more in the collection. *)
Theorem edit_twice (i : Z) (title_ description_ due_ : option string)
    (tags_ : option (list string)) (s : State) :
  let s1 := snd (edit i title_ description_ due_ tags_ s) in
  let s2 := snd (edit i title_ description_ due_ tags_ s1) in
  tasks (self s2) = tasks (self s1).
Proof.
  cbv zeta. destruct (index_of i (tasks (self s))) as [k|] eqn:Hk.
  - destruct (index_of_lookup i _ k Hk) as (t & Ht & Hid).
    destruct (edit_run i title_ description_ due_ tags_ s k t Hk Ht) as (r & w & E & _).
    rewrite E. cbn [snd].
    set (l := tasks (self s)) in *.
    set (t1 := if bad_date due_ then edited title_ description_ None None t
               else edited title_ description_ due_ tags_ t) in *.
    assert (Hid1 : id t1 = id t) by (subst t1; now destruct (bad_date due_)).
    assert (Ht1 : <[k := t1]> l !! k = Some t1).
    { apply list_lookup_insert_eq. eapply lookup_lt_Some, Ht. }
    assert (Hk1 : index_of i (<[k := t1]> l) = Some k).
    { rewrite <- Hk. apply index_of_ids. now apply (ids_insert l k t t1). }
    match goal with |- context [edit i _ _ _ _ ?S] =>
      destruct (edit_run i title_ description_ due_ tags_ S k t1 Hk1 Ht1)
        as (r' & w' & E' & _); rewrite E' end.
    cbn [snd self tasks]. rewrite list_insert_insert_eq. f_equal.
    subst t1. destruct (bad_date due_); apply edited_twice.
  - now rewrite !(edit_absent i _ _ _ _ s Hk).
Qed.

(** *** Ids after a deletion *)

(** X19: the id of the newest task is given out again once that task is
    deleted: after [add], [delete] of the new id and [add], the second
    task has the id the first one had. *)
Theorem deleted_id_is_given_again (val_eq : pyval -> pyval -> bool)
    (title_ description_ : string) (tags_ : option (list string))
    (title' description' : string) (tags' : option (list string)) (s : State) :
  let rs1 := add title_ description_ None tags_ s in
  let s2 := snd (delete val_eq (_next_id (tasks (self s))) (snd rs1)) in
  let s3 := snd (add title' description' None tags' s2) in
  tasks (self s2) = tasks (self s)
  /\ exists t t',
       tasks (self (snd rs1)) = tasks (self s) ++ [t]
       /\ tasks (self s3) = tasks (self s) ++ [t'] /\ id t' = id t.
Proof.
  cbv zeta.
  destruct (add_run title_ description_ None tags_ s I) as (r1 & w1 & E1 & _).
  cbv zeta in E1.
  assert (Ht1 : tasks (self (snd (add title_ description_ None tags_ s)))
                = tasks (self s)
                  ++ [mkTask (_next_id (tasks (self s))) title_ description_
                        (clock (world s) (ticks (world s))) PNone
                        (List.map PStr (match tags_ with Some l => l | None => [] end))
                        false]) by now rewrite E1.
  clear E1.
  set (s1 := snd (add title_ description_ None tags_ s)) in *.
  set (l := tasks (self s)) in *.
  match type of Ht1 with _ = _ ++ [?x] => set (t := x) in * end.
  assert (Habove : Forall (fun u => id u < id t) l) by apply next_id_above.
  pose proof (index_of_snoc_fresh l t Habove) as Hidx. rewrite <- Ht1 in Hidx.
  destruct (delete_run val_eq (id t) s1 _ Hidx) as (r & w & E & _).
  change (id t) with (_next_id l) in E. rewrite E. cbn [snd].
  rewrite Ht1, take_app_length, drop_ge by (rewrite length_app; cbn; lia).
  rewrite app_nil_r. split; [reflexivity|].
  match goal with |- context [add title' description' None tags' ?S] =>
    destruct (add_run title' description' None tags' S I) as (r3 & w3 & E3 & _) end.
  cbv zeta in E3. rewrite E3. cbn [snd self tasks].
  eexists t, _. split; [reflexivity|]. split; reflexivity.
Qed.

(** *** The properties above on the samples *)

Lemma delete_then_find_fails_witness :
  let s' := snd (delete sample_eq 1 sample_state) in
  (1 ∉ ids (tasks (self s')))
  /\ Forall (fun u => id u = 1 \/ u ∈ tasks (self s')) (tasks (self sample_state))
  /\ find_by_id 1 s'
     = (Raise (Exc LookupError ("Task with id " +:+ repr_int 1 +:+ " not found")), s').
Proof.
  assert (Hnd : NoDup (ids (tasks (self sample_state)))).
  { vm_compute. apply NoDup_singleton. }
  assert (Hin : 1 ∈ ids (tasks (self sample_state))).
  { vm_compute. apply elem_of_cons. left. reflexivity. }
  exact (delete_then_find_fails sample_eq 1 sample_state Hnd Hin).
Defined.

Lemma load_after_save_witness :
  exists w,
    __init__ (path (self sample_saved_state)) (world sample_saved_state)
    = (Ret tt, mkState (self sample_saved_state) w)
    /\ disk w = disk (world sample_saved_state)
    /\ stderr w = stderr (world sample_saved_state).
Proof.
  assert (H : in_sync sample_saved_state).
  { split; vm_compute; reflexivity. }
  exact (load_after_save sample_saved_state H).
Defined.

Lemma import_replace_takes_file_witness :
  let rs := import_file "backup.json" false sample_import_state in
  Forall2 (fun d t => exists stamp, rebuilt stamp d t)
    [PDict [("id", PInt 1); ("title", PStr "Pay rent")];
     PDict [("id", PInt 1); ("title", PStr "Call home"); ("done", PBool true)]]
    (tasks (self (snd rs)))
  /\ saved sample_import_state (fst rs) tt.
Proof.
  assert (Hp : disk (world sample_import_state) !! "backup.json"
               = Some (Json (PList
                    [PDict [("id", PInt 1); ("title", PStr "Pay rent")];
                     PDict [("id", PInt 1); ("title", PStr "Call home");
                            ("done", PBool true)]]))) by (vm_compute; reflexivity).
  assert (Hwf : forallb well_formed
                  [PDict [("id", PInt 1); ("title", PStr "Pay rent")];
                   PDict [("id", PInt 1); ("title", PStr "Call home");
                          ("done", PBool true)]] = true) by (vm_compute; reflexivity).
  exact (import_replace_takes_file "backup.json" _ sample_import_state Hp Hwf).
Defined.

Lemma ids_stay_distinct_and_positive_witness :
  distinct_positive (tasks (self (run_ops sample_eq sample_ops sample_import_state))).
Proof.
  assert (Hk : forallb keeps_ids sample_ops = true) by reflexivity.
  assert (Hinv : distinct_positive (tasks (self sample_import_state))).
  { split; vm_compute; [apply NoDup_singleton | repeat constructor]. }
  exact (ids_stay_distinct_and_positive sample_eq sample_ops sample_import_state Hk Hinv).
Defined.

Lemma from_dict_ignores_unknown_keys_witness :
  from_dict (PDict (sample_record_head ++ ("colour", PStr "red") :: sample_record_tail))
    sample_state
  = from_dict (PDict (sample_record_head ++ sample_record_tail)) sample_state.
Proof.
  assert (H : mem "colour" known_keys = false) by reflexivity.
  exact (from_dict_ignores_unknown_keys "colour" (PStr "red") sample_record_head
           sample_record_tail sample_state H).
Defined.

End StoreFacts.

(** *** The command line *)

Module CliFacts.
Import Py Todo Cli Spec CliSpec StringFacts DateFacts TodoFacts StoreFacts.
Local Open Scope string_scope.
Local Open Scope list_scope.
Local Open Scope Z_scope.
Local Open Scope py_scope.

Ltac pstep :=
  cbv beta iota zeta delta [pbind pret call print];
  cbn [st stdout fst snd].

(** *** [print_task] *)

Lemma str_join_text (sep : string) (l : list pyval) :
  forallb is_text l = true -> str_join sep l = Ret (join sep (List.map tag_text l)).
Proof. intros H. unfold str_join. now rewrite (str_items_text _ _ H). Qed.

Lemma str_join_bad (sep : string) (l : list pyval) :
  forallb is_text l = false -> exists msg, str_join sep l = Raise (Exc TypeError msg).
Proof.
  intros H. unfold str_join. destruct (str_items_bad 0 l H) as [msg ->]. now exists msg.
Qed.

Lemma print_task_run (t : Task) (pr : Proc) :
  printable t = true ->
  print_task t pr = (Ret tt, mkProc (st pr) (stdout pr ++ task_lines t)).
Proof.
  unfold printable. intros H. unfold print_task, task_lines, task_line.
  destruct (tags t) as [|v l] eqn:Et.
  - pstep. destruct (String.eqb (description t) ""); cbn [negb]; pstep;
      first [reflexivity | now rewrite <- app_assoc].
  - pstep. unfold lift. rewrite (str_join_text _ _ H). pstep.
    destruct (String.eqb (description t) ""); cbn [negb]; pstep;
      first [reflexivity | now rewrite <- app_assoc].
Qed.

Lemma print_task_fail (t : Task) (pr : Proc) :
  printable t = false ->
  exists msg, print_task t pr = (Raise (Exc TypeError msg), pr).
Proof.
  unfold printable. intros H. unfold print_task.
  destruct (tags t) as [|v l] eqn:Et; [discriminate|].
  destruct (str_join_bad "," _ H) as [msg E]. exists msg.
  pstep. unfold lift. rewrite E. now destruct pr.
Qed.

Lemma spaces_blank (n : nat) :
  Forall (fun c => c = " "%char) (list_ascii_of_string (spaces n))
  /\ String.length (spaces n) = n.
Proof.
  induction n as [|n [IH1 IH2]]; cbn [spaces list_ascii_of_string String.length].
  - split; [constructor | reflexivity].
  - split; [now constructor | now rewrite IH2].
Qed.

Lemma format_3d_aligned (z : Z) : right_aligned 3 (repr_int z) (format_3d z).
Proof.
  unfold format_3d. cbv zeta. exists (spaces (3 - String.length (repr_int z))).
  destruct (spaces_blank (3 - String.length (repr_int z))) as [H1 H2].
  split; [reflexivity|]. split; [exact H1|]. rewrite length_append, H2. lia.
Qed.

Lemma task_line_shown (t : Task) : task_line t = format_3d (id t) +:+ shown t.
Proof.
  unfold task_line, shown. rewrite <- join_separated.
  destruct (done t); reflexivity.
Qed.

(** X22: for a task whose tags are all text, [print_task] writes one
    line: the id flush right on three columns (more if it is longer), a
    full stop, the mark of what is done, the title, the date if it is not
    empty, and the tags with commas between them if there are any; and it
    writes a second line, the description after five blanks, if the
    description is not empty. For a task with a tag that is not text it
    raises [TypeError] and has written nothing. *)
Theorem print_task_outcome (t : Task) (pr : Proc) :
  if printable t
  then exists field,
         right_aligned 3 (repr_int (id t)) field
         /\ print_task t pr
            = (Ret tt,
               mkProc (st pr)
                 (stdout pr
                    ++ (field +:+ shown t)
                       :: (if String.eqb (description t) "" then []
                           else ["     " +:+ description t])))
  else exists msg, print_task t pr = (Raise (Exc TypeError msg), pr).
Proof.
  destruct (printable t) eqn:H; [|now apply print_task_fail].
  exists (format_3d (id t)). split; [apply format_3d_aligned|].
  rewrite (print_task_run t pr H). unfold task_lines. now rewrite task_line_shown.
Qed.

Lemma for_each_print_ok (l : list Task) (pr : Proc) :
  forallb printable l = true ->
  for_each print_task l pr
  = (Ret tt, mkProc (st pr) (stdout pr ++ flat_map task_lines l)).
Proof.
  revert pr. induction l as [|t l IH]; intros pr H; cbn [for_each flat_map].
  - unfold pret. rewrite app_nil_r. now destruct pr.
  - cbn [forallb] in H. apply andb_true_iff in H as [Ht Hl].
    unfold pbind. rewrite (print_task_run t pr Ht), (IH _ Hl). cbn [st stdout].
    now rewrite <- app_assoc.
Qed.

Lemma for_each_print_fail (l : list Task) (pr : Proc) :
  forallb printable l = false ->
  exists msg pr',
    for_each print_task l pr = (Raise (Exc TypeError msg), pr') /\ st pr' = st pr.
Proof.
  revert pr. induction l as [|t l IH]; intros pr H; cbn [for_each]; [discriminate|].
  cbn [forallb] in H. unfold pbind. destruct (printable t) eqn:Ht.
  - rewrite (print_task_run t pr Ht). cbn [andb] in H.
    destruct (IH (mkProc (st pr) (stdout pr ++ task_lines t)) H) as (msg & pr' & E & Hs).
    exists msg, pr'. now split.
  - destruct (print_task_fail t pr Ht) as [msg E]. rewrite E. now exists msg, pr.
Qed.

(** *** [fetch_quote_of_the_day] *)




(** *** Opening the store *)

Lemma blind_ret {A} (a : A) : blind (ret a).
Proof. intros s1 s2 H. now split. Qed.

Lemma blind_raise {A} c msg : blind (@raise A c msg).
Proof. intros s1 s2 H. now split. Qed.

Lemma blind_lift {A} (x : res A) : blind (lift x).
Proof. intros s1 s2 H. now split. Qed.

Lemma blind_bind {A B} (m : M A) (k : A -> M B) :
  blind m -> (forall a, blind (k a)) -> blind (bind m k).
Proof.
  intros Hm Hk s1 s2 H. unfold bind. destruct (Hm s1 s2 H) as [E1 E2].
  destruct (m s1) as [[a|e] t1], (m s2) as [[a'|e'] t2]; cbn [fst snd] in *;
    try discriminate.
  - injection E1 as <-. exact (Hk a t1 t2 E2).
  - injection E1 as <-. now split.
Qed.

Lemma blind_try {A} (m : M A) (h : exn -> M A) :
  blind m -> (forall e, blind (h e)) -> blind (try_except m h).
Proof.
  intros Hm Hh s1 s2 H. unfold try_except. destruct (Hm s1 s2 H) as [E1 E2].
  destruct (m s1) as [[a|e] t1], (m s2) as [[a'|e'] t2]; cbn [fst snd] in *;
    try discriminate.
  - injection E1 as <-. now split.
  - injection E1 as <-. exact (Hh e t1 t2 E2).
Qed.

Ltac blind_prim :=
  intros [db1 [d1 e1 c1 t1]] [db2 [d2 e2 c2 t2]] (H1 & H2 & H3 & H4);
  cbn [self world disk clock ticks] in *; subst;
  cbv beta iota zeta delta
    [bind ret raise get_tasks get_path set_tasks set_world get_disk set_disk
     exists_ read_json print_stderr now same_but_stderr];
  cbn [self world path tasks disk stderr clock ticks fst snd].

Lemma blind_now : blind now.
Proof. blind_prim. repeat split. Qed.

Lemma blind_get_path : blind get_path.
Proof. blind_prim. repeat split. Qed.

Lemma blind_set_tasks l : blind (set_tasks l).
Proof. blind_prim. repeat split. Qed.

Lemma blind_exists p : blind (exists_ p).
Proof. blind_prim. repeat split. Qed.

Lemma blind_read p : blind (read_json p).
Proof. blind_prim. destruct (d2 !! p) as [[| |v]|]; repeat split. Qed.

Lemma blind_print line : blind (print_stderr line).
Proof. blind_prim. repeat split. Qed.

Ltac blind_steps :=
  repeat match goal with
    | |- blind (ret _) => apply blind_ret
    | |- blind (raise _ _) => apply blind_raise
    | |- blind (lift _) => apply blind_lift
    | |- blind now => apply blind_now
    | |- blind get_path => apply blind_get_path
    | |- blind (set_tasks _) => apply blind_set_tasks
    | |- blind (exists_ _) => apply blind_exists
    | |- blind (read_json _) => apply blind_read
    | |- blind (print_stderr _) => apply blind_print
    | |- blind (try_except _ _) => apply blind_try; intros
    | |- blind (bind _ _) => apply blind_bind; intros
    | |- blind (if ?b then _ else _) => destruct b
    | |- blind (match ?x with _ => _ end) => destruct x
    end.

Lemma blind_from_dict d : blind (from_dict d).
Proof. unfold from_dict. blind_steps. Qed.

Lemma blind_mapM {A B} (f : A -> M B) (l : list A) :
  (forall a, blind (f a)) -> blind (mapM f l).
Proof. intros H. induction l as [|x l IH]; cbn [mapM]; blind_steps; auto. Qed.

Lemma blind_load : blind _load.
Proof. unfold _load. blind_steps. apply blind_mapM, blind_from_dict. Qed.

Lemma quiet_print line : quiet (print_stderr line).
Proof. intros s r s' [= _ <-]. now split. Qed.

Lemma quiet_get_path : quiet get_path.
Proof. intros s r s' [= _ <-]. now split. Qed.

Lemma quiet_exists p : quiet (exists_ p).
Proof. intros s r s' [= _ <-]. now split. Qed.

Lemma quiet_load : quiet _load.
Proof.
  unfold _load.
  repeat match goal with
    | |- quiet get_path => apply quiet_get_path
    | |- quiet (exists_ _) => apply quiet_exists
    | |- quiet (print_stderr _) => apply quiet_print
    | |- quiet (mapM _ _) => apply quiet_mapM, quiet_from_dict
    | |- _ => progress quiet_steps
    end.
Qed.

Lemma load_returns (s : State) : fst (_load s) = Ret tt.
Proof.
  destruct s as [[p l] [d err ck tk]]. unfold _load. step.
  destruct (d !! p) as [[| |v]|] eqn:Ep; cbn [negb]; step; rewrite ?Ep; step;
    try reflexivity.
  destruct v as [| | | |items|]; step; try reflexivity.
  match goal with |- context [mapM from_dict items ?S] =>
    destruct (mapM from_dict items S) as [[l'|e] s'] end; step;
    [reflexivity|].
  destruct (issubclass (exc_cls e) JSONDecodeError || issubclass (exc_cls e) ValueError);
    reflexivity.
Qed.

Lemma opened_ok (db : string) (w : World) :
  __init__ db w = (Ret tt, opened db w)
  /\ path (self (opened db w)) = db /\ disk (world (opened db w)) = disk w.
Proof.
  unfold opened, __init__.
  pose proof (load_returns (mkState (mkDB db []) w)) as Hr.
  destruct (_load (mkState (mkDB db []) w)) as [r s] eqn:E. cbn [fst snd] in *. subst r.
  destruct (quiet_load _ _ _ E) as [Hd Hp]. repeat split; assumption.
Qed.

Lemma opened_blind (db : string) (line : string) (w : World) :
  same_but_stderr (opened db (to_stderr line w)) (opened db w).
Proof.
  unfold opened, __init__. apply blind_load. now repeat split.
Qed.


(** *** The subcommands *)


Lemma pbind_call {A B} (m : M A) (k : A -> P B) (pr : Proc) :
  pbind (call m) k pr
  = match m (st pr) with
    | (Ret a, s') => k a (mkProc s' (stdout pr))
    | (Raise e, s') => (Raise e, mkProc s' (stdout pr))
    end.
Proof. unfold pbind, call. now destruct (m (st pr)) as [[a|e] s']. Qed.



Lemma saved_code {A} (s : State) (r : res A) (a : A) :
  saved s r a ->
  match r with
  | Ret a' => a' = a /\ can_save s = true
  | Raise e => code_of r = 5 /\ can_save s = false
  end.
Proof.
  destruct r as [a'|e]; cbn [saved]; [tauto|]. intros [Hc Hs]. split; [|exact Hs].
  cbn [fst]. unfold code_of. now rewrite Hc.
Qed.

Lemma printable_new (l : list string) (i : Z) ti de st0 du dn :
  printable (mkTask i ti de st0 du (List.map PStr l) dn) = true.
Proof. unfold printable. cbn [tags]. now induction l. Qed.



Section Commands.
Variable val_eq : pyval -> pyval -> bool.
Variable dash : string.
Variable reply : response.


End Commands.

(** *** What a failing subcommand leaves behind *)

Lemma print_task_shows (t : Task) (pr : Proc) :
  st (snd (print_task t pr)) = st pr
  /\ match fst (print_task t pr) with
     | Ret _ => True
     | Raise e => exc_cls e = TypeError
     end.
Proof.
  destruct (printable t) eqn:Ht.
  - rewrite (print_task_run t pr Ht). now split.
  - destruct (print_task_fail t pr Ht) as [msg ->]. now split.
Qed.

Lemma shows_titled (head : string) :
  shows (fun task => pbind (print head) (fun _ => print_task task)).
Proof.
  intros t pr. unfold pbind, print.
  exact (print_task_shows t (mkProc (st pr) (stdout pr ++ [head]))).
Qed.

Lemma shows_each (none : string) :
  shows (fun l : list Task =>
           match l with
           | [] => print none
           | _ => for_each print_task l
           end).
Proof.
  intros l pr. destruct (forallb printable l) eqn:Hl.
  - destruct l as [|t l]; [now split|]. rewrite (for_each_print_ok _ pr Hl). now split.
  - destruct l as [|t l]; [discriminate|].
    destruct (for_each_print_fail _ pr Hl) as (msg & pr' & -> & Hs). now split.
Qed.

Lemma shows_print {A} (line : A -> string) : shows (fun a => print (line a)).
Proof. intros a pr. now split. Qed.

Lemma code_shown {A} (k : A -> P unit) (a : A) (pr : Proc) :
  shows k ->
  (code_of (fst (k a pr)) =? 3) || (code_of (fst (k a pr)) =? 4)
  || (code_of (fst (k a pr)) =? 5) = false.
Proof.
  intros Hk. destruct (Hk a pr) as [_ H].
  destruct (fst (k a pr)) as [[]|e]; [reflexivity|]. unfold code_of. now rewrite H.
Qed.

Lemma pbind_call_clean {A} (m : M A) (k : A -> P unit) (s : State) :
  fail_safe m -> shows k ->
  let out := pbind (call m) k (mkProc s []) in
  if (code_of (fst out) =? 3) || (code_of (fst out) =? 4) || (code_of (fst out) =? 5)
  then stdout (snd out) = []
       /\ disk (world (st (snd out))) !! path (self s) = disk (world s) !! path (self s)
  else True.
Proof.
  intros Hm Hk. cbv zeta. rewrite pbind_call. cbn [st stdout].
  destruct (m s) as [[a|e] s'] eqn:E.
  - now rewrite (code_shown k a _ Hk).
  - cbn [fst snd st stdout]. destruct (Hm s e s' E) as [H1 H2]. rewrite H2 in H1.
    now destruct (_ || _).
Qed.

Lemma fail_safe_export p : fail_safe (export p).
Proof.
  intros s e s' E. rewrite export_run in E.
  destruct (String.eqb p ""); [injection E as _ <-; now split|].
  destruct (is_dir (disk (world s) !! p)); [|discriminate]. injection E as _ <-. now split.
Qed.

Lemma fail_safe_pure {A} (f : State -> res A) : fail_safe (fun s => (f s, s)).
Proof. intros s e s' [= _ <-]. now split. Qed.

Section Clean.
Variable val_eq : pyval -> pyval -> bool.
Variable dash : string.
Variable reply : response.

Lemma run_command_clean (c : command) (s : State) :
  let out := run_command val_eq dash reply c (mkProc s []) in
  if (code_of (fst out) =? 3) || (code_of (fst out) =? 4) || (code_of (fst out) =? 5)
  then stdout (snd out) = []
       /\ disk (world (st (snd out))) !! path (self s) = disk (world s) !! path (self s)
  else True.
Proof.
  destruct c as [ti de du tg|al|i ti de du tg|i|i|q|p|p rep|]; cbn [run_command].
  - apply pbind_call_clean; [apply fail_safe_add | apply shows_titled].
  - apply pbind_call_clean; [apply quiet_fail_safe, quiet_get_tasks | apply shows_each].
  - apply pbind_call_clean; [apply fail_safe_edit | apply shows_titled].
  - apply pbind_call_clean; [apply fail_safe_toggle | apply shows_titled].
  - apply pbind_call_clean; [apply fail_safe_delete | apply (shows_print (fun _ => _))].
  - apply pbind_call_clean; [apply fail_safe_pure | apply shows_each].
  - apply pbind_call_clean; [apply fail_safe_export | apply (shows_print (fun _ => _))].
  - apply pbind_call_clean; [apply fail_safe_import | apply (shows_print (fun _ => _))].
  - cbv zeta. rewrite pbind_call. cbn [st stdout]. unfold lift at 1.
    destruct (fetch_quote_of_the_day reply) as [q|e].
    + apply pbind_call_clean; [apply fail_safe_add | apply shows_titled].
    + cbn [fst snd st stdout]. now destruct (_ || _).
Qed.

End Clean.

(** *** [main] *)

Section MainFacts.
Variable val_eq : pyval -> pyval -> bool.
Variable help : list string.
Variable dash : string.
Variable reply : response.

(** What [main] does once the note about unknown arguments is out. *)
Lemma main_run (db : string) (c : command) (unknown : list string) (w : World) :
  exists w0,
    same_but_stderr (opened db w0) (opened db w) /\ disk w0 = disk w
    /\ let out := run_command val_eq dash reply c (mkProc (opened db w0) []) in
       exists w',
         main val_eq help dash reply (Parsed (mkArgs db (Some c)) unknown) w
         = (code_of (fst out), stdout (snd out), w')
         /\ disk w' = disk (world (st (snd out))).
Proof.
  assert (H : exists w0,
            same_but_stderr (opened db w0) (opened db w) /\ disk w0 = disk w
            /\ match unknown with
               | [] => w
               | _ => to_stderr ("[info] Ignored unknown args: "
                                   +:+ repr (PList (List.map PStr unknown))) w
               end = w0).
  { destruct unknown as [|u unknown].
    - exists w. repeat split.
    - eexists. split; [apply opened_blind|]. split; reflexivity. }
  destruct H as (w0 & Hb & Hd & Hw). exists w0. split; [exact Hb|]. split; [exact Hd|].
  cbv zeta. unfold main. rewrite Hw. cbn [arg_cmd arg_db].
  destruct (opened_ok db w0) as (-> & _ & _).
  destruct (run_command val_eq dash reply c (mkProc (opened db w0) [])) as [[[]|e] pr].
  - eexists. split; reflexivity.
  - cbn [fst snd code_of].
    destruct (issubclass (exc_cls e) LookupError); [eexists; split; reflexivity|].
    destruct (issubclass (exc_cls e) ValueError); [eexists; split; reflexivity|].
    destruct (issubclass (exc_cls e) IOError); eexists; split; reflexivity.
Qed.





(** X25: when [main] exits with status 3, 4 or 5, it has written nothing
    to standard output, and the file of the store is as it was. *)
Theorem main_failure_is_clean (a : args) (unknown : list string) (w : World) :
  let out := main val_eq help dash reply (Parsed a unknown) w in
  let status := fst (fst out) in
  if (status =? 3) || (status =? 4) || (status =? 5)
  then snd (fst out) = [] /\ disk (snd out) !! arg_db a = disk w !! arg_db a
  else True.
Proof.
  cbv zeta. destruct a as [db [c|]]; [|exact I].
  destruct (main_run db c unknown w) as (w0 & Hb & Hd & w' & E & Hw').
  cbv zeta in E. rewrite E. cbn [fst snd arg_db].
  pose proof (run_command_clean val_eq dash reply c (opened db w0)) as H. cbv zeta in H.
  destruct (_ || _); [|exact I]. destruct H as [H1 H2]. split; [exact H1|].
  destruct (opened_ok db w0) as (_ & Hp & Hdisk).
  rewrite Hw'. rewrite Hp in H2. now rewrite H2, Hdisk, Hd.
Qed.

End MainFacts.

(** *** What [add] prints *)

Lemma split_cons (sep : ascii) (s : string) : exists x r, split sep s = x :: r.
Proof.
  destruct s as [|c s]; cbn [split]; [now eexists _, _|].
  destruct (Ascii.eqb c sep); [now eexists _, _|].
  destruct (split sep s); now eexists _, _.
Qed.

Lemma join_cons (sep x y : string) (r : list string) :
  join sep (x :: y :: r) = x +:+ sep +:+ join sep (y :: r).
Proof. reflexivity. Qed.

Lemma join_split (s : string) : join "," (split "," s) = s.
Proof.
  induction s as [|c s IH]; [reflexivity|]. cbn [split].
  destruct (Ascii.eqb_spec c ",") as [->|Hne].
  - destruct (split_cons "," s) as (x & r & E). rewrite E in IH |- *.
    rewrite join_cons, IH. reflexivity.
  - destruct (split_cons "," s) as (x & r & E). rewrite E in IH |- *.
    destruct r as [|y r].
    + cbn [join] in IH |- *. now rewrite IH.
    + rewrite join_cons in IH |- *. rewrite app_cons. now rewrite IH.
Qed.

Lemma tag_text_PStr (l : list string) : List.map tag_text (List.map PStr l) = l.
Proof. induction l as [|x l IH]; [reflexivity|]. cbn [List.map tag_text]. now rewrite IH. Qed.

Lemma typed_tags_line (tg : option string) :
  match List.map PStr (match tg with Some a => tags_of a | None => [] end) with
  | [] => ""
  | _ :: _ =>
      " tags:" +:+ join ","
        (List.map tag_text
           (List.map PStr (match tg with Some a => tags_of a | None => [] end)))
  end = typed_tags tg.
Proof.
  destruct tg as [a|]; [|reflexivity]. unfold tags_of, typed_tags.
  destruct (String.eqb a "") eqn:Ea; [reflexivity|].
  pose proof (join_split a) as Hj. destruct (split_cons "," a) as (x & r & E).
  rewrite tag_text_PStr, Hj. now rewrite E.
Qed.

Section Echo.
Variable val_eq : pyval -> pyval -> bool.
Variable help : list string.
Variable dash : string.
Variable reply : response.

(** X26: [main] with the subcommand [add] prints, when the date is
    accepted and the save succeeds, "Added:" and the line of the new task:
    the next id, not done, the title, the date as typed and the tags as
    typed, and the description on a line of its own if there is one;
    otherwise it prints nothing. *)
Theorem main_add_prints_task (db ti de : string) (du tg : option string)
    (unknown : list string) (w : World) :
  let s := opened db w in
  let out := main val_eq help dash reply
               (Parsed (mkArgs db (Some (CAdd ti de du tg))) unknown) w in
  snd (fst out)
  = if negb (bad_date du) && can_save s
    then ["Added:";
          format_3d (_next_id (tasks (self s))) +:+ ". [ ] " +:+ ti
            +:+ typed_due du +:+ typed_tags tg]
         ++ (if String.eqb de "" then [] else ["     " +:+ de])
    else [].
Proof.
  cbv zeta.
  destruct (main_run val_eq help dash reply db (CAdd ti de du tg) unknown w)
    as (w0 & Hb & _ & w' & E & _).
  cbv zeta in E. rewrite E. cbn [fst snd]. clear E.
  assert (Hs : can_save (opened db w0) = can_save (opened db w)).
  { destruct Hb as (H1 & H2 & _). unfold can_save. now rewrite H1, H2. }
  assert (Ht : tasks (self (opened db w0)) = tasks (self (opened db w))).
  { destruct Hb as (H1 & _). now rewrite H1. }
  rewrite <- Hs, <- Ht. set (s := opened db w0). clearbody s. clear Hb Hs Ht.
  cbn [run_command]. rewrite pbind_call. cbn [st stdout].
  destruct (bad_date du) eqn:Hbad; cbn [negb andb].
  - destruct du as [d|]; [|discriminate]. cbn [bad_date] in Hbad.
    apply andb_true_iff in Hbad as [Hne Hv].
    destruct (String.eqb_spec d ""); [discriminate|].
    destruct (_validate_date d) as [[]|e] eqn:Ev; [discriminate|].
    now rewrite (add_invalid_date _ _ d _ e s n Ev).
  - match goal with |- context [add ti de du ?T s] =>
      destruct (add_run ti de du T s) as (r & w1 & E & Hr) end.
    { destruct du as [d|]; [|exact I]. cbn [bad_date] in Hbad.
      destruct (String.eqb_spec d ""); [now left|]. right.
      destruct (_validate_date d) as [[]|e]; [reflexivity | discriminate]. }
    cbv zeta in E. rewrite E. apply saved_code in Hr.
    destruct r as [t|e]; destruct Hr as [H1 H2]; rewrite H2; [|reflexivity].
    subst t. unfold pbind, print. cbn [st stdout].
    rewrite print_task_run by apply printable_new. cbn [snd stdout app].
    unfold task_lines, task_line. cbn [id title description due tags done].
    rewrite typed_tags_line. f_equal. f_equal.
    destruct du as [d|]; cbn [due_value truthy str typed_due];
      [destruct (String.eqb d "")|]; reflexivity.
Qed.

End Echo.

End CliFacts.
